(** * Note recognizer: a shallow embedding of [note_recognizer.py]

    The development follows [NoteRecognizer] method by method:
    [get_frequency], [frequency_to_note], the body of the loop of
    [process_audio] (frequency window, classification, note-boundary
    debouncing) and the [start]/[stop] life cycle with the background thread.

    Conventions of the embedding.
    - Clock readings of [time.time()], the durations computed from them and
      the debouncing thresholds are binary64 floats, as in Python: Rocq's
      primitive [float], with its IEEE 754 subtraction and comparison. Times
      are in seconds, as in the source.
    - Frequencies are exact rationals [Q]: a frequency is a bin index times
      44100 over the block length, compared with integers only.
    - [None] is [option]'s [None]; a note name is a [string].
    - Everything the loop does to the outside world ([print], the registered
      callback, [time.sleep]) is recorded, in order, in a list of [effect]s.
    - The registered callback is assumed to return normally.
    - [numpy]'s FFT peak ([np.argmax(np.abs(np.fft.rfft(a)))]) is library
      code: it is a parameter of the development. *)

From Stdlib Require Import Floats.
From Stdlib Require Import ZArith QArith List String Bool Lia Lqa.
From Stdlib.Strings Require Import Byte.
From Stdlib Require Import Permutation Sorted.
Import ListNotations.

Local Open Scope Z_scope.
Local Open Scope Q_scope.

(* Decimal literals such as 0.05 denote, as in Python, the nearest binary64
   value. *)
#[local] Set Warnings "-inexact-float".

(** ** Exceptions *)

Inductive exn : Type :=
| ValueError   (* numpy: odd buffer size, empty FFT input *)
| IOError.     (* PyAudio: a failed or refused stream read *)

Inductive result (A : Type) : Type :=
| Ok (a : A)
| Raise (e : exn).
Arguments Ok {A} a.
Arguments Raise {A} e.

Definition bind {A B : Type} (r : result A) (k : A -> result B) : result B :=
  match r with
  | Ok a => k a
  | Raise e => Raise e
  end.

Notation "x <- r ;; k" := (bind r (fun x => k))
  (at level 61, r at next level, right associativity).

(** ** Comparisons, as booleans *)

(** On frequencies. *)
Definition Qltb (a b : Q) : bool := negb (Qle_bool b a).
Definition Qgtb (a b : Q) : bool := Qltb b a.
Definition Qgeb (a b : Q) : bool := Qle_bool b a.

(** On clock readings and durations: Python's [a >= b] and [a < b] on two
    floats. *)
Definition Fgeb (a b : float) : bool := PrimFloat.leb b a.
Definition Fltb (a b : float) : bool := PrimFloat.ltb a b.

(** ** Audio settings and note table ([__init__]) *)

Definition SAMPLE_RATE : Z := 44100.
Definition CHUNK_SIZE : Z := 4096.

(** [NOTE_RANGES] is a dict literal; iteration follows insertion order, so it
    is kept as an association list in the order of the source. *)
Definition NOTE_RANGES : list (string * (Z * Z)) :=
  [ ("C"%string, (500, 790)%Z);
    ("D"%string, (900, 1000)%Z);
    ("E"%string, (1001, 1200)%Z);
    ("F"%string, (1210, 1300)%Z);
    ("G"%string, (1310, 3000)%Z);
    ("A"%string, (800, 881)%Z) ].

Definition MIN_NOTE_DURATION : float := 0.05%float.
Definition SILENCE_THRESHOLD : float := 0.1%float.
Definition DROPOUT_TOLERANCE : float := 0.05%float.

(** ** [np.frombuffer(audio_data, dtype=np.int16)] *)

(** One little-endian two's-complement 16-bit sample. *)
Definition int16_of_bytes (lo hi : byte) : Z :=
  let u := (Z.of_N (Byte.to_N lo) + 256 * Z.of_N (Byte.to_N hi))%Z in
  if (u <? 32768)%Z then u else (u - 65536)%Z.

Fixpoint frombuffer_int16 (audio_data : list byte) : result (list Z) :=
  match audio_data with
  | [] => Ok []
  | lo :: hi :: rest =>
      match frombuffer_int16 rest with
      | Ok a => Ok (int16_of_bytes lo hi :: a)
      | Raise e => Raise e
      end
  | [_] => Raise ValueError   (* buffer size must be a multiple of element size *)
  end.

(** [np.abs] on an [int16] array stays in [int16]: the magnitude of -32768 is
    not representable and wraps around to -32768. *)
Definition abs_int16 (x : Z) : Z :=
  let a := Z.abs x in
  if (a <? 32768)%Z then a else (a - 65536)%Z.

Definition sumZ (l : list Z) : Z := fold_right Z.add 0%Z l.

(** [a.mean()] of a non-empty integer array (accumulated in float64). *)
Definition mean (l : list Z) : Q :=
  inject_Z (sumZ l) / inject_Z (Z.of_nat (List.length l)).

(** The mathematical mean absolute magnitude of a block, for comparison. *)
Definition mean_abs_magnitude (l : list Z) : Q := mean (map Z.abs l).

Section GetFrequency.

(** [np.argmax(np.abs(np.fft.rfft(audio_array)))]: the index of the largest
    magnitude in the block's DFT magnitude spectrum. *)
Variable rfft_peak_index : list Z -> nat.

Definition get_frequency (audio_data : list byte) : result (option Q) :=
  audio_array <- frombuffer_int16 audio_data ;;
  match audio_array with
  | [] => Raise ValueError     (* the mean is nan, then rfft rejects 0 points *)
  | _ :: _ =>
      let volume := mean (map abs_int16 audio_array) in
      if Qltb volume 200 then Ok None
      else
        let peak_index := rfft_peak_index audio_array in
        let frequency :=
          inject_Z (Z.of_nat peak_index * SAMPLE_RATE)
          / inject_Z (Z.of_nat (List.length audio_array)) in
        if Qltb frequency 500 || Qgtb frequency 3000 then Ok None
        else Ok (Some frequency)
  end.

End GetFrequency.

(** ** [frequency_to_note] *)

Definition in_range (frequency : Q) (range : Z * Z) : bool :=
  let '(low, high) := range in
  Qle_bool (inject_Z low) frequency && Qle_bool frequency (inject_Z high).

Fixpoint first_match (ranges : list (string * (Z * Z))) (frequency : Q)
  : option string :=
  match ranges with
  | [] => None
  | (note, range) :: rest =>
      if in_range frequency range then Some note
      else first_match rest frequency
  end.

Definition frequency_to_note (frequency : option Q) : option string :=
  match frequency with
  | None => None
  | Some f => first_match NOTE_RANGES f
  end.

(** ** The frequency window: [deque(maxlen=5)] and [np.median] *)

Definition FREQ_BUFFER_MAXLEN : nat := 5.

(** [deque.append] on a bounded deque: a full deque first drops its leftmost
    element. *)
Definition deque_append {A : Type} (maxlen : nat) (d : list A) (x : A) : list A :=
  if (maxlen <=? List.length d)%nat then tl d ++ [x] else d ++ [x].

(** [[f for f in self.freq_buffer if f is not None]] *)
Fixpoint non_none (buffer : list (option Q)) : list Q :=
  match buffer with
  | [] => []
  | Some f :: rest => f :: non_none rest
  | None :: rest => non_none rest
  end.

Fixpoint insert_sorted (x : Q) (l : list Q) : list Q :=
  match l with
  | [] => [x]
  | y :: rest => if Qle_bool x y then x :: l else y :: insert_sorted x rest
  end.

Definition sort_floats (l : list Q) : list Q := fold_right insert_sorted [] l.

(** [np.median] of a one-dimensional array: the middle element of the sorted
    values, or the mean of the two middle elements when their number is even. *)
Definition np_median (l : list Q) : Q :=
  let s := sort_floats l in
  let n := List.length l in
  if Nat.even n
  then (nth (n / 2 - 1) s 0 + nth (n / 2) s 0) / 2
  else nth (n / 2) s 0.

(** Lines 138-146: the stabilized frequency, computed from the window after
    the new reading has been appended. *)
Definition stable_frequency_of (freq_buffer : list (option Q)) (frequency : option Q)
  : option Q :=
  match frequency with
  | Some f =>
      let present := non_none freq_buffer in
      if (2 <=? List.length present)%nat then Some (np_median present)
      else Some f
  | None => None
  end.

(** ** State of the recognizer and observable effects *)

Record recognizer : Type := mkRecognizer {
  current_note : option string;
  last_note_time : float;
  note_start_time : float;
  last_detection_time : float;
  last_dropout_time : float;
  freq_buffer : list (option Q)
}.

(** The attribute values set by [__init__]. The times are set to the integer
    0, which the subtractions of the loop convert to the float 0.0. *)
Definition init : recognizer :=
  {| current_note := None;
     last_note_time := 0%float;
     note_start_time := 0%float;
     last_detection_time := 0%float;
     last_dropout_time := 0%float;
     freq_buffer := [] |}.

Definition set_current_note (self : recognizer) (v : option string) : recognizer :=
  {| current_note := v;
     last_note_time := last_note_time self;
     note_start_time := note_start_time self;
     last_detection_time := last_detection_time self;
     last_dropout_time := last_dropout_time self;
     freq_buffer := freq_buffer self |}.

Definition set_note_start_time (self : recognizer) (v : float) : recognizer :=
  {| current_note := current_note self;
     last_note_time := last_note_time self;
     note_start_time := v;
     last_detection_time := last_detection_time self;
     last_dropout_time := last_dropout_time self;
     freq_buffer := freq_buffer self |}.

Definition set_last_detection_time (self : recognizer) (v : float) : recognizer :=
  {| current_note := current_note self;
     last_note_time := last_note_time self;
     note_start_time := note_start_time self;
     last_detection_time := v;
     last_dropout_time := last_dropout_time self;
     freq_buffer := freq_buffer self |}.

Definition set_freq_buffer (self : recognizer) (v : list (option Q)) : recognizer :=
  {| current_note := current_note self;
     last_note_time := last_note_time self;
     note_start_time := note_start_time self;
     last_detection_time := last_detection_time self;
     last_dropout_time := last_dropout_time self;
     freq_buffer := v |}.

(** A Python value passed as a positional argument. *)
Inductive pyval : Type :=
| PyStr (s : string)
| PyFloat (x : float).

Inductive effect : Type :=
| print_note_detected (note : string)                (* "Note detected: ..." *)
| print_note_played (note : string) (note_duration : float)  (* "Note played: ..." *)
| callback (args : list pyval)                       (* self.callback(...) *)
| print_error (e : exn)                              (* "Audio processing error" *)
| sleep.                                             (* time.sleep(0.01) *)

(** The note completion the source reports: both branches print the note and
    its duration and then call [self.callback(self.current_note)]. *)
Definition note_played (note : string) (note_duration : float) : list effect :=
  [print_note_played note note_duration; callback [PyStr note]].

(** ** The note-boundary logic of the loop body (lines 151-189) *)

(** [if detected_note:] is Python truthiness: [None] and the empty string are
    false. *)
Definition truthy (detected_note : option string) : bool :=
  match detected_note with
  | Some s => negb (String.eqb s EmptyString)
  | None => false
  end.

(** The [else] branch, lines 174-189: no note detected (silence or dropout).
    [current_time] is the clock as read again at line 176. *)
Definition no_note_detected (self : recognizer) (current_time : float)
  : recognizer * list effect :=
  match current_note self with
  | Some current =>
      let silence_duration := (current_time - last_detection_time self)%float in
      if Fgeb silence_duration DROPOUT_TOLERANCE then
        if Fgeb silence_duration SILENCE_THRESHOLD then
          let note_duration :=
            (last_detection_time self - note_start_time self)%float in
          let completed :=
            if Fgeb note_duration MIN_NOTE_DURATION
            then note_played current note_duration else [] in
          (set_current_note self None, completed)
        else (self, [])
      else (self, [])
  | None => (self, [])
  end.

(** The [if detected_note:] branch, lines 153-171. *)
Definition note_detected (self : recognizer) (detected_note : string)
    (current_time : float) : recognizer * list effect :=
  let self := set_last_detection_time self current_time in
  match current_note self with
  | None =>
      (set_note_start_time (set_current_note self (Some detected_note)) current_time,
       [print_note_detected detected_note])
  | Some current =>
      if negb (String.eqb detected_note current) then
        let note_duration := (current_time - note_start_time self)%float in
        let completed :=
          if Fgeb note_duration MIN_NOTE_DURATION
          then note_played current note_duration else [] in
        (set_note_start_time (set_current_note self (Some detected_note)) current_time,
         completed ++ [print_note_detected detected_note])
      else (self, [])
  end.

(** Lines 151-189. [current_time] is the clock read at line 151,
    [current_time'] the clock read again at line 176. *)
Definition note_boundary (self : recognizer) (detected_note : option string)
    (current_time current_time' : float) : recognizer * list effect :=
  match detected_note with
  | Some note =>
      if truthy detected_note then note_detected self note current_time
      else no_note_detected self current_time'
  | None => no_note_detected self current_time'
  end.

(** ** One iteration of the loop of [process_audio] (lines 126-193) *)

(** What one iteration obtains from outside: the outcome of [stream.read] and
    the two clock readings. *)
Record iteration_input : Type := {
  stream_read : result (list byte);
  clock : float;            (* time.time() at line 151 *)
  clock_silence : float     (* time.time() at line 176 *)
}.

(** The [except Exception] handler, lines 191-193. *)
Definition handle_exception (self : recognizer) (e : exn)
  : recognizer * list effect :=
  (self, [print_error e; sleep]).

Section ProcessAudio.

Variable rfft_peak_index : list Z -> nat.

Definition process_audio_iteration (self : recognizer) (inp : iteration_input)
  : recognizer * list effect :=
  match (audio_data <- stream_read inp ;; get_frequency rfft_peak_index audio_data) with
  | Raise e => handle_exception self e
  | Ok frequency =>
      let self :=
        set_freq_buffer self
          (deque_append FREQ_BUFFER_MAXLEN (freq_buffer self) frequency) in
      let stable_frequency := stable_frequency_of (freq_buffer self) frequency in
      let detected_note := frequency_to_note stable_frequency in
      note_boundary self detected_note (clock inp) (clock_silence inp)
  end.

(** The loop, unrolled over the inputs of successive iterations. *)
Fixpoint process_audio (self : recognizer) (inputs : list iteration_input)
  : recognizer * list effect :=
  match inputs with
  | [] => (self, [])
  | inp :: rest =>
      let '(self1, out1) := process_audio_iteration self inp in
      let '(self2, out2) := process_audio self1 rest in
      (self2, out1 ++ out2)
  end.

End ProcessAudio.

(** ** Scripted ticks for the boundary logic

    A scripted tick gives the classification and one timestamp, read by both
    clock calls of the iteration. *)
Definition tick : Type := (option string * float)%type.

Definition step_tick (self : recognizer) (tk : tick) : recognizer * list effect :=
  note_boundary self (fst tk) (snd tk) (snd tk).

(** Feeding a script: the final state and, tick by tick, the effects. *)
Fixpoint feed_ticks (self : recognizer) (ticks : list tick)
  : recognizer * list (list effect) :=
  match ticks with
  | [] => (self, [])
  | tk :: rest =>
      let '(self1, out1) := step_tick self tk in
      let '(self2, outs) := feed_ticks self1 rest in
      (self2, out1 :: outs)
  end.

(** The argument lists of the callback invocations among some effects. *)
Fixpoint callbacks (out : list effect) : list (list pyval) :=
  match out with
  | [] => []
  | callback args :: rest => args :: callbacks rest
  | _ :: rest => callbacks rest
  end.

(** The completed notes the loop reported, with the duration it computed. *)
Fixpoint notes_played (out : list effect) : list (string * float) :=
  match out with
  | [] => []
  | print_note_played note d :: rest => (note, d) :: notes_played rest
  | _ :: rest => notes_played rest
  end.

(** ** Vocabulary of the properties *)

(** The scripted end-to-end scenario. *)
Definition scripted_scenario : list tick :=
  [ (Some "A"%string, 0%float);
    (Some "A"%string, 0.06%float);
    (None, 0.11%float);
    (Some "B"%string, 0.2%float);
    (Some "B"%string, 0.26%float) ].

(** What the effects of one tick can be. *)
Inductive tick_effects (self : recognizer) : recognizer -> list effect -> Prop :=
| quiet_tick self' out :
    callbacks out = [] -> notes_played out = [] ->
    tick_effects self self' out
| closing_tick self' s d out :
    current_note self = Some s ->
    current_note self' <> Some s ->
    Fgeb d MIN_NOTE_DURATION = true ->
    callbacks out = [[PyStr s]] -> notes_played out = [(s, d)] ->
    tick_effects self self' out.

(** The delivery of notes as the specification words it: every completed note, with the duration
    the loop computed for it, reaches the callback as the pair (symbol,
    duration). *)
Definition delivers_symbol_and_duration (out : list effect) : Prop :=
  forall s d, In (s, d) (notes_played out) ->
    In [PyStr s; PyFloat d] (callbacks out).

(** Two ticks: "A" for 200 ms, closed by the arrival of "B". *)
Definition one_closed_note : list tick :=
  [ (Some "A"%string, 0%float); (Some "B"%string, 0.2%float) ].

(** A tick closes a run when a note was in progress before it and is no longer
    the current one after it. *)
Definition closes_run (before after : recognizer) : bool :=
  match current_note before, current_note after with
  | Some s, Some s' => negb (String.eqb s s')
  | Some _, None => true
  | None, _ => false
  end.

(** The run a tick closes, with the duration the loop computes for it: the
    note in progress before the tick; its duration runs from its start to the
    clock reading [now] of the tick when another note takes over, and to the
    last detection when silence ends it. *)
Definition closed_run (before after : recognizer) (now : float)
  : option (string * float) :=
  match current_note before with
  | Some s =>
      if closes_run before after then
        Some (s, match current_note after with
                 | Some _ => (now - note_start_time before)%float
                 | None =>
                     (last_detection_time before - note_start_time before)%float
                 end)
      else None
  | None => None
  end.

(** A closed run counts as a note when its duration reaches
    [MIN_NOTE_DURATION]. *)
Definition long_enough (run : option (string * float)) : list (string * float) :=
  match run with
  | Some (s, d) => if Fgeb d MIN_NOTE_DURATION then [(s, d)] else []
  | None => []
  end.

(** The runs closed along the iterations of the loop that count as notes, in
    order. *)
Fixpoint runs_to_report (rfft_peak_index : list Z -> nat) (self : recognizer)
    (inputs : list iteration_input) : list (string * float) :=
  match inputs with
  | [] => []
  | inp :: rest =>
      let self1 := fst (process_audio_iteration rfft_peak_index self inp) in
      long_enough (closed_run self self1 (clock inp))
      ++ runs_to_report rfft_peak_index self1 rest
  end.

(** The number of runs closed along the iterations of the loop. *)
Fixpoint runs_closed (rfft_peak_index : list Z -> nat) (self : recognizer)
    (inputs : list iteration_input) : nat :=
  match inputs with
  | [] => 0
  | inp :: rest =>
      let self1 := fst (process_audio_iteration rfft_peak_index self inp) in
      ((if closes_run self self1 then 1 else 0)
       + runs_closed rfft_peak_index self1 rest)%nat
  end.




(** The window after a history of readings, starting from the empty deque of
    [__init__]. *)
Definition window_after (history : list (option Q)) : list (option Q) :=
  fold_left (deque_append FREQ_BUFFER_MAXLEN) history [].

(** Lines 135-146 for the reading that arrives after [history]: append it,
    then stabilize. *)
Definition stabilizer_output (history : list (option Q)) (frequency : option Q)
  : option Q :=
  stable_frequency_of
    (deque_append FREQ_BUFFER_MAXLEN (window_after history) frequency) frequency.

(** A reading that is not [None]. *)
Definition is_reading (frequency : option Q) : bool :=
  match frequency with
  | Some _ => true
  | None => false
  end.

(** The last [n] elements of a list. *)
Definition last_n {A : Type} (n : nat) (l : list A) : list A :=
  skipn (List.length l - n) l.

(** The estimator as the specification words it, on the decoded block: the volume is the
    mean absolute sample magnitude. To be compared with [get_frequency]. *)
Definition frequency_estimate_spec (rfft_peak_index : list Z -> nat)
    (audio_array : list Z) : option Q :=
  if Qltb (mean_abs_magnitude audio_array) 200 then None
  else
    let frequency :=
      inject_Z (Z.of_nat (rfft_peak_index audio_array) * SAMPLE_RATE)
      / inject_Z (Z.of_nat (List.length audio_array)) in
    if Qltb frequency 500 || Qgtb frequency 3000 then None
    else Some frequency.

(** A full-scale square wave, as a saturated input delivers it: 128 periods of
    16 samples at 32767 followed by 16 samples at -32768, 4096 samples in
    all. Its fundamental is bin 128 of the spectrum, 1378.125 Hz. *)
Definition clipped_period : list byte :=
  List.concat (repeat [xff; x7f] 16) ++ List.concat (repeat [x00; x80] 16).

Definition clipped_square_block : list byte :=
  List.concat (repeat clipped_period 128).

(** ** [start], [stop] and the background thread

    [start] sets [self.running] and spawns a daemon thread that runs
    [process_audio]; [stop], run by the caller's thread, clears the flag and
    closes the stream; it does not join the thread. The two threads are
    interleaved turn by turn. A turn of [stop] is one of its statements. A
    turn of the loop thread is one of: the opening of the stream, one
    evaluation of the test of the [while], one [stream.read], and the rest of
    the iteration (lines 131-193) taken in one piece: these lines read and
    write nothing that [stop] touches, so that running them in one turn loses
    no interleaving; a count of turns is not a count of source statements. *)

Inductive stream_state : Type :=
| no_stream          (* self.stream is None *)
| stream_open
| stream_stopped     (* after stop_stream() *)
| stream_closed.     (* after close() *)

(** Where the thread of [process_audio] stands. *)
Inductive loop_pc : Type :=
| at_open                               (* line 110: self.audio.open(...) *)
| at_while                              (* line 125: while self.running *)
| at_read                               (* line 128: self.stream.read(...) *)
| at_body (audio : result (list byte))  (* lines 131-193, as one turn, on what
                                           was read *)
| loop_returned.

(** Where the caller stands in [stop]. *)
Inductive stop_pc : Type :=
| stop_not_called      (* next: line 205, if self.running *)
| stop_clear_flag      (* next: line 206, self.running = False *)
| stop_test_stream     (* next: line 207, if self.stream *)
| stop_stop_stream     (* next: line 208, self.stream.stop_stream() *)
| stop_close           (* next: line 209, self.stream.close() *)
| stop_print           (* next: line 210, print, then return *)
| stop_returned.

Inductive event : Type :=
| loop_did (e : effect)    (* an effect of the loop thread *)
| stop_returns.            (* stop() hands control back to its caller *)

Record world : Type := {
  self_ : recognizer;
  running : bool;
  stream : stream_state;
  loop : loop_pc;
  stopper : stop_pc;
  log : list event
}.

(** What the outside provides to a turn of the loop thread. *)
Record environment : Type := {
  open_succeeds : bool;
  read_outcome : result (list byte);
  time_151 : float;
  time_176 : float
}.

(** Which thread takes the next turn. *)
Inductive move : Type :=
| loop_moves (env : environment)
| stop_moves.

(** The world right after [start()] returned on a fresh recognizer. *)
Definition started : world :=
  {| self_ := init; running := true; stream := no_stream;
     loop := at_open; stopper := stop_not_called; log := [] |}.

Definition stop_step (w : world) : world :=
  match stopper w with
  | stop_not_called =>
      if running w
      then {| self_ := self_ w; running := running w; stream := stream w;
              loop := loop w; stopper := stop_clear_flag; log := log w |}
      else {| self_ := self_ w; running := running w; stream := stream w;
              loop := loop w; stopper := stop_returned;
              log := log w ++ [stop_returns] |}
  | stop_clear_flag =>
      {| self_ := self_ w; running := false; stream := stream w;
         loop := loop w; stopper := stop_test_stream; log := log w |}
  | stop_test_stream =>
      {| self_ := self_ w; running := running w; stream := stream w;
         loop := loop w;
         stopper := match stream w with
                    | no_stream => stop_print
                    | _ => stop_stop_stream
                    end;
         log := log w |}
  | stop_stop_stream =>
      {| self_ := self_ w; running := running w; stream := stream_stopped;
         loop := loop w; stopper := stop_close; log := log w |}
  | stop_close =>
      {| self_ := self_ w; running := running w; stream := stream_closed;
         loop := loop w; stopper := stop_print; log := log w |}
  | stop_print =>
      {| self_ := self_ w; running := running w; stream := stream w;
         loop := loop w; stopper := stop_returned;
         log := log w ++ [stop_returns] |}
  | stop_returned => w
  end.

Section Threads.

Variable rfft_peak_index : list Z -> nat.

Definition loop_step (w : world) (env : environment) : world :=
  match loop w with
  | at_open =>
      if open_succeeds env
      then {| self_ := self_ w; running := running w; stream := stream_open;
              loop := at_while; stopper := stopper w; log := log w |}
      else {| self_ := self_ w; running := false; stream := stream w;
              loop := loop_returned; stopper := stopper w; log := log w |}
  | at_while =>
      {| self_ := self_ w; running := running w; stream := stream w;
         loop := if running w then at_read else loop_returned;
         stopper := stopper w; log := log w |}
  | at_read =>
      (* a stream that was stopped or closed refuses the read *)
      let audio := match stream w with
                   | stream_open => read_outcome env
                   | _ => Raise IOError
                   end in
      {| self_ := self_ w; running := running w; stream := stream w;
         loop := at_body audio; stopper := stopper w; log := log w |}
  | at_body audio =>
      let '(self1, out) :=
        process_audio_iteration rfft_peak_index (self_ w)
          {| stream_read := audio; clock := time_151 env;
             clock_silence := time_176 env |} in
      {| self_ := self1; running := running w; stream := stream w;
         loop := at_while; stopper := stopper w;
         log := log w ++ map loop_did out |}
  | loop_returned => w
  end.

Definition step (w : world) (m : move) : world :=
  match m with
  | loop_moves env => loop_step w env
  | stop_moves => stop_step w
  end.

Definition run (w : world) (schedule : list move) : world :=
  fold_left step schedule w.

End Threads.

(** The effects of the loop thread recorded in a log. *)
Fixpoint loop_effects (l : list event) : list effect :=
  match l with
  | [] => []
  | loop_did e :: rest => e :: loop_effects rest
  | stop_returns :: rest => loop_effects rest
  end.

(** What a log records after the return of [stop()]. *)
Fixpoint after_stop (l : list event) : list event :=
  match l with
  | [] => []
  | stop_returns :: rest => rest
  | loop_did _ :: rest => after_stop rest
  end.

(** A square wave of amplitude 10000 with 80 periods in the 4096 samples of
    a block: a tone whose spectrum peaks at bin 80, that is at 861 Hz, in the
    interval of "A". *)
Definition tone_sample (n : nat) : list byte :=
  if ((Z.of_nat n * 80) mod 4096 <? 2048)%Z then [x10; x27] else [xf0; xd8].

Definition tone_block : list byte :=
  flat_map tone_sample (seq 0 (Z.to_nat CHUNK_SIZE)).

(** The spectrum peak on the blocks of the scenarios below: bin 80 (on silent
    blocks the peak is not looked at). *)
Definition peak_at_bin_80 : list Z -> nat := fun _ => 80%nat.

(** From [start()]: the thread opens the stream and runs two iterations on the
    tone, at 0 and at 100 ms; "A" is then in progress and the loop is back at
    its test. *)
Definition warm_up : list move :=
  let env t := {| open_succeeds := true; read_outcome := Ok tone_block;
                  time_151 := t; time_176 := t |} in
  [ loop_moves (env 0%float);
    loop_moves (env 0%float); loop_moves (env 0%float); loop_moves (env 0%float);
    loop_moves (env 0.1%float); loop_moves (env 0.1%float);
    loop_moves (env 0.1%float) ].

(** 4096 samples of silence. *)
Definition silent_block : list byte := repeat x00 (2 * Z.to_nat CHUNK_SIZE).

(** The loop passes its test and reads a silent block; [stop()] then runs from
    its call to its return; the loop, 300 ms on the clock, finishes the
    iteration it had begun. *)
Definition stop_during_iteration : list move :=
  let env := {| open_succeeds := true; read_outcome := Ok silent_block;
                time_151 := 0.3%float; time_176 := 0.3%float |} in
  [ loop_moves env; loop_moves env;
    stop_moves; stop_moves; stop_moves; stop_moves; stop_moves; stop_moves;
    loop_moves env; loop_moves env ].

(** [stop()] runs to its end before the thread has opened the stream. *)
Definition stop_before_open : list move :=
  let env := {| open_succeeds := true; read_outcome := Ok silent_block;
                time_151 := 0%float; time_176 := 0%float |} in
  [ stop_moves; stop_moves; stop_moves; stop_moves;
    loop_moves env; loop_moves env ].

(** The callback invocations the loop thread can still make once the flag is
    cleared for good: one if it is inside an iteration, none otherwise. *)
Definition pending_callbacks (pc : loop_pc) : nat :=
  match pc with
  | at_read | at_body _ => 1
  | at_open | at_while | loop_returned => 0
  end.

(** What holds in [stop] once a stream was found open by a running loop. *)
Definition releasing (w : world) : Prop :=
  loop w <> at_open
  /\ match stopper w with
     | stop_not_called => running w = true /\ stream w <> no_stream
     | stop_clear_flag => stream w <> no_stream
     | stop_test_stream => running w = false /\ stream w <> no_stream
     | stop_stop_stream | stop_close => running w = false
     | stop_print | stop_returned => running w = false /\ stream w = stream_closed
     end.

(** * The consumers of the notes: [virtual_mouse.py], [mouse_controller.py],
    [control_server.py], [audio_client.py]

    In these files the diagnostic [print]s are not recorded; what is recorded
    is what reaches the virtual device, in order. *)

(** ** [virtual_mouse.py] *)

Module VirtualMouse.

(** The buttons the device declares. *)
Inductive button : Type := BTN_LEFT | BTN_RIGHT | BTN_MIDDLE.

(** What a method does to the [UInput] device, and the pauses between. *)
Inductive event : Type :=
| write_REL_X (value : Z)                 (* ui.write(EV_REL, REL_X, value) *)
| write_REL_Y (value : Z)                 (* ui.write(EV_REL, REL_Y, value) *)
| write_KEY (b : button) (value : Z)      (* ui.write(EV_KEY, b, value) *)
| syn                                     (* ui.syn() *)
| sleep (seconds : Q).                    (* time.sleep(seconds) *)

(** [range(n)] *)
Definition range (n : Z) : list Z := map Z.of_nat (seq 0 (Z.to_nat n)).

(** Lines 38-39: the share of step [i] in a displacement [d]. Python's [//]
    is the floor division, [Z.div] here since [steps] is positive. *)
Definition step_of (d steps i : Z) : Z :=
  if (i <? steps - 1)%Z then (d / steps)%Z
  else (d - (d / steps) * (steps - 1))%Z.

Definition steps_of (dx dy : Z) : Z :=
  (Z.max (Z.abs dx) (Z.abs dy) / 10 + 1)%Z.

(** The body of the [for] loop of [move], lines 38-47. *)
Definition move_iteration (dx dy steps i : Z) : list event :=
  let step_dx := step_of dx steps i in
  let step_dy := step_of dy steps i in
  (if (step_dx =? 0)%Z then [] else [write_REL_X step_dx])
  ++ (if (step_dy =? 0)%Z then [] else [write_REL_Y step_dy])
  ++ [syn; sleep (1 # 1000)].

Definition move (dx dy : Z) : list event :=
  let steps := steps_of dx dy in
  flat_map (move_iteration dx dy steps) (range steps).

Definition default_button (b : option button) : button :=
  match b with
  | Some b => b
  | None => BTN_LEFT
  end.

Definition mouse_down (b : option button) : list event :=
  [write_KEY (default_button b) 1; syn].

Definition mouse_up (b : option button) : list event :=
  [write_KEY (default_button b) 0; syn].

Definition click (b : option button) : list event :=
  mouse_down (Some (default_button b)) ++ [sleep (5 # 100)]
  ++ mouse_up (Some (default_button b)).

(** The displacement the device has been told, along each axis. *)
Fixpoint total_x (l : list event) : Z :=
  match l with
  | [] => 0
  | write_REL_X v :: rest => v + total_x rest
  | _ :: rest => total_x rest
  end%Z.

Fixpoint total_y (l : list event) : Z :=
  match l with
  | [] => 0
  | write_REL_Y v :: rest => v + total_y rest
  | _ :: rest => total_y rest
  end%Z.

(** The number of reports ([syn]) sent. *)
Fixpoint reports (l : list event) : nat :=
  match l with
  | [] => 0
  | syn :: rest => S (reports rest)
  | _ :: rest => reports rest
  end.

(** Whether the left button is held after some events, given whether it was
    held before them. *)
Fixpoint left_held (held : bool) (l : list event) : bool :=
  match l with
  | [] => held
  | write_KEY BTN_LEFT v :: rest => left_held (negb (v =? 0)%Z) rest
  | _ :: rest => left_held held rest
  end.

End VirtualMouse.

(** ** [mouse_controller.py] *)

Module MouseController.

Inductive State : Type := IDLE | CARD_SELECTED | PLACING.

Definition State_eqb (a b : State) : bool :=
  match a, b with
  | IDLE, IDLE | CARD_SELECTED, CARD_SELECTED | PLACING, PLACING => true
  | _, _ => false
  end.

(** A Python value that may arrive as a card number: the hot keys and the
    card cycle pass an [int], a command decoded from JSON can carry anything.
    [Float] stands for the finite floats, [Other] for every value that equals
    no integer (a string, a list, a dict, a non-finite float). *)
Inductive value : Type :=
| NoneValue
| Bool (b : bool)
| Int (n : Z)
| Float (x : Q)
| Other.

(** [v == n] for an integer [n], as Python compares numbers. *)
Definition equals_int (v : value) (n : Z) : bool :=
  match v with
  | Int m => (m =? n)%Z
  | Bool b => ((if b then 1 else 0) =? n)%Z
  | Float x => Qeq_bool x (inject_Z n)
  | NoneValue | Other => false
  end.

(** [CARD_OFFSETS], a dict literal with the keys 1 to 4. *)
Definition CARD_OFFSETS : list (Z * (Z * Z)) :=
  [ (1, (0, 0)); (2, (103, 0)); (3, (180, 0)); (4, (270, 0)) ]%Z.

Definition MOVE_STEP : Z := 50.

(** [card_number in [1, 2, 3, 4]]: the key the value is equal to, if any;
    [CARD_OFFSETS[card_number]] then finds the entry of that key. *)
Definition card_key (card_number : value) : option Z :=
  find (equals_int card_number) [1; 2; 3; 4]%Z.

Fixpoint lookup (key : Z) (d : list (Z * (Z * Z))) : option (Z * Z) :=
  match d with
  | [] => None
  | (k, v) :: rest => if (k =? key)%Z then Some v else lookup key rest
  end.

Record t : Type := {
  state : State;
  current_card : option value;
  mouse_pressed : bool;
  relative_x : Z;
  relative_y : Z
}.

(** The attribute values set by [__init__]. *)
Definition init : t :=
  {| state := IDLE; current_card := None; mouse_pressed := false;
     relative_x := 0; relative_y := 0 |}.

(** What a method asks of [self.mouse], and the pauses between. *)
Inductive action : Type :=
| mouse_move (dx dy : Z)     (* self.mouse.move(dx, dy) *)
| mouse_down                 (* self.mouse.mouse_down() *)
| mouse_up                   (* self.mouse.mouse_up() *)
| sleep (seconds : Q).       (* time.sleep(seconds) *)

(** A method body: it updates the attributes and issues actions. *)
Definition method : Type := t -> t * list action.

Definition skip : method := fun self => (self, []).

Definition andthen (m1 m2 : method) : method :=
  fun self =>
    let '(self1, out1) := m1 self in
    let '(self2, out2) := m2 self1 in
    (self2, out1 ++ out2).

Notation "m1 >> m2" := (andthen m1 m2) (at level 65, right associativity).

Definition do (a : action) : method := fun self => (self, [a]).

Definition when (cond : t -> bool) (m : method) : method :=
  fun self => if cond self then m self else (self, []).

Definition set_state (v : State) : method :=
  fun self =>
    ({| state := v; current_card := current_card self;
        mouse_pressed := mouse_pressed self;
        relative_x := relative_x self; relative_y := relative_y self |}, []).

Definition set_current_card (v : option value) : method :=
  fun self =>
    ({| state := state self; current_card := v;
        mouse_pressed := mouse_pressed self;
        relative_x := relative_x self; relative_y := relative_y self |}, []).

Definition set_mouse_pressed (v : bool) : method :=
  fun self =>
    ({| state := state self; current_card := current_card self;
        mouse_pressed := v;
        relative_x := relative_x self; relative_y := relative_y self |}, []).

Definition set_relative_x (v : Z) : method :=
  fun self =>
    ({| state := state self; current_card := current_card self;
        mouse_pressed := mouse_pressed self;
        relative_x := v; relative_y := relative_y self |}, []).

Definition set_relative_y (v : Z) : method :=
  fun self =>
    ({| state := state self; current_card := current_card self;
        mouse_pressed := mouse_pressed self;
        relative_x := relative_x self; relative_y := v |}, []).

(** [self.mouse.move(-self.relative_x, -self.relative_y)] *)
Definition move_back : method :=
  fun self => do (mouse_move (- relative_x self) (- relative_y self)) self.

(** The release of the button, as the three methods write it. *)
Definition release_if_pressed : method :=
  when mouse_pressed (do mouse_up >> set_mouse_pressed false).

Definition is_idle (self : t) : bool := State_eqb (state self) IDLE.
Definition not_idle (self : t) : bool := negb (State_eqb (state self) IDLE).
Definition is_card_selected (self : t) : bool :=
  State_eqb (state self) CARD_SELECTED.
Definition away_from_card_1 (self : t) : bool :=
  negb (relative_x self =? 0)%Z || negb (relative_y self =? 0)%Z.

Definition place_card : method :=
  fun self =>
    if is_idle self then (self, [])
    else
      (release_if_pressed
       >> do (sleep (1 # 10))
       >> move_back
       >> set_relative_x 0 >> set_relative_y 0
       >> set_state IDLE >> set_current_card None) self.

Definition reset : method :=
  do (mouse_move (-1000) 1000)
  >> do (sleep (1 # 10))
  >> release_if_pressed
  >> do (mouse_move 550 (-80))
  >> do (sleep (1 # 10))
  >> set_state IDLE >> set_current_card None >> set_mouse_pressed false
  >> set_relative_x 0 >> set_relative_y 0.

Definition select_card (card_number : value) : method :=
  fun self =>
    match card_key card_number with
    | None => (self, [])
    | Some key =>
        (when not_idle
           (reset >> move_back >> do (sleep (2 # 10))
            >> set_relative_x 0 >> set_relative_y 0)
         >> release_if_pressed
         >> (fun self =>
               match lookup key CARD_OFFSETS with
               | None => (self, [])     (* KeyError: no key of the list lacks an entry *)
               | Some (offset_x, offset_y) =>
                   (when away_from_card_1
                      (move_back >> do (sleep (1 # 10))
                       >> set_relative_x 0 >> set_relative_y 0)
                    >> when (fun _ => negb (offset_x =? 0)%Z || negb (offset_y =? 0)%Z)
                         (do (mouse_move offset_x offset_y) >> do (sleep (2 # 10))
                          >> set_relative_x offset_x >> set_relative_y offset_y)
                    >> set_state CARD_SELECTED
                    >> set_current_card (Some card_number)) self
               end)) self
    end.

(** Lines 153-158, shared by the four moves: a selected card is grabbed. *)
Definition start_dragging : method :=
  when is_card_selected
    (do mouse_down >> set_mouse_pressed true >> set_state PLACING).

Definition move_up : method :=
  fun self =>
    if is_idle self then (self, [])
    else
      (start_dragging
       >> do (mouse_move 0 (- MOVE_STEP)) >> do (sleep (1 # 10))
       >> (fun self => set_relative_y (relative_y self - MOVE_STEP) self)) self.

Definition move_down : method :=
  fun self =>
    if is_idle self then (self, [])
    else
      (start_dragging
       >> do (mouse_move 0 MOVE_STEP) >> do (sleep (1 # 10))
       >> (fun self => set_relative_y (relative_y self + MOVE_STEP) self)) self.

Definition move_left : method :=
  fun self =>
    if is_idle self then (self, [])
    else
      (start_dragging
       >> do (mouse_move (- MOVE_STEP) 0) >> do (sleep (1 # 10))
       >> (fun self => set_relative_x (relative_x self - MOVE_STEP) self)) self.

Definition move_right : method :=
  fun self =>
    if is_idle self then (self, [])
    else
      (start_dragging
       >> do (mouse_move MOVE_STEP 0) >> do (sleep (1 # 10))
       >> (fun self => set_relative_x (relative_x self + MOVE_STEP) self)) self.

(** What the actions are on the device, by the methods of [VirtualMouse]. *)
Definition perform (a : action) : list VirtualMouse.event :=
  match a with
  | mouse_move dx dy => VirtualMouse.move dx dy
  | mouse_down => VirtualMouse.mouse_down None
  | mouse_up => VirtualMouse.mouse_up None
  | sleep seconds => [VirtualMouse.sleep seconds]
  end.

Definition on_device (out : list action) : list VirtualMouse.event :=
  flat_map perform out.

End MouseController.

(** ** Decoded JSON *)

Module Json.

Local Unset Elimination Schemes.

(** What [json.loads] yields. The members of an object are listed once per
    key, as in the [dict] it decodes to. *)
Inductive t : Type :=
| Null
| Bool (b : bool)
| Int (n : Z)
| Float (x : Q)
| Str (s : string)
| Array (items : list t)
| Object (members : list (string * t)).

Local Set Elimination Schemes.

(** [d.get(key, default)] on the members of an object. *)
Fixpoint get (members : list (string * t)) (key : string) (default : t) : t :=
  match members with
  | [] => default
  | (k, v) :: rest => if String.eqb k key then v else get rest key default
  end.

End Json.

(** ** [control_server.py] *)

Module ControlServer.

Record t : Type := {
  controller : MouseController.t;
  running : bool;
  current_card_cycle : Z;
  last_action_was_card_select : bool
}.

(** The attribute values set by [__init__] (the socket set-up apart). *)
Definition init : t :=
  {| controller := MouseController.init; running := true;
     current_card_cycle := 0; last_action_was_card_select := false |}.

(** A call of a method of [self.controller]. *)
Definition call (m : MouseController.method) (self : t)
  : t * list MouseController.action :=
  let '(c, out) := m (controller self) in
  ({| controller := c; running := running self;
      current_card_cycle := current_card_cycle self;
      last_action_was_card_select := last_action_was_card_select self |}, out).

Definition set_running (v : bool) (self : t) : t :=
  {| controller := controller self; running := v;
     current_card_cycle := current_card_cycle self;
     last_action_was_card_select := last_action_was_card_select self |}.

Definition set_current_card_cycle (v : Z) (self : t) : t :=
  {| controller := controller self; running := running self;
     current_card_cycle := v;
     last_action_was_card_select := last_action_was_card_select self |}.

Definition set_last_action_was_card_select (v : bool) (self : t) : t :=
  {| controller := controller self; running := running self;
     current_card_cycle := current_card_cycle self;
     last_action_was_card_select := v |}.

Definition cycle_card_select (self : t) : t * list MouseController.action :=
  let self :=
    if last_action_was_card_select self
    then set_current_card_cycle ((current_card_cycle self + 1) mod 4)%Z self
    else set_current_card_cycle 0 self in
  let self := set_last_action_was_card_select true self in
  let card_number := (current_card_cycle self + 1)%Z in
  call (MouseController.select_card (MouseController.Int card_number)) self.

(** A decoded value as the Python value handed to [select_card]. *)
Definition to_value (j : Json.t) : MouseController.value :=
  match j with
  | Json.Null => MouseController.NoneValue
  | Json.Bool b => MouseController.Bool b
  | Json.Int n => MouseController.Int n
  | Json.Float x => MouseController.Float x
  | Json.Str _ | Json.Array _ | Json.Object _ => MouseController.Other
  end.

(** How [handle_command] ends. *)
Inductive outcome : Type :=
| Returned (self : t) (out : list MouseController.action)
| AttributeError.    (* command.get on a value that is not a dict *)

(** A controller method followed by
    [self.last_action_was_card_select = False]. *)
Definition call_and_clear (m : MouseController.method) (self : t) : outcome :=
  let '(self1, out) := call m self in
  Returned (set_last_action_was_card_select false self1) out.

Definition handle_command (self : t) (command : Json.t) : outcome :=
  match command with
  | Json.Object members =>
      match Json.get members "action" Json.Null with
      | Json.Str action =>
          if String.eqb action "select_card" then
            let card := Json.get members "card" (Json.Int 1) in
            call_and_clear (MouseController.select_card (to_value card)) self
          else if String.eqb action "cycle_card" then
            let '(self1, out) := cycle_card_select self in Returned self1 out
          else if String.eqb action "move_up" then
            call_and_clear MouseController.move_up self
          else if String.eqb action "move_down" then
            call_and_clear MouseController.move_down self
          else if String.eqb action "move_left" then
            call_and_clear MouseController.move_left self
          else if String.eqb action "move_right" then
            call_and_clear MouseController.move_right self
          else if String.eqb action "place_card" then
            call_and_clear MouseController.place_card self
          else if String.eqb action "reset" then
            call_and_clear MouseController.reset self
          else if String.eqb action "exit" then
            Returned (set_running false self) []
          else Returned self []          (* "Unknown action" *)
      | _ => Returned self []            (* "Unknown action" *)
      end
  | _ => AttributeError
  end.

Definition on_exit (self : t) : t * list MouseController.action :=
  let '(self1, out) :=
    if MouseController.mouse_pressed (controller self)
    then call MouseController.reset self
    else (self, []) in
  (set_running false self1, out).

(** The hot keys registered by [run], lines 93-103. *)
Inductive hotkey : Type :=
| key_1 | key_2 | key_3 | key_4
| key_up | key_down | key_left | key_right
| key_space | key_r | key_esc.

Definition press (k : hotkey) (self : t) : t * list MouseController.action :=
  match k with
  | key_1 => call (MouseController.select_card (MouseController.Int 1)) self
  | key_2 => call (MouseController.select_card (MouseController.Int 2)) self
  | key_3 => call (MouseController.select_card (MouseController.Int 3)) self
  | key_4 => call (MouseController.select_card (MouseController.Int 4)) self
  | key_up => call MouseController.move_up self
  | key_down => call MouseController.move_down self
  | key_left => call MouseController.move_left self
  | key_right => call MouseController.move_right self
  | key_space => call MouseController.place_card self
  | key_r => call MouseController.reset self
  | key_esc => on_exit self
  end.

End ControlServer.

(** ** [audio_client.py] *)

Module AudioClient.

(** [note_actions], a dict literal. *)
Definition note_actions : list (string * string) :=
  [ ("C", "cycle_card"); ("D", "move_up"); ("E", "move_down");
    ("F", "move_left"); ("G", "move_right"); ("A", "place_card") ]%string.

Fixpoint lookup (key : string) (d : list (string * string)) : option string :=
  match d with
  | [] => None
  | (k, v) :: rest => if String.eqb k key then Some v else lookup key rest
  end.

Record t : Type := {
  socket : bool;      (* self.socket is set *)
  running : bool
}.

(** How [sendall] ends. *)
Inductive sendall_outcome : Type :=
| sent
| connection_lost.    (* BrokenPipeError or ConnectionResetError *)

(** [send_command(action)] without keyword arguments: the updated client and
    the commands that reached the server, as [json.loads] decodes them. *)
Definition send_command (action : string) (network : sendall_outcome) (self : t)
  : t * list Json.t :=
  if negb (socket self) then (self, [])
  else
    match network with
    | sent => (self, [Json.Object [("action"%string, Json.Str action)]])
    | connection_lost => ({| socket := socket self; running := false |}, [])
    end.

Definition on_note_detected (note : string) (network : sendall_outcome) (self : t)
  : t * list Json.t :=
  match lookup note note_actions with
  | Some action => send_command action network self
  | None => (self, [])       (* "Unknown note" *)
  end.

End AudioClient.

(** ** Vocabulary for the controller and the server *)

(** The public methods of the controller, as calls. *)
Inductive controller_call : Type :=
| call_select_card (card_number : MouseController.value)
| call_move_up
| call_move_down
| call_move_left
| call_move_right
| call_place_card
| call_reset.

Definition invoke (c : controller_call) : MouseController.method :=
  match c with
  | call_select_card v => MouseController.select_card v
  | call_move_up => MouseController.move_up
  | call_move_down => MouseController.move_down
  | call_move_left => MouseController.move_left
  | call_move_right => MouseController.move_right
  | call_place_card => MouseController.place_card
  | call_reset => MouseController.reset
  end.

Fixpoint invoke_all (calls : list controller_call) : MouseController.method :=
  match calls with
  | [] => MouseController.skip
  | c :: rest => MouseController.andthen (invoke c) (invoke_all rest)
  end.

(** The attributes agree with each other: a card is recorded exactly when the
    controller is not idle, and the button is recorded as pressed exactly
    while placing. *)
Definition consistent (self : MouseController.t) : Prop :=
  (MouseController.state self = MouseController.IDLE
   <-> MouseController.current_card self = None)
  /\ (MouseController.mouse_pressed self = true
      <-> MouseController.state self = MouseController.PLACING).

(** The displacement asked of the mouse by some actions. *)
Fixpoint asked_dx (out : list MouseController.action) : Z :=
  match out with
  | [] => 0
  | MouseController.mouse_move dx _ :: rest => dx + asked_dx rest
  | _ :: rest => asked_dx rest
  end%Z.

Fixpoint asked_dy (out : list MouseController.action) : Z :=
  match out with
  | [] => 0
  | MouseController.mouse_move _ dy :: rest => dy + asked_dy rest
  | _ :: rest => asked_dy rest
  end%Z.

(** Whether the button is held after some actions. *)
Fixpoint held_after (held : bool) (out : list MouseController.action) : bool :=
  match out with
  | [] => held
  | MouseController.mouse_down :: rest => held_after true rest
  | MouseController.mouse_up :: rest => held_after false rest
  | _ :: rest => held_after held rest
  end.

(** A call whose displacement the controller keeps track of: anything but
    [reset], and but a selection made while a card is selected or being
    placed (which resets first). *)
Definition tracked (c : controller_call) (self : MouseController.t) : bool :=
  match c with
  | call_reset => false
  | call_select_card v =>
      match MouseController.card_key v with
      | Some _ => MouseController.is_idle self
      | None => true
      end
  | _ => true
  end.

Fixpoint all_tracked (calls : list controller_call) (self : MouseController.t)
  : bool :=
  match calls with
  | [] => true
  | c :: rest =>
      tracked c self && all_tracked rest (fst (invoke c self))
  end.

(** The four moves. *)
Definition is_move (c : controller_call) : bool :=
  match c with
  | call_move_up | call_move_down | call_move_left | call_move_right => true
  | _ => false
  end.

(** The command [{"action": action}], as the audio client sends it. *)
Definition action_command (action : string) : Json.t :=
  Json.Object [("action"%string, Json.Str action)].

(** The actions [handle_command] knows. *)
Definition known_actions : list string :=
  [ "select_card"; "cycle_card"; "move_up"; "move_down"; "move_left";
    "move_right"; "place_card"; "reset"; "exit" ]%string.

(** What reaches the server: a decoded command or a hot key. *)
Inductive server_input : Type :=
| command (c : Json.t)
| key (k : ControlServer.hotkey).

Definition server_step (self : ControlServer.t) (i : server_input)
  : ControlServer.outcome :=
  match i with
  | command c => ControlServer.handle_command self c
  | key k =>
      let '(self1, out) := ControlServer.press k self in
      ControlServer.Returned self1 out
  end.

(** The inputs handled in turn, until one raises. *)
Fixpoint server_run (self : ControlServer.t) (inputs : list server_input)
  : ControlServer.outcome :=
  match inputs with
  | [] => ControlServer.Returned self []
  | i :: rest =>
      match server_step self i with
      | ControlServer.Returned self1 out1 =>
          match server_run self1 rest with
          | ControlServer.Returned self2 out2 =>
              ControlServer.Returned self2 (out1 ++ out2)
          | ControlServer.AttributeError => ControlServer.AttributeError
          end
      | ControlServer.AttributeError => ControlServer.AttributeError
      end
  end.

(** The card selected by the [n]-th consecutive [cycle_card], counting from
    0. *)
Definition nth_cycled_card (n : nat) : Z := (Z.of_nat n mod 4 + 1)%Z.

(** The actions that [handle_command] follows with
    [self.last_action_was_card_select = False]. *)
Definition cycle_breaking_actions : list string :=
  [ "select_card"; "move_up"; "move_down"; "move_left"; "move_right";
    "place_card"; "reset" ]%string.

(** ** Vocabulary for the whole chain *)

(** The note names of [NOTE_RANGES]. *)
Definition note_names : list string := map fst NOTE_RANGES.

(** A note reported by the recognizer, taken by a connected client whose send
    succeeds, and what the server does with the command it receives. *)
Definition relay (note : string) (client : AudioClient.t) (server : ControlServer.t)
  : ControlServer.outcome :=
  match snd (AudioClient.on_note_detected note AudioClient.sent client) with
  | [] => ControlServer.Returned server []
  | c :: _ => ControlServer.handle_command server c
  end.

(** ** [calibrate_notes.py] *)

Module Calibrate.

Definition CHUNK_SIZE : Z := 1024.

Section GetFrequency.

Variable rfft_peak_index : list Z -> nat.

(** The calibration tool's [get_frequency]: the pair (frequency, volume),
    with a floor of 100 and no band check. *)
Definition get_frequency (audio_data : list byte) : result (option Q * Q) :=
  audio_array <- frombuffer_int16 audio_data ;;
  match audio_array with
  | [] => Raise ValueError
  | _ :: _ =>
      let volume := mean (map abs_int16 audio_array) in
      if Qltb volume 100 then Ok (None, volume)
      else
        let peak_index := rfft_peak_index audio_array in
        let frequency :=
          inject_Z (Z.of_nat peak_index * SAMPLE_RATE)
          / inject_Z (Z.of_nat (List.length audio_array)) in
        Ok (Some frequency, volume)
  end.

End GetFrequency.

(** Line 80 of [main]: [if frequency and 200 < frequency < 700], the readings
    the tool keeps ([0.0] is falsy). *)
Definition kept (frequency : option Q) : bool :=
  match frequency with
  | Some f => negb (Qeq_bool f 0) && (Qltb 200 f && Qltb f 700)
  | None => false
  end.

End Calibrate.

(** ** Vocabulary for the recognizer *)

(** The band [get_frequency] accepts. *)
Definition in_band (f : Q) : Prop := 500 <= f <= 3000.

(** The silence branch with the test against [DROPOUT_TOLERANCE] taken out,
    to be compared with [no_note_detected]. *)
Definition no_note_detected_silence_only (self : recognizer) (current_time : float)
  : recognizer * list effect :=
  match current_note self with
  | Some current =>
      let silence_duration := (current_time - last_detection_time self)%float in
      if Fgeb silence_duration SILENCE_THRESHOLD then
        let note_duration :=
          (last_detection_time self - note_start_time self)%float in
        let completed :=
          if Fgeb note_duration MIN_NOTE_DURATION
          then note_played current note_duration else [] in
        (set_current_note self None, completed)
      else (self, [])
  | None => (self, [])
  end.

(** The turns the loop thread still needs before it returns, once the flag is
    cleared: what is left of the iteration in flight (the read, then the rest
    of the body), then the test of the [while]. *)
Definition turns_left (pc : loop_pc) : nat :=
  match pc with
  | at_read => 3
  | at_body _ => 2
  | at_open => 2
  | at_while => 1
  | loop_returned => 0
  end.

(** The number of turns a schedule gives to the loop thread. *)
Fixpoint loop_moves_in (schedule : list move) : nat :=
  match schedule with
  | [] => 0
  | loop_moves _ :: rest => S (loop_moves_in rest)
  | stop_moves :: rest => loop_moves_in rest
  end.

(** The body of the iteration in flight, if any: what the loop thread can
    still run of its loop once the flag is cleared. *)
Definition iteration_in_flight (pc : loop_pc) : nat :=
  match pc with
  | at_read | at_body _ => 1
  | at_open | at_while | loop_returned => 0
  end.

(** A turn enters an iteration when the loop thread runs the test of the
    [while] and the test passes. *)
Definition enters_iteration (w : world) (m : move) : bool :=
  match m, loop w with
  | loop_moves _, at_while => running w
  | _, _ => false
  end.

(** A turn runs an iteration body when the loop thread runs lines 131-193. *)
Definition runs_body (w : world) (m : move) : bool :=
  match m, loop w with
  | loop_moves _, at_body _ => true
  | _, _ => false
  end.

(** The number of iterations the loop thread enters along a schedule. *)
Fixpoint iterations_entered (rfft_peak_index : list Z -> nat) (w : world)
    (schedule : list move) : nat :=
  match schedule with
  | [] => 0
  | m :: rest =>
      ((if enters_iteration w m then 1 else 0)
       + iterations_entered rfft_peak_index (step rfft_peak_index w m) rest)%nat
  end.

(** The number of iteration bodies the loop thread runs along a schedule. *)
Fixpoint bodies_run (rfft_peak_index : list Z -> nat) (w : world)
    (schedule : list move) : nat :=
  match schedule with
  | [] => 0
  | m :: rest =>
      ((if runs_body w m then 1 else 0)
       + bodies_run rfft_peak_index (step rfft_peak_index w m) rest)%nat
  end.

(** * Properties *)

(** ** Boolean comparisons *)

Lemma Qltb_lt (a b : Q) : Qltb a b = true <-> a < b.
Proof.
  unfold Qltb. rewrite negb_true_iff. split; intro H.
  - apply Qnot_le_lt. intro Hle. apply Qle_bool_iff in Hle. congruence.
  - destruct (Qle_bool b a) eqn:E; [|reflexivity].
    apply Qle_bool_iff in E. exfalso. apply (Qlt_not_le _ _ H E).
Qed.

Lemma Qgeb_ge (a b : Q) : Qgeb a b = true <-> b <= a.
Proof. unfold Qgeb. apply Qle_bool_iff. Qed.

Lemma Qgeb_lt (a b : Q) : Qgeb a b = false <-> a < b.
Proof.
  unfold Qgeb. split; intro H.
  - apply Qnot_le_lt. intro Hle. apply Qle_bool_iff in Hle. congruence.
  - destruct (Qle_bool b a) eqn:E; [|reflexivity].
    apply Qle_bool_iff in E. exfalso. apply (Qlt_not_le _ _ H E).
Qed.


(** ** Thresholds *)

(** The order of binary64 floats is read on their decoding [Prim2SF]. *)
Lemma SFcompare_Lt_Gt (x y : spec_float) :
  SFcompare x y = Some Lt -> SFcompare y x = Some Gt.
Proof.
  destruct x as [sx|sx| |sx mx ex], y as [sy|sy| |sy my ey]; cbn;
    try discriminate; try (destruct sx); try (destruct sy);
    try discriminate; try reflexivity.
  - rewrite (Z.compare_antisym ex ey).
    change (PosDef.Pos.compare_cont Eq my mx) with (Pos.compare my mx).
    change (PosDef.Pos.compare_cont Eq mx my) with (Pos.compare mx my).
    rewrite (Pos.compare_antisym mx my).
    destruct (ex ?= ey)%Z; cbn; try discriminate; try reflexivity.
    destruct (mx ?= my)%positive; cbn; try discriminate; reflexivity.
  - rewrite (Z.compare_antisym ex ey).
    change (PosDef.Pos.compare_cont Eq my mx) with (Pos.compare my mx).
    change (PosDef.Pos.compare_cont Eq mx my) with (Pos.compare mx my).
    rewrite (Pos.compare_antisym mx my).
    destruct (ex ?= ey)%Z; cbn; try discriminate; try reflexivity.
    destruct (mx ?= my)%positive; cbn; try discriminate; reflexivity.
Qed.

(** Whenever [a < b] holds, the test [a >= b] fails. *)
Lemma Fltb_not_geb (a b : float) : Fltb a b = true -> Fgeb a b = false.
Proof.
  unfold Fltb, Fgeb. rewrite ltb_spec, leb_spec. unfold SFltb, SFleb.
  destruct (SFcompare (Prim2SF a) (Prim2SF b)) as [[| |]|] eqn:E; try discriminate.
  intros _. rewrite (SFcompare_Lt_Gt _ _ E). reflexivity.
Qed.

(** [DROPOUT_TOLERANCE] is below [SILENCE_THRESHOLD]: a float that passes the
    test against the threshold passes the test against the tolerance. *)
Lemma Fgeb_dropout_of_silence (d : float) :
  Fgeb d SILENCE_THRESHOLD = true -> Fgeb d DROPOUT_TOLERANCE = true.
Proof.
  unfold Fgeb. rewrite !leb_spec.
  replace (Prim2SF SILENCE_THRESHOLD)
    with (S754_finite false 7205759403792794 (-56)) by (vm_compute; reflexivity).
  replace (Prim2SF DROPOUT_TOLERANCE)
    with (S754_finite false 7205759403792794 (-57)) by (vm_compute; reflexivity).
  destruct (Prim2SF d) as [sd|sd| |sd m e]; unfold SFleb, SFcompare;
    try (destruct sd); try discriminate; try reflexivity.
  destruct (Z.compare_spec (-56) e); destruct (Z.compare_spec (-57) e);
    try lia; try reflexivity; try discriminate.
Qed.

Lemma Fgeb_silence_of_not_dropout (d : float) :
  Fgeb d DROPOUT_TOLERANCE = false -> Fgeb d SILENCE_THRESHOLD = false.
Proof.
  intro H. destruct (Fgeb d SILENCE_THRESHOLD) eqn:E; [|reflexivity].
  apply Fgeb_dropout_of_silence in E. congruence.
Qed.


Lemma truthy_Some (s : string) : s <> EmptyString -> truthy (Some s) = true.
Proof.
  intro H. unfold truthy. destruct (String.eqb_spec s EmptyString); [contradiction|reflexivity].
Qed.

Lemma truthy_false (d : option string) :
  truthy d = false -> d = None \/ d = Some EmptyString.
Proof.
  destruct d as [s|]; [|now left]. unfold truthy.
  destruct (String.eqb_spec s EmptyString); [subst; now right|discriminate].
Qed.

Lemma note_boundary_absent (self : recognizer) (d : option string) (now now' : float) :
  truthy d = false -> note_boundary self d now now' = no_note_detected self now'.
Proof.
  intro H. unfold note_boundary. destruct d; [rewrite H|]; reflexivity.
Qed.

Lemma note_boundary_present (self : recognizer) (s : string) (now now' : float) :
  s <> EmptyString -> note_boundary self (Some s) now now' = note_detected self s now.
Proof.
  intro H. unfold note_boundary. rewrite (truthy_Some s H). reflexivity.
Qed.

(** ** The silence branch *)

Lemma no_note_detected_within_threshold (self : recognizer) (now' : float) :
  Fgeb (now' - last_detection_time self) SILENCE_THRESHOLD = false ->
  no_note_detected self now' = (self, []).
Proof.
  intro H. unfold no_note_detected.
  destruct (current_note self); [|reflexivity].
  rewrite H. destruct (Fgeb _ DROPOUT_TOLERANCE); reflexivity.
Qed.

Lemma no_note_detected_closes (self : recognizer) (s : string) (now' : float) :
  current_note self = Some s ->
  Fgeb (now' - last_detection_time self) SILENCE_THRESHOLD = true ->
  no_note_detected self now' =
    (set_current_note self None,
     if Fgeb (last_detection_time self - note_start_time self) MIN_NOTE_DURATION
     then note_played s (last_detection_time self - note_start_time self)
     else []).
Proof.
  intros Hc H. unfold no_note_detected. rewrite Hc.
  rewrite (Fgeb_dropout_of_silence _ H), H. reflexivity.
Qed.

(** C3: an absent classification while the note [s] is active. The silence
    and the duration are the binary64 differences the loop computes. While
    the silence is below [SILENCE_THRESHOLD] (the test [>=] fails) nothing
    happens. When it reaches the threshold the recognizer becomes idle, and
    the run is reported exactly when its duration
    [last_detection_time - note_start_time] reaches [MIN_NOTE_DURATION]: the
    print of the note with that duration, then one invocation of the callback
    with [s]. *)
Theorem absent_tick_when_active
    (self : recognizer) (s : string) (now now' : float) :
  current_note self = Some s ->
  let silence_elapsed := (now' - last_detection_time self)%float in
  let duration := (last_detection_time self - note_start_time self)%float in
  let self' := fst (note_boundary self None now now') in
  let out := snd (note_boundary self None now now') in
  (Fltb silence_elapsed SILENCE_THRESHOLD = true -> self' = self /\ out = [])
  /\ (Fgeb silence_elapsed SILENCE_THRESHOLD = false -> self' = self /\ out = [])
  /\ (Fgeb silence_elapsed SILENCE_THRESHOLD = true ->
        self' = set_current_note self None
        /\ current_note self' = None
        /\ (Fgeb duration MIN_NOTE_DURATION = true ->
              out = [print_note_played s duration; callback [PyStr s]]
              /\ callbacks out = [[PyStr s]]
              /\ notes_played out = [(s, duration)])
        /\ (Fgeb duration MIN_NOTE_DURATION = false -> out = [])).
Proof.
  intros Hc silence_elapsed duration self' out. subst self' out.
  cbn [note_boundary].
  assert (Hbelow : Fgeb silence_elapsed SILENCE_THRESHOLD = false ->
            fst (no_note_detected self now') = self
            /\ snd (no_note_detected self now') = []).
  { intro H. rewrite (no_note_detected_within_threshold self now' H). auto. }
  split; [|split].
  - intro H. apply Hbelow, Fltb_not_geb, H.
  - exact Hbelow.
  - intro H. rewrite (no_note_detected_closes self s now' Hc H). cbn [fst snd].
    fold duration. split; [reflexivity|split; [reflexivity|split]].
    + intro Hd. rewrite Hd. repeat split.
    + intro Hd. rewrite Hd. reflexivity.
Qed.

(** The theorem at "A" started at 0 and last detected at 0.051, with an
    absent tick at 0.151: the binary64 difference 0.151 - 0.051 is the float
    0.1, the note is closed and reported. *)
Lemma absent_tick_when_active_witness :
  let self :=
    set_last_detection_time (set_current_note init (Some "A"%string)) 0.051%float in
  current_note (fst (note_boundary self None 0.151%float 0.151%float)) = None
  /\ callbacks (snd (note_boundary self None 0.151%float 0.151%float))
     = [[PyStr "A"]].
Proof.
  intro self.
  destruct (absent_tick_when_active self "A" 0.151%float 0.151%float eq_refl)
    as (_ & _ & Hclose).
  destruct Hclose as (_ & Hcur & Hemit & _).
  - vm_compute. reflexivity.
  - split; [exact Hcur|].
    destruct Hemit as (_ & Hcb & _); [vm_compute; reflexivity|exact Hcb].
Defined.

(** ** The detection branch *)

Lemma note_detected_different (self : recognizer) (s s2 : string) (now : float) :
  current_note self = Some s -> s2 <> s ->
  note_detected self s2 now =
    ({| current_note := Some s2;
        last_note_time := last_note_time self;
        note_start_time := now;
        last_detection_time := now;
        last_dropout_time := last_dropout_time self;
        freq_buffer := freq_buffer self |},
     (if Fgeb (now - note_start_time self) MIN_NOTE_DURATION
      then note_played s (now - note_start_time self) else [])
     ++ [print_note_detected s2]).
Proof.
  intros Hc Hne. unfold note_detected. cbn. rewrite Hc.
  destruct (String.eqb_spec s2 s); [contradiction|]. reflexivity.
Qed.

Lemma note_detected_same (self : recognizer) (s : string) (now : float) :
  current_note self = Some s ->
  note_detected self s now = (set_last_detection_time self now, []).
Proof.
  intro Hc. unfold note_detected. cbn. rewrite Hc, String.eqb_refl. reflexivity.
Qed.

Lemma note_detected_idle (self : recognizer) (s : string) (now : float) :
  current_note self = None ->
  note_detected self s now =
    ({| current_note := Some s;
        last_note_time := last_note_time self;
        note_start_time := now;
        last_detection_time := now;
        last_dropout_time := last_dropout_time self;
        freq_buffer := freq_buffer self |},
     [print_note_detected s]).
Proof. intro Hc. unfold note_detected. cbn. rewrite Hc. reflexivity. Qed.

(** C4: a different symbol [s2] while [s] is active since [note_start_time].
    The duration is the binary64 difference [now - note_start_time]. The run
    of [s] is reported (the print of [s] with that duration, then one
    invocation of the callback with [s]) if and only if the duration reaches
    [MIN_NOTE_DURATION]: when it equals it, and not when it is below it; in
    both cases [s2] becomes the active note, started and last detected at
    [now]. *)
Theorem different_symbol_when_active
    (self : recognizer) (s s2 : string) (now now' : float) :
  current_note self = Some s ->
  s2 <> s ->
  s2 <> EmptyString ->
  let duration := (now - note_start_time self)%float in
  let self' := fst (note_boundary self (Some s2) now now') in
  let out := snd (note_boundary self (Some s2) now now') in
  (current_note self' = Some s2 /\ note_start_time self' = now
   /\ last_detection_time self' = now)
  /\ (Fgeb duration MIN_NOTE_DURATION = true ->
        out = [print_note_played s duration; callback [PyStr s];
               print_note_detected s2]
        /\ callbacks out = [[PyStr s]]
        /\ notes_played out = [(s, duration)])
  /\ (Fgeb duration MIN_NOTE_DURATION = false ->
        out = [print_note_detected s2]
        /\ callbacks out = []
        /\ notes_played out = [])
  /\ (callbacks out = [[PyStr s]] <-> Fgeb duration MIN_NOTE_DURATION = true)
  /\ (duration = MIN_NOTE_DURATION -> callbacks out = [[PyStr s]])
  /\ (Fltb duration MIN_NOTE_DURATION = true -> callbacks out = []).
Proof.
  intros Hc Hne Hnz duration self' out. subst self' out.
  rewrite (note_boundary_present self s2 now now' Hnz).
  rewrite (note_detected_different self s s2 now Hc Hne). cbn [fst snd].
  fold duration. split; [|split; [|split; [|split; [|split]]]].
  - cbn. auto.
  - intro Hd. rewrite Hd. repeat split.
  - intro Hd. rewrite Hd. repeat split.
  - destruct (Fgeb duration MIN_NOTE_DURATION); cbn; split; intro H;
      try reflexivity; discriminate.
  - intro Hd. rewrite Hd.
    replace (Fgeb MIN_NOTE_DURATION MIN_NOTE_DURATION) with true
      by (vm_compute; reflexivity).
    reflexivity.
  - intro Hd. rewrite (Fltb_not_geb _ _ Hd). reflexivity.
Qed.

(** The theorem at "A" started at 0.004 and "D" arriving at 0.054: the
    binary64 difference 0.054 - 0.004 is the float 0.05, and "A" is
    reported. *)
Lemma different_symbol_when_active_witness :
  let self :=
    set_note_start_time (set_current_note init (Some "A"%string)) 0.004%float in
  callbacks (snd (note_boundary self (Some "D"%string) 0.054%float 0.054%float))
    = [[PyStr "A"]]
  /\ current_note (fst (note_boundary self (Some "D"%string) 0.054%float 0.054%float))
    = Some "D"%string.
Proof.
  intro self.
  destruct (different_symbol_when_active self "A" "D" 0.054%float 0.054%float)
    as ((Hcur & _) & Hemit & _).
  - reflexivity.
  - discriminate.
  - discriminate.
  - split; [|exact Hcur].
    destruct Hemit as (_ & Hcb & _); [vm_compute; reflexivity|exact Hcb].
Defined.

(** C10: an absent classification while a note is active leaves
    [note_start_time] and [last_detection_time] (and every other attribute but
    [current_note]) as they were; [current_note] is either kept or reset to
    [None], and it is reset exactly when the silence, the binary64 difference
    [now' - last_detection_time], passes the test against
    [SILENCE_THRESHOLD]. *)
Theorem absent_tick_frame
    (self : recognizer) (s : string) (d : option string) (now now' : float) :
  current_note self = Some s ->
  truthy d = false ->
  let self' := fst (note_boundary self d now now') in
  note_start_time self' = note_start_time self
  /\ last_detection_time self' = last_detection_time self
  /\ last_note_time self' = last_note_time self
  /\ last_dropout_time self' = last_dropout_time self
  /\ freq_buffer self' = freq_buffer self
  /\ (current_note self' = Some s \/ current_note self' = None)
  /\ (current_note self' = None
      <-> Fgeb (now' - last_detection_time self) SILENCE_THRESHOLD = true).
Proof.
  intros Hc Hd self'. subst self'.
  rewrite (note_boundary_absent self d now now' Hd).
  unfold no_note_detected. rewrite Hc.
  destruct (Fgeb (now' - last_detection_time self) DROPOUT_TOLERANCE) eqn:Edrop.
  - destruct (Fgeb (now' - last_detection_time self) SILENCE_THRESHOLD) eqn:Esil;
      cbn [fst set_current_note current_note note_start_time last_detection_time
           last_note_time last_dropout_time freq_buffer].
    + repeat split; auto.
    + repeat split; auto.
      * rewrite Hc. discriminate.
      * discriminate.
  - rewrite (Fgeb_silence_of_not_dropout _ Edrop). cbn [fst].
    repeat split; auto.
    + rewrite Hc. discriminate.
    + discriminate.
Qed.

(** The theorem at "A" last detected at 0.051 and an absent tick at 0.151:
    the times are kept and the note is reset. *)
Lemma absent_tick_frame_witness :
  let self :=
    set_last_detection_time (set_current_note init (Some "A"%string)) 0.051%float in
  let self' := fst (note_boundary self None 0.151%float 0.151%float) in
  note_start_time self' = note_start_time self
  /\ last_detection_time self' = last_detection_time self
  /\ current_note self' = None.
Proof.
  intros self self'.
  destruct (absent_tick_frame self "A" None 0.151%float 0.151%float eq_refl eq_refl)
    as (H1 & H2 & _ & _ & _ & _ & H3).
  split; [exact H1|split; [exact H2|]].
  apply H3. vm_compute. reflexivity.
Defined.

(** ** The scripted end-to-end scenario *)

(** C1, as the code runs it: on the scripted scenario the tick at 110 ms is
    only 50 ms after the last detection, below [SILENCE_THRESHOLD], so "A" is
    not closed there; it is closed by the arrival of "B" at 200 ms, with the
    duration 200 ms measured from its start, and "B" (started at 200 ms, last
    seen at 260 ms) stays pending. *)
Theorem scripted_scenario_run :
  feed_ticks init scripted_scenario =
    ({| current_note := Some "B"%string;
        last_note_time := 0%float;
        note_start_time := 0.2%float;
        last_detection_time := 0.26%float;
        last_dropout_time := 0%float;
        freq_buffer := [] |},
     [ [print_note_detected "A"];
       [];
       [];
       note_played "A" 0.2%float ++ [print_note_detected "B"];
       [] ])
  /\ callbacks (List.concat (snd (feed_ticks init scripted_scenario))) = [[PyStr "A"]]
  /\ notes_played (List.concat (snd (feed_ticks init scripted_scenario)))
     = [("A"%string, 0.2%float)].
Proof. repeat split; vm_compute; reflexivity. Qed.

(** C1, as stated, fails: the tick at 110 ms (the third) reports no note, and
    no note of 60 ms is reported anywhere in the run. *)
Lemma scripted_scenario_not_closed_at_110ms :
  let outs := snd (feed_ticks init scripted_scenario) in
  nth 2 outs [] = []
  /\ ~ (exists d, In ("A"%string, d) (notes_played (List.concat outs))
                  /\ PrimFloat.eqb d 0.06%float = true).
Proof.
  split.
  - vm_compute. reflexivity.
  - intros (d & Hin & Hd).
    assert (E : notes_played (List.concat (snd (feed_ticks init scripted_scenario)))
                = [("A"%string, 0.2%float)]) by (vm_compute; reflexivity).
    rewrite E in Hin. destruct Hin as [Hin|[]].
    injection Hin as <-. vm_compute in Hd. discriminate.
Qed.

(** ** What the callback receives *)

Lemma callbacks_app (a b : list effect) :
  callbacks (a ++ b) = callbacks a ++ callbacks b.
Proof.
  induction a as [|e a IH]; [reflexivity|].
  destruct e; cbn; rewrite IH; reflexivity.
Qed.

Lemma notes_played_app (a b : list effect) :
  notes_played (a ++ b) = notes_played a ++ notes_played b.
Proof.
  induction a as [|e a IH]; [reflexivity|].
  destruct e; cbn; rewrite IH; reflexivity.
Qed.

Lemma no_note_detected_effects (self : recognizer) (now' : float) :
  tick_effects self (fst (no_note_detected self now')) (snd (no_note_detected self now')).
Proof.
  unfold no_note_detected. destruct (current_note self) as [s|] eqn:Hc.
  - destruct (Fgeb _ DROPOUT_TOLERANCE); [|now apply quiet_tick].
    destruct (Fgeb _ SILENCE_THRESHOLD); [|now apply quiet_tick].
    destruct (Fgeb (last_detection_time self - note_start_time self) MIN_NOTE_DURATION)
      eqn:E; [|now apply quiet_tick].
    apply closing_tick with (s := s)
      (d := (last_detection_time self - note_start_time self)%float); auto.
    cbn. discriminate.
  - now apply quiet_tick.
Qed.

Lemma note_detected_effects (self : recognizer) (s2 : string) (now : float) :
  tick_effects self (fst (note_detected self s2 now)) (snd (note_detected self s2 now)).
Proof.
  destruct (current_note self) as [s|] eqn:Hc.
  - destruct (String.eqb_spec s2 s) as [->|Hne].
    + rewrite (note_detected_same self s now Hc). now apply quiet_tick.
    + rewrite (note_detected_different self s s2 now Hc Hne). cbn [fst snd].
      destruct (Fgeb (now - note_start_time self) MIN_NOTE_DURATION) eqn:E.
      * apply closing_tick with (s := s) (d := (now - note_start_time self)%float);
          auto.
        cbn. congruence.
      * now apply quiet_tick.
  - rewrite (note_detected_idle self s2 now Hc). now apply quiet_tick.
Qed.

Lemma note_boundary_effects (self : recognizer) (d : option string) (now now' : float) :
  tick_effects self (fst (note_boundary self d now now'))
    (snd (note_boundary self d now now')).
Proof.
  unfold note_boundary. destruct d as [s|].
  - destruct (truthy (Some s)).
    + apply note_detected_effects.
    + apply no_note_detected_effects.
  - apply no_note_detected_effects.
Qed.

Lemma process_audio_iteration_effects
    (rfft_peak_index : list Z -> nat) (self : recognizer) (inp : iteration_input) :
  tick_effects self (fst (process_audio_iteration rfft_peak_index self inp))
    (snd (process_audio_iteration rfft_peak_index self inp)).
Proof.
  unfold process_audio_iteration.
  destruct (audio_data <- stream_read inp;; get_frequency rfft_peak_index audio_data)
    as [frequency|e].
  - match goal with
    | |- tick_effects _ (fst (note_boundary ?st ?d ?t ?t')) _ =>
        pose proof (note_boundary_effects st d t t') as H
    end.
    inversion H as [self' out Hcb Hnp | self' s d out Hc Hc' Hd Hcb Hnp]; subst.
    + now apply quiet_tick.
    + now apply closing_tick with (s := s) (d := d).
  - now apply quiet_tick.
Qed.

Lemma tick_effects_closes (before after : recognizer) (out : list effect) :
  tick_effects before after out ->
  (List.length (callbacks out) <= if closes_run before after then 1 else 0)%nat.
Proof.
  intros [self' o Hcb _ | self' s d o Hc Hc' _ Hcb _].
  - rewrite Hcb. cbn. lia.
  - rewrite Hcb. unfold closes_run. rewrite Hc.
    destruct (current_note self') as [s'|]; [|cbn; lia].
    destruct (String.eqb_spec s s') as [->|]; [congruence|cbn; lia].
Qed.

(** A tick that leaves the note in progress as it is closes no run. *)
Lemma closed_run_kept (before after : recognizer) (now : float) :
  current_note after = current_note before ->
  closed_run before after now = None.
Proof.
  intro H. unfold closed_run, closes_run. rewrite H.
  destruct (current_note before) as [s|]; [|reflexivity].
  rewrite String.eqb_refl. reflexivity.
Qed.

(** What one pass through the boundary logic reports: the run it closes, if
    that run is long enough, with the symbol of that run as the callback's
    only argument. *)
Lemma note_boundary_reports
    (self : recognizer) (d : option string) (now now' : float) :
  let self' := fst (note_boundary self d now now') in
  let out := snd (note_boundary self d now now') in
  notes_played out = long_enough (closed_run self self' now)
  /\ callbacks out
     = map (fun run => [PyStr (fst run)]) (long_enough (closed_run self self' now)).
Proof.
  assert (Hsilence :
    notes_played (snd (no_note_detected self now'))
    = long_enough (closed_run self (fst (no_note_detected self now')) now)
    /\ callbacks (snd (no_note_detected self now'))
       = map (fun run => [PyStr (fst run)])
           (long_enough (closed_run self (fst (no_note_detected self now')) now))).
  { unfold no_note_detected. destruct (current_note self) as [s|] eqn:Hc.
    - destruct (Fgeb _ DROPOUT_TOLERANCE);
        [|cbn [fst snd]; rewrite closed_run_kept by reflexivity; split; reflexivity].
      destruct (Fgeb _ SILENCE_THRESHOLD);
        [|cbn [fst snd]; rewrite closed_run_kept by reflexivity; split; reflexivity].
      cbn [fst snd]. unfold closed_run, closes_run. rewrite Hc.
      cbn [current_note set_current_note last_detection_time note_start_time
           long_enough].
      destruct (Fgeb _ MIN_NOTE_DURATION); split; reflexivity.
    - cbn [fst snd]. rewrite closed_run_kept by reflexivity. split; reflexivity. }
  assert (Hdetected : forall s2,
    notes_played (snd (note_detected self s2 now))
    = long_enough (closed_run self (fst (note_detected self s2 now)) now)
    /\ callbacks (snd (note_detected self s2 now))
       = map (fun run => [PyStr (fst run)])
           (long_enough (closed_run self (fst (note_detected self s2 now)) now))).
  { intro s2. destruct (current_note self) as [s|] eqn:Hc.
    - destruct (String.eqb_spec s2 s) as [->|Hne].
      + rewrite (note_detected_same self s now Hc). cbn [fst snd].
        rewrite closed_run_kept by reflexivity. split; reflexivity.
      + rewrite (note_detected_different self s s2 now Hc Hne). cbn [fst snd].
        unfold closed_run, closes_run. rewrite Hc. cbn [current_note].
        destruct (String.eqb_spec s s2) as [E|_]; [congruence|]. cbn [negb long_enough].
        rewrite notes_played_app, callbacks_app.
        destruct (Fgeb _ MIN_NOTE_DURATION); split; reflexivity.
    - rewrite (note_detected_idle self s2 now Hc). cbn [fst snd].
      unfold closed_run. rewrite Hc. split; reflexivity. }
  unfold note_boundary. destruct d as [s2|]; [|exact Hsilence].
  destruct (truthy (Some s2)); [apply Hdetected|exact Hsilence].
Qed.

Lemma process_audio_iteration_reports
    (rfft_peak_index : list Z -> nat) (self : recognizer) (inp : iteration_input) :
  let self1 := fst (process_audio_iteration rfft_peak_index self inp) in
  let out := snd (process_audio_iteration rfft_peak_index self inp) in
  notes_played out = long_enough (closed_run self self1 (clock inp))
  /\ callbacks out
     = map (fun run => [PyStr (fst run)])
         (long_enough (closed_run self self1 (clock inp))).
Proof.
  unfold process_audio_iteration.
  destruct (audio_data <- stream_read inp;; get_frequency rfft_peak_index audio_data)
    as [frequency|e].
  - exact (note_boundary_reports
             (set_freq_buffer self
                (deque_append FREQ_BUFFER_MAXLEN (freq_buffer self) frequency))
             _ (clock inp) (clock_silence inp)).
  - cbn [handle_exception fst snd]. rewrite closed_run_kept by reflexivity.
    split; reflexivity.
Qed.

Lemma long_enough_duration (run : option (string * float)) (s : string) (d : float) :
  In (s, d) (long_enough run) -> Fgeb d MIN_NOTE_DURATION = true.
Proof.
  destruct run as [[s0 d0]|]; [|intros []]. cbn [long_enough].
  destruct (Fgeb d0 MIN_NOTE_DURATION) eqn:E; [|intros []].
  intros [H|[]]. injection H as <- <-. exact E.
Qed.

(** C2, as stated, fails: on ["A" at 0, "B" at 200 ms] the loop reports the
    note "A" with the duration 200 ms, and the callback is invoked with the one
    argument "A"; the duration is not among its arguments. *)
Lemma callback_not_given_duration :
  let out := List.concat (snd (feed_ticks init one_closed_note)) in
  notes_played out = [("A"%string, 0.2%float)]
  /\ callbacks out = [[PyStr "A"]]
  /\ ~ delivers_symbol_and_duration out.
Proof.
  split; [vm_compute; reflexivity|]. split; [vm_compute; reflexivity|].
  intro H. specialize (H "A"%string 0.2%float).
  assert (Hin : In ("A"%string, 0.2%float)
                  (notes_played (List.concat (snd (feed_ticks init one_closed_note)))))
    by (vm_compute; left; reflexivity).
  apply H in Hin. vm_compute in Hin. destruct Hin as [Hin|[]]. discriminate.
Qed.

(** C2, as the code has it. Along any run of the loop, from any state, the
    invocations of the callback are exactly, in order, the closed runs whose
    duration reaches [MIN_NOTE_DURATION]: each such run is reported by the
    tick that closes it, once, with one argument, the symbol of the run that
    was closed (the note in progress before that tick, not the one arriving);
    the duration is printed, not passed. A closed run that is too short, and a
    tick that closes nothing, invoke nothing. *)
Theorem callback_receives_symbol_once
    (rfft_peak_index : list Z -> nat) (self : recognizer)
    (inputs : list iteration_input) :
  let out := snd (process_audio rfft_peak_index self inputs) in
  let runs := runs_to_report rfft_peak_index self inputs in
  callbacks out = map (fun run => [PyStr (fst run)]) runs
  /\ notes_played out = runs
  /\ (forall s d, In (s, d) runs -> Fgeb d MIN_NOTE_DURATION = true)
  /\ (List.length (callbacks out) <= runs_closed rfft_peak_index self inputs)%nat.
Proof.
  revert self. induction inputs as [|inp rest IH]; intro self.
  - cbn. repeat split; [intros s d []|lia].
  - cbn [process_audio runs_closed runs_to_report].
    pose proof (process_audio_iteration_reports rfft_peak_index self inp) as Hrep.
    pose proof (process_audio_iteration_effects rfft_peak_index self inp) as Hstep.
    pose proof (tick_effects_closes _ _ _ Hstep) as Hcount. clear Hstep.
    destruct (process_audio_iteration rfft_peak_index self inp) as [self1 out1].
    specialize (IH self1).
    destruct (process_audio rfft_peak_index self1 rest) as [self2 out2].
    cbn [fst snd] in *. destruct Hrep as [Hnp Hcb].
    destruct IH as (IHcb & IHnp & IHd & IHn).
    rewrite callbacks_app, notes_played_app, map_app, length_app.
    split; [|split; [|split]].
    + rewrite IHcb, Hcb. reflexivity.
    + rewrite IHnp, Hnp. reflexivity.
    + intros s d Hin. apply in_app_or in Hin. destruct Hin as [Hin|Hin].
      * exact (long_enough_duration _ s d Hin).
      * exact (IHd s d Hin).
    + lia.
Qed.

(** ** Dropouts inside a run *)








(** ** The frequency window *)

Lemma tl_skipn {A : Type} (k : nat) (l : list A) : tl (skipn k l) = skipn (S k) l.
Proof.
  revert l. induction k as [|k IH]; intros [|x l]; try reflexivity.
  cbn [skipn]. rewrite IH. destruct l; reflexivity.
Qed.

Lemma deque_append_last_n {A : Type} (m : nat) (h : list A) (x : A) :
  deque_append (S m) (last_n (S m) h) x = last_n (S m) (h ++ [x]).
Proof.
  unfold deque_append, last_n. rewrite length_skipn, length_app. cbn [List.length].
  destruct (Nat.leb_spec (S m) (List.length h - (List.length h - S m))) as [Hfull|Hroom].
  - rewrite tl_skipn.
    replace (List.length h + 1 - S m)%nat with (S (List.length h - S m)) by lia.
    rewrite skipn_app.
    replace (S (List.length h - S m) - List.length h)%nat with 0%nat by lia.
    reflexivity.
  - replace (List.length h - S m)%nat with 0%nat by lia.
    replace (List.length h + 1 - S m)%nat with 0%nat by lia.
    reflexivity.
Qed.

(** The deque holds the last five readings, absences included. *)
Lemma window_after_last_n (history : list (option Q)) :
  window_after history = last_n FREQ_BUFFER_MAXLEN history.
Proof.
  unfold window_after. induction history as [|f h IH] using rev_ind.
  - reflexivity.
  - rewrite fold_left_app. cbn [fold_left]. rewrite IH.
    apply deque_append_last_n.
Qed.

(** [sort_floats] sorts: its result is ordered and a rearrangement of its
    argument, so [np_median] reads the middle of the ordered values. *)
Lemma insert_sorted_perm (x : Q) (l : list Q) : Permutation (insert_sorted x l) (x :: l).
Proof.
  induction l as [|y l IH]; cbn; [apply Permutation_refl|].
  destruct (Qle_bool x y); [apply Permutation_refl|].
  apply perm_trans with (y :: x :: l); [apply perm_skip, IH | apply perm_swap].
Qed.

Lemma sort_floats_perm (l : list Q) : Permutation (sort_floats l) l.
Proof.
  induction l as [|x l IH]; cbn; [apply perm_nil|].
  apply perm_trans with (x :: sort_floats l);
    [apply insert_sorted_perm | apply perm_skip, IH].
Qed.

Lemma insert_sorted_sorted (x : Q) (l : list Q) :
  Sorted Qle l -> Sorted Qle (insert_sorted x l).
Proof.
  induction l as [|y l IH]; intro Hs; cbn.
  - repeat constructor.
  - destruct (Qle_bool x y) eqn:E.
    + constructor; [exact Hs|]. constructor. apply Qle_bool_iff. exact E.
    + assert (Hyx : y <= x).
      { apply Qlt_le_weak, Qgeb_lt. unfold Qgeb. exact E. }
      inversion Hs as [|? ? Hs' Hhd]; subst. constructor; [apply IH, Hs'|].
      destruct l as [|z l]; cbn.
      * constructor. exact Hyx.
      * destruct (Qle_bool x z); constructor; [exact Hyx|].
        inversion Hhd; assumption.
Qed.

Lemma sort_floats_sorted (l : list Q) : Sorted Qle (sort_floats l).
Proof.
  induction l as [|x l IH]; cbn; [constructor|].
  apply insert_sorted_sorted, IH.
Qed.

(** One wild reading among four consistent ones does not move the median. *)
Example np_median_rejects_outlier :
  np_median [1000; 1000; 2500; 1000; 1000] = 1000.
Proof. reflexivity. Qed.

Lemma non_none_app (a b : list (option Q)) :
  non_none (a ++ b) = non_none a ++ non_none b.
Proof.
  induction a as [|[x|] a IH]; cbn; [reflexivity|rewrite IH; reflexivity|exact IH].
Qed.

(** The values the comprehension keeps are the readings of the buffer that
    are not [None], in the order of the buffer. *)
Lemma non_none_readings (buffer : list (option Q)) :
  map Some (non_none buffer) = filter is_reading buffer.
Proof.
  induction buffer as [|[f|] rest IH]; cbn;
    [reflexivity|rewrite IH; reflexivity|exact IH].
Qed.

Lemma non_none_length (buffer : list (option Q)) :
  (List.length (non_none buffer) <= List.length buffer)%nat.
Proof. induction buffer as [|[f|] rest IH]; cbn; lia. Qed.

Lemma last_n_length {A : Type} (n : nat) (l : list A) :
  (List.length (last_n n l) <= n)%nat.
Proof. unfold last_n. rewrite length_skipn. lia. Qed.

(** C7: the stabilizer keeps the last five readings, absences included. For
    an absent reading the output is absent, whatever the window holds. For a
    present reading [f], let [present] be the readings of the window that are
    not absent, in order ([f] is the last of them, and there are at most
    five), and [sorted] these values in increasing order. With fewer than two
    present readings the output is [f] itself. With at least two, the output
    is the median: the middle value of [sorted] when their number is odd, the
    mean of its two middle values when it is even. *)
Theorem stabilizer_output_spec (history : list (option Q)) (frequency : option Q) :
  let window := last_n 5 (history ++ [frequency]) in
  deque_append FREQ_BUFFER_MAXLEN (window_after history) frequency = window
  /\ (frequency = None -> stabilizer_output history frequency = None)
  /\ (forall f : Q, frequency = Some f ->
      exists present sorted : list Q,
        map Some present = filter is_reading window
        /\ last present 0 = f
        /\ Permutation sorted present
        /\ Sorted Qle sorted
        /\ let n := List.length present in
           (1 <= n <= 5)%nat
           /\ ((n < 2)%nat -> stabilizer_output history frequency = Some f)
           /\ ((2 <= n)%nat -> Nat.odd n = true ->
               stabilizer_output history frequency = Some (nth (n / 2) sorted 0))
           /\ ((2 <= n)%nat -> Nat.even n = true ->
               stabilizer_output history frequency
               = Some ((nth (n / 2 - 1) sorted 0 + nth (n / 2) sorted 0) / 2))).
Proof.
  intro window.
  assert (Hw : deque_append FREQ_BUFFER_MAXLEN (window_after history) frequency = window).
  { rewrite window_after_last_n. apply deque_append_last_n. }
  unfold stabilizer_output. rewrite Hw.
  split; [reflexivity|]. split; [intros ->; reflexivity|].
  intros f Hf.
  assert (Hlast : exists front, non_none window = front ++ [f]).
  { rewrite <- Hw, Hf. unfold deque_append.
    destruct (FREQ_BUFFER_MAXLEN <=? List.length (window_after history))%nat;
      rewrite non_none_app; eexists; reflexivity. }
  exists (non_none window), (sort_floats (non_none window)).
  split; [apply non_none_readings|].
  split; [destruct Hlast as [front ->]; apply last_last|].
  split; [apply sort_floats_perm|]. split; [apply sort_floats_sorted|].
  cbv zeta. split; [|split; [|split]].
  - split.
    + destruct Hlast as [front ->]. rewrite length_app. cbn. lia.
    + pose proof (non_none_length window). pose proof (last_n_length 5 (history ++ [frequency])).
      fold window in H0. lia.
  - intro Hlen. rewrite Hf. cbn [stable_frequency_of].
    destruct (Nat.leb_spec 2 (List.length (non_none window))); [lia|reflexivity].
  - intros Hlen Hodd. rewrite Hf. cbn [stable_frequency_of].
    destruct (Nat.leb_spec 2 (List.length (non_none window))); [|lia].
    unfold np_median. unfold Nat.odd in Hodd. apply negb_true_iff in Hodd.
    rewrite Hodd. reflexivity.
  - intros Hlen Heven. rewrite Hf. cbn [stable_frequency_of].
    destruct (Nat.leb_spec 2 (List.length (non_none window))); [|lia].
    unfold np_median. rewrite Heven. reflexivity.
Qed.

(** The theorem at the history [861, absent, 990] followed by the reading
    2500: the present values are 861, 990 and 2500, and the output is the
    middle one, 990, not the reading that arrived. *)
Lemma stabilizer_output_spec_witness :
  stabilizer_output [Some 861; None; Some 990] (Some 2500) = Some 990
  /\ exists sorted : list Q,
       Permutation sorted [861; 990; 2500]
       /\ Sorted Qle sorted
       /\ Some 990 = Some (nth 1 sorted 0).
Proof.
  assert (E : stabilizer_output [Some 861; None; Some 990] (Some 2500) = Some 990)
    by (vm_compute; reflexivity).
  split; [exact E|].
  destruct (stabilizer_output_spec [Some 861; None; Some 990] (Some 2500))
    as (_ & _ & H).
  destruct (H 2500 eq_refl)
    as (present & sorted & Hp & _ & Hperm & Hsorted & _ & _ & Hodd & _).
  assert (Ep : present = [861; 990; 2500]).
  { vm_compute in Hp.
    destruct present as [|a [|b [|c [|x rest]]]]; try discriminate Hp.
    injection Hp as -> -> ->. reflexivity. }
  subst present. exists sorted.
  split; [exact Hperm|split; [exact Hsorted|]].
  exact (eq_trans (eq_sym E) (Hodd ltac:(cbn; lia) eq_refl)).
Defined.

(** ** The classifier *)

Lemma in_range_iff (f : Q) (low high : Z) :
  in_range f (low, high) = true <-> inject_Z low <= f <= inject_Z high.
Proof.
  unfold in_range. rewrite andb_true_iff, !Qle_bool_iff. reflexivity.
Qed.

Lemma first_match_In (ranges : list (string * (Z * Z))) (f : Q) (note : string) :
  first_match ranges f = Some note ->
  exists range, In (note, range) ranges /\ in_range f range = true.
Proof.
  induction ranges as [|[n r] rest IH]; cbn [first_match]; [discriminate|].
  destruct (in_range f r) eqn:E.
  - intro H. injection H as <-. exists r. split; [now left|exact E].
  - intro H. destruct (IH H) as (range & Hin & Hr).
    exists range. split; [now right|exact Hr].
Qed.

Lemma first_match_None (ranges : list (string * (Z * Z))) (f : Q) :
  first_match ranges f = None <->
  (forall note range, In (note, range) ranges -> in_range f range = false).
Proof.
  induction ranges as [|[n r] rest IH]; cbn [first_match].
  - split; [intros _ note range []|reflexivity].
  - destruct (in_range f r) eqn:E.
    + split; [discriminate|]. intro H. specialize (H n r (or_introl eq_refl)).
      congruence.
    + rewrite IH. split.
      * intros H note range [Heq|Hin]; [injection Heq as <- <-; exact E|].
        exact (H note range Hin).
      * intros H note range Hin. apply (H note range). now right.
Qed.

(** The intervals of [NOTE_RANGES] do not overlap: a frequency lies in the
    interval of at most one note. *)
Lemma NOTE_RANGES_disjoint (f : Q) (n1 n2 : string) (r1 r2 : Z * Z) :
  In (n1, r1) NOTE_RANGES -> In (n2, r2) NOTE_RANGES ->
  in_range f r1 = true -> in_range f r2 = true -> n1 = n2.
Proof.
  intros H1 H2 E1 E2. cbn in H1, H2.
  repeat match goal with
         | H : _ \/ _ |- _ => destruct H as [H|H]
         | H : False |- _ => destruct H
         | H : (_, _) = (_, _) |- _ => injection H as <- <-
         end;
    try reflexivity;
    apply in_range_iff in E1; apply in_range_iff in E2;
    unfold inject_Z in E1, E2; exfalso; lra.
Qed.

(** C8: an absent frequency is classified as none; a frequency inside an
    interval of the table, bounds included, is classified as that interval's
    note; a frequency inside no interval is classified as none. *)
Theorem frequency_to_note_spec :
  frequency_to_note None = None
  /\ (forall (f : Q) (note : string) (low high : Z),
        In (note, (low, high)) NOTE_RANGES ->
        inject_Z low <= f <= inject_Z high ->
        frequency_to_note (Some f) = Some note)
  /\ (forall f : Q,
        (forall (note : string) (low high : Z),
           In (note, (low, high)) NOTE_RANGES ->
           ~ (inject_Z low <= f <= inject_Z high)) ->
        frequency_to_note (Some f) = None).
Proof.
  split; [reflexivity|]. split.
  - intros f note low high Hin Hf. cbn [frequency_to_note].
    apply in_range_iff in Hf.
    destruct (first_match NOTE_RANGES f) as [note'|] eqn:E.
    + destruct (first_match_In _ _ _ E) as (range & Hin' & Hr).
      f_equal. exact (NOTE_RANGES_disjoint f note' note range (low, high) Hin' Hin Hr Hf).
    + rewrite first_match_None in E. rewrite (E note (low, high) Hin) in Hf.
      discriminate.
  - intros f Hgap. cbn [frequency_to_note]. apply first_match_None.
    intros note [low high] Hin.
    destruct (in_range f (low, high)) eqn:E; [|reflexivity].
    apply in_range_iff in E. exfalso. exact (Hgap note low high Hin E).
Qed.

(** The theorem at both bounds of "A" (800 and 881 Hz) and in the gap
    between "C" and "A" (795 Hz). *)
Lemma frequency_to_note_spec_witness :
  frequency_to_note (Some 800) = Some "A"%string
  /\ frequency_to_note (Some 881) = Some "A"%string
  /\ frequency_to_note (Some 795) = None.
Proof.
  destruct frequency_to_note_spec as (_ & Hin & Hgap).
  split; [|split].
  - apply (Hin 800 "A"%string 800%Z 881%Z).
    + cbn. tauto.
    + unfold inject_Z. split; lra.
  - apply (Hin 881 "A"%string 800%Z 881%Z).
    + cbn. tauto.
    + unfold inject_Z. split; lra.
  - apply Hgap. intros note low high H. cbn in H.
    repeat match goal with
           | H : _ \/ _ |- _ => destruct H as [H|H]
           | H : False |- _ => destruct H
           | H : (_, _) = (_, _) |- _ => injection H as <- <- <-
           end;
      unfold inject_Z; lra.
Defined.

(** ** The frequency estimator *)

Lemma int16_of_bytes_range (lo hi : byte) :
  (-32768 <= int16_of_bytes lo hi <= 32767)%Z.
Proof.
  unfold int16_of_bytes.
  pose proof (Byte.to_N_bounded lo) as Hlo. pose proof (Byte.to_N_bounded hi) as Hhi.
  destruct (Z.ltb_spec (Z.of_N (to_N lo) + 256 * Z.of_N (to_N hi)) 32768); lia.
Qed.

Lemma frombuffer_int16_range (audio_data : list byte) :
  forall audio_array, frombuffer_int16 audio_data = Ok audio_array ->
  Forall (fun x => (-32768 <= x <= 32767)%Z) audio_array.
Proof.
  assert (Hboth :
    (forall a, frombuffer_int16 audio_data = Ok a ->
       Forall (fun x => (-32768 <= x <= 32767)%Z) a)
    /\ (forall b a, frombuffer_int16 (b :: audio_data) = Ok a ->
          Forall (fun x => (-32768 <= x <= 32767)%Z) a)).
  { induction audio_data as [|hi rest [IH0 IH1]].
    - split; [intros a H; injection H as <-; constructor|].
      intros b a H. discriminate.
    - split; [apply IH1|].
      intros lo a H. cbn [frombuffer_int16] in H.
      destruct (frombuffer_int16 rest) as [a'|e] eqn:E; [|discriminate].
      injection H as <-. constructor; [apply int16_of_bytes_range|].
      apply IH0. reflexivity. }
  exact (proj1 Hboth).
Qed.

Lemma abs_int16_le (x : Z) : (abs_int16 x <= Z.abs x)%Z.
Proof. unfold abs_int16. destruct (Z.ltb_spec (Z.abs x) 32768); lia. Qed.

Lemma abs_int16_exact (x : Z) :
  (-32768 < x <= 32767)%Z -> abs_int16 x = Z.abs x.
Proof. intro H. unfold abs_int16. destruct (Z.ltb_spec (Z.abs x) 32768); lia. Qed.

Lemma sumZ_abs_int16_le (l : list Z) :
  (sumZ (map abs_int16 l) <= sumZ (map Z.abs l))%Z.
Proof.
  induction l as [|x l IH]; [cbn; lia|]. unfold sumZ in *. cbn [map fold_right].
  pose proof (abs_int16_le x). lia.
Qed.

Lemma mean_le (l1 l2 : list Z) :
  List.length l1 = List.length l2 -> (sumZ l1 <= sumZ l2)%Z -> mean l1 <= mean l2.
Proof.
  intros Hlen Hsum. unfold mean. rewrite Hlen. unfold Qdiv.
  apply Qmult_le_compat_r.
  - rewrite <- Zle_Qle. exact Hsum.
  - apply Qinv_le_0_compat. replace 0 with (inject_Z 0) by reflexivity.
    rewrite <- Zle_Qle. lia.
Qed.

(** For every block below the volume floor the estimate is absent. *)
Lemma get_frequency_quiet (rfft_peak_index : list Z -> nat)
    (audio_data : list byte) (audio_array : list Z) :
  frombuffer_int16 audio_data = Ok audio_array ->
  audio_array <> [] ->
  mean_abs_magnitude audio_array < 200 ->
  get_frequency rfft_peak_index audio_data = Ok None.
Proof.
  intros Hbuf Hne Hquiet. unfold get_frequency. rewrite Hbuf. cbn [bind].
  destruct audio_array as [|x l]; [congruence|].
  assert (Hv : Qltb (mean (map abs_int16 (x :: l))) 200 = true).
  { apply Qltb_lt. apply Qle_lt_trans with (mean_abs_magnitude (x :: l)); [|exact Hquiet].
    apply mean_le; [rewrite !length_map; reflexivity|apply sumZ_abs_int16_le]. }
  rewrite Hv. reflexivity.
Qed.

(** On blocks without a sample at -32768 the estimator is the one of the
    specification. *)
Lemma get_frequency_unsaturated (rfft_peak_index : list Z -> nat)
    (audio_data : list byte) (audio_array : list Z) :
  frombuffer_int16 audio_data = Ok audio_array ->
  audio_array <> [] ->
  Forall (fun x => x <> (-32768)%Z) audio_array ->
  get_frequency rfft_peak_index audio_data
  = Ok (frequency_estimate_spec rfft_peak_index audio_array).
Proof.
  intros Hbuf Hne Hsat. unfold get_frequency. rewrite Hbuf. cbn [bind].
  pose proof (frombuffer_int16_range _ _ Hbuf) as Hrange.
  assert (Hmap : map abs_int16 audio_array = map Z.abs audio_array).
  { apply map_ext_in. intros x Hx. apply abs_int16_exact.
    rewrite Forall_forall in Hrange, Hsat.
    pose proof (Hrange x Hx). pose proof (Hsat x Hx). lia. }
  destruct audio_array as [|x l]; [congruence|].
  rewrite Hmap. unfold frequency_estimate_spec, mean_abs_magnitude.
  destruct (Qltb (mean (map Z.abs (x :: l))) 200); [reflexivity|].
  match goal with |- context [if ?c then _ else _] => destruct c end; reflexivity.
Qed.

(** C6 at the full-scale square wave: its mean absolute magnitude is 32767.5,
    far above the floor of 200, but [np.abs] wraps the samples at -32768 and
    the volume the code computes is -0.5, so the estimate is absent whatever
    the spectrum; with the peak at the fundamental (bin 128) the specification
    gives 1378.125 Hz, inside the accepted range. *)
Theorem get_frequency_clipped_square :
  exists audio_array : list Z,
    frombuffer_int16 clipped_square_block = Ok audio_array
    /\ List.length audio_array = 4096%nat
    /\ mean_abs_magnitude audio_array == 65535 # 2
    /\ mean (map abs_int16 audio_array) == - (1 # 2)
    /\ (forall rfft_peak_index : list Z -> nat,
          get_frequency rfft_peak_index clipped_square_block = Ok None)
    /\ frequency_estimate_spec (fun _ => 128%nat) audio_array
       = Some (inject_Z (128 * SAMPLE_RATE) / inject_Z 4096)
    /\ inject_Z (128 * SAMPLE_RATE) / inject_Z 4096 == 1378125 # 1000.
Proof.
  destruct (frombuffer_int16 clipped_square_block) as [a|e] eqn:E;
    [|vm_compute in E; discriminate].
  exists a.
  assert (Ea : a = List.concat (repeat (repeat 32767%Z 16 ++ repeat (-32768)%Z 16) 128)).
  { vm_compute in E. injection E as <-. vm_compute. reflexivity. }
  split; [reflexivity|].
  split; [rewrite Ea; vm_compute; reflexivity|].
  split; [rewrite Ea; vm_compute; reflexivity|].
  split; [rewrite Ea; vm_compute; reflexivity|].
  split.
  - intro rfft_peak_index. unfold get_frequency.
    assert (E' : frombuffer_int16 clipped_square_block = Ok a) by (rewrite Ea; vm_compute; reflexivity).
    rewrite E'. cbn [bind].
    assert (Hv : Qltb (mean (map abs_int16 a)) 200 = true)
      by (rewrite Ea; vm_compute; reflexivity).
    destruct a as [|x l]; [discriminate|]. rewrite Hv. reflexivity.
  - split; [rewrite Ea; vm_compute; reflexivity|vm_compute; reflexivity].
Qed.

(** ** [stop] and the thread of the loop *)

Lemma run_app (rfft_peak_index : list Z -> nat) (w : world) (a b : list move) :
  run rfft_peak_index w (a ++ b) = run rfft_peak_index (run rfft_peak_index w a) b.
Proof. unfold run. apply fold_left_app. Qed.

Lemma run_cons (rfft_peak_index : list Z -> nat) (w : world) (m : move)
    (rest : list move) :
  run rfft_peak_index w (m :: rest)
  = run rfft_peak_index (step rfft_peak_index w m) rest.
Proof. reflexivity. Qed.

Lemma loop_effects_map (out : list effect) : loop_effects (map loop_did out) = out.
Proof. induction out as [|e out IH]; cbn; [|rewrite IH]; reflexivity. Qed.

Lemma loop_effects_app (a b : list event) :
  loop_effects (a ++ b) = loop_effects a ++ loop_effects b.
Proof.
  induction a as [|e a IH]; [reflexivity|].
  destruct e; cbn; rewrite IH; reflexivity.
Qed.

Lemma process_audio_iteration_one_callback
    (rfft_peak_index : list Z -> nat) (self : recognizer) (inp : iteration_input) :
  (List.length (callbacks (snd (process_audio_iteration rfft_peak_index self inp))) <= 1)%nat.
Proof.
  destruct (process_audio_iteration_effects rfft_peak_index self inp)
    as [? ? Hcb _ | ? ? ? ? _ _ _ Hcb _]; rewrite Hcb; cbn; lia.
Qed.

(** One turn of either thread, once [stop] has returned with the flag
    cleared. *)
Lemma step_after_stop (rfft_peak_index : list Z -> nat) (w : world) (m : move) :
  stopper w = stop_returned -> running w = false ->
  exists new,
    log (step rfft_peak_index w m) = log w ++ new
    /\ stopper (step rfft_peak_index w m) = stop_returned
    /\ running (step rfft_peak_index w m) = false
    /\ (List.length (callbacks (loop_effects new))
        + pending_callbacks (loop (step rfft_peak_index w m))
        <= pending_callbacks (loop w))%nat.
Proof.
  intros Hs Hr. destruct m as [env|].
  - cbn [step]. unfold loop_step. destruct (loop w) as [| | |audio|] eqn:Hl.
    + exists []. destruct (open_succeeds env); cbn; rewrite app_nil_r; auto.
    + exists []. rewrite Hr. cbn. rewrite app_nil_r. auto.
    + exists []. cbn. rewrite app_nil_r. auto.
    + pose proof (process_audio_iteration_one_callback rfft_peak_index (self_ w)
                    {| stream_read := audio; clock := time_151 env;
                       clock_silence := time_176 env |}) as H1.
      destruct (process_audio_iteration _ _ _) as [self1 out].
      exists (map loop_did out). cbn in *. rewrite loop_effects_map.
      repeat split; auto. lia.
    + exists []. rewrite app_nil_r, Hl. cbn. auto.
  - cbn [step]. unfold stop_step. rewrite Hs. exists [].
    rewrite app_nil_r. auto.
Qed.

Lemma run_after_stop (rfft_peak_index : list Z -> nat) (schedule : list move) :
  forall w : world,
  stopper w = stop_returned -> running w = false ->
  exists new,
    log (run rfft_peak_index w schedule) = log w ++ new
    /\ (List.length (callbacks (loop_effects new)) <= pending_callbacks (loop w))%nat.
Proof.
  induction schedule as [|m rest IH]; intros w Hs Hr.
  - exists []. cbn. rewrite app_nil_r. split; [reflexivity|lia].
  - destruct (step_after_stop rfft_peak_index w m Hs Hr) as (new1 & Hlog & Hs' & Hr' & Hn).
    destruct (IH _ Hs' Hr') as (new2 & Hlog2 & Hn2).
    exists (new1 ++ new2). rewrite run_cons, Hlog2, Hlog, app_assoc.
    split; [reflexivity|].
    rewrite loop_effects_app, callbacks_app, length_app. lia.
Qed.

Lemma step_releasing (rfft_peak_index : list Z -> nat) (w : world) (m : move) :
  releasing w -> releasing (step rfft_peak_index w m).
Proof.
  unfold releasing. intros [Hl H]. destruct m as [env|].
  - cbn [step]. unfold loop_step. destruct (loop w) as [| | |audio|] eqn:El.
    + congruence.
    + cbn. split; [destruct (running w); discriminate|exact H].
    + cbn. split; [discriminate|exact H].
    + destruct (process_audio_iteration _ _ _) as [self1 out]. cbn.
      split; [discriminate|exact H].
    + rewrite El. split; [discriminate|exact H].
  - cbn [step]. unfold stop_step. destruct (stopper w) eqn:Es.
    + destruct H as [Hr Hst]. rewrite Hr. cbn. auto.
    + cbn. auto.
    + destruct H as [Hr Hst]. cbn. split; [exact Hl|].
      destruct (stream w); [congruence|exact Hr..].
    + cbn. auto.
    + cbn. auto.
    + cbn. auto.
    + rewrite Es. auto.
Qed.

Lemma run_releasing (rfft_peak_index : list Z -> nat) (schedule : list move) :
  forall w : world, releasing w -> releasing (run rfft_peak_index w schedule).
Proof.
  induction schedule as [|m rest IH]; intros w H; [exact H|].
  rewrite run_cons. apply IH, step_releasing, H.
Qed.

(** From [start()] on, the flag is cleared whenever [stop] has returned, and
    the thread is past the opening of the stream whenever there is one. *)
Lemma run_started (rfft_peak_index : list Z -> nat) (schedule : list move) :
  let w := run rfft_peak_index started schedule in
  (stopper w = stop_returned -> running w = false)
  /\ (stream w <> no_stream -> loop w <> at_open).
Proof.
  set (inv := fun w : world =>
    match stopper w with
    | stop_not_called | stop_clear_flag => True
    | stop_stop_stream | stop_close => running w = false /\ stream w <> no_stream
    | _ => running w = false
    end /\ (stream w <> no_stream -> loop w <> at_open)).
  assert (Hstep : forall w m, inv w -> inv (step rfft_peak_index w m)).
  { intros w m [H Hl]. unfold inv. destruct m as [env|].
    - cbn [step]. unfold loop_step. destruct (loop w) as [| | |audio|] eqn:El.
      + destruct (open_succeeds env); cbn.
        * split; [|discriminate].
          destruct (stopper w); try exact H; destruct H; split; congruence.
        * split; [|discriminate].
          destruct (stopper w); try exact I; try reflexivity;
            destruct H; split; auto.
      + cbn. split; [exact H|]. intros _. destruct (running w); discriminate.
      + cbn. split; [exact H|]. discriminate.
      + destruct (process_audio_iteration _ _ _) as [self1 out]. cbn.
        split; [exact H|]. discriminate.
      + rewrite El. auto.
    - cbn [step]. unfold stop_step. destruct (stopper w) eqn:Es.
      + destruct (running w) eqn:Er; cbn; auto.
      + cbn. auto.
      + cbn. split; [|exact Hl].
        destruct (stream w); [exact H|split; [exact H|discriminate]..].
      + cbn. destruct H as [Hr Hst]. split; [split; [exact Hr|discriminate]|].
        intros _. apply Hl, Hst.
      + cbn. destruct H as [Hr Hst]. split; [exact Hr|].
        intros _. apply Hl, Hst.
      + cbn. auto.
      + rewrite Es. auto. }
  assert (Hrun : forall sched w, inv w -> inv (run rfft_peak_index w sched)).
  { induction sched as [|m rest IH]; intros w H; [exact H|].
    rewrite run_cons. apply IH, Hstep, H. }
  assert (H0 : inv started) by (unfold inv; cbn; split; [exact I|congruence]).
  intro w. destruct (Hrun schedule started H0) as [H Hl]. fold w in H, Hl.
  split; [|exact Hl]. intro Hs. rewrite Hs in H. exact H.
Qed.

(** A note is in progress after the warm-up. *)
Lemma warm_up_playing :
  let w := run peak_at_bin_80 started warm_up in
  current_note (self_ w) = Some "A"%string
  /\ note_start_time (self_ w) = 0%float
  /\ last_detection_time (self_ w) = 0.1%float
  /\ running w = true /\ stream w = stream_open
  /\ loop w = at_while /\ stopper w = stop_not_called.
Proof. vm_compute. repeat split. Qed.

(** C9, as stated, fails. With the note "A" in progress, [stop()] called
    while the loop is inside an iteration returns, with the stream closed,
    before the loop reports the note: the callback is invoked after the
    return. And when [stop()] runs before the thread has opened the stream it
    finds no stream to close: the thread then opens it and leaves it open. *)
Lemma callback_after_stop_returned :
  (let w := run peak_at_bin_80 started (warm_up ++ stop_during_iteration) in
   log w = [ loop_did (print_note_detected "A");
             stop_returns;
             loop_did (print_note_played "A" 0.1%float);
             loop_did (callback [PyStr "A"]) ]
   /\ callbacks (loop_effects (after_stop (log w))) = [[PyStr "A"]])
  /\ (let w := run peak_at_bin_80 started stop_before_open in
      stopper w = stop_returned /\ loop w = loop_returned
      /\ stream w = stream_open).
Proof. vm_compute. repeat split. Qed.

(** C9, as the code has it. Once [stop()] has returned (the flag is then
    cleared), the thread of the loop, which is not joined, invokes the callback
    at most once more, and not at all unless it is inside an iteration. When
    [stop()] is called on a running loop whose stream is open, the stream is
    closed and the flag cleared by the time [stop()] returns. *)
Theorem stop_does_not_join
    (rfft_peak_index : list Z -> nat) (w : world) (schedule : list move) :
  let w' := run rfft_peak_index w schedule in
  (stopper w = stop_returned -> running w = false ->
     exists new : list event,
       log w' = log w ++ new
       /\ (List.length (callbacks (loop_effects new)) <= 1)%nat
       /\ (pending_callbacks (loop w) = 0%nat -> callbacks (loop_effects new) = []))
  /\ (stopper w = stop_not_called -> running w = true ->
      stream w = stream_open -> loop w <> at_open ->
      stopper w' = stop_returned ->
      stream w' = stream_closed /\ running w' = false).
Proof.
  intro w'. split.
  - intros Hs Hr.
    destruct (run_after_stop rfft_peak_index schedule w Hs Hr) as (new & Hlog & Hn).
    exists new. split; [exact Hlog|]. split.
    + destruct (loop w); cbn in Hn; lia.
    + intro H0. rewrite H0 in Hn.
      destruct (callbacks (loop_effects new)); [reflexivity|cbn in Hn; lia].
  - intros Hs Hr Hst Hl Hs'.
    assert (Hrel : releasing w).
    { unfold releasing. rewrite Hs, Hst. split; [exact Hl|].
      split; [exact Hr|discriminate]. }
    pose proof (run_releasing rfft_peak_index schedule w Hrel) as [_ H].
    fold w' in H. rewrite Hs' in H. tauto.
Qed.

(** The theorem at the note in progress after the warm-up: [stop()] called
    during the next iteration returns with the stream closed; from the world
    it returned in, the rest of the schedule adds at most one callback
    invocation. *)
Lemma stop_does_not_join_witness :
  let w0 := run peak_at_bin_80 started warm_up in
  let w1 := run peak_at_bin_80 w0 (firstn 8 stop_during_iteration) in
  (stream w1 = stream_closed /\ running w1 = false)
  /\ exists new : list event,
       log (run peak_at_bin_80 w1 (skipn 8 stop_during_iteration)) = log w1 ++ new
       /\ (List.length (callbacks (loop_effects new)) <= 1)%nat.
Proof.
  intros w0 w1. split.
  - destruct (stop_does_not_join peak_at_bin_80 w0 (firstn 8 stop_during_iteration))
      as [_ Hrelease].
    apply Hrelease.
    + vm_compute. reflexivity.
    + vm_compute. reflexivity.
    + vm_compute. reflexivity.
    + vm_compute. discriminate.
    + vm_compute. reflexivity.
  - destruct (stop_does_not_join peak_at_bin_80 w1 (skipn 8 stop_during_iteration))
      as [Hafter _].
    destruct Hafter as (new & Hlog & Hn & _).
    + vm_compute. reflexivity.
    + vm_compute. reflexivity.
    + exists new. split; [exact Hlog|exact Hn].
Defined.

(** ** The loop body as a pipeline *)

(** A block that was read and estimated goes through the window, the
    stabilizer and the classifier, and the classification drives the boundary
    logic. *)
Lemma process_audio_iteration_ok
    (rfft_peak_index : list Z -> nat) (self : recognizer) (inp : iteration_input)
    (audio_data : list byte) (frequency : option Q) :
  stream_read inp = Ok audio_data ->
  get_frequency rfft_peak_index audio_data = Ok frequency ->
  let buffer := deque_append FREQ_BUFFER_MAXLEN (freq_buffer self) frequency in
  process_audio_iteration rfft_peak_index self inp
  = note_boundary (set_freq_buffer self buffer)
      (frequency_to_note (stable_frequency_of buffer frequency))
      (clock inp) (clock_silence inp).
Proof.
  intros Hread Hfreq buffer. unfold process_audio_iteration.
  rewrite Hread. cbn [bind]. rewrite Hfreq. reflexivity.
Qed.

(** A failed read skips the iteration: the recognizer, its window included, is
    left as it was. *)
Lemma process_audio_iteration_read_error
    (rfft_peak_index : list Z -> nat) (self : recognizer) (inp : iteration_input)
    (e : exn) :
  stream_read inp = Raise e ->
  process_audio_iteration rfft_peak_index self inp = (self, [print_error e; sleep]).
Proof.
  intro Hread. unfold process_audio_iteration. rewrite Hread. reflexivity.
Qed.

(** The boundary logic does not touch the frequency window. *)
Lemma note_boundary_freq_buffer
    (self : recognizer) (d : option string) (now now' : float) :
  freq_buffer (fst (note_boundary self d now now')) = freq_buffer self.
Proof.
  unfold note_boundary, note_detected, no_note_detected.
  destruct d as [s|]; [destruct (truthy (Some s))|];
    cbn [set_last_detection_time current_note];
    destruct (current_note self);
    repeat match goal with
           | |- context [if ?c then _ else _] => destruct c
           end; reflexivity.
Qed.

(** * The virtual mouse *)

Lemma total_x_app (a b : list VirtualMouse.event) :
  VirtualMouse.total_x (a ++ b)
  = (VirtualMouse.total_x a + VirtualMouse.total_x b)%Z.
Proof.
  induction a as [|e a IH]; [reflexivity|].
  destruct e; cbn [app VirtualMouse.total_x]; rewrite IH; lia.
Qed.

Lemma total_y_app (a b : list VirtualMouse.event) :
  VirtualMouse.total_y (a ++ b)
  = (VirtualMouse.total_y a + VirtualMouse.total_y b)%Z.
Proof.
  induction a as [|e a IH]; [reflexivity|].
  destruct e; cbn [app VirtualMouse.total_y]; rewrite IH; lia.
Qed.

Lemma reports_app (a b : list VirtualMouse.event) :
  VirtualMouse.reports (a ++ b)
  = (VirtualMouse.reports a + VirtualMouse.reports b)%nat.
Proof.
  induction a as [|e a IH]; [reflexivity|].
  destruct e; cbn [app VirtualMouse.reports]; rewrite IH; lia.
Qed.

Lemma left_held_app (held : bool) (a b : list VirtualMouse.event) :
  VirtualMouse.left_held held (a ++ b)
  = VirtualMouse.left_held (VirtualMouse.left_held held a) b.
Proof.
  revert held. induction a as [|e a IH]; intro held; [reflexivity|].
  destruct e as [| |[| |]| |]; cbn [app VirtualMouse.left_held]; apply IH.
Qed.

Lemma steps_of_pos (dx dy : Z) : (1 <= VirtualMouse.steps_of dx dy)%Z.
Proof.
  unfold VirtualMouse.steps_of.
  assert (0 <= Z.max (Z.abs dx) (Z.abs dy) / 10)%Z by (apply Z.div_pos; lia).
  lia.
Qed.

(** One pass of the loop of [move] moves the pointer by its share. *)
Lemma move_iteration_total (dx dy steps i : Z) :
  VirtualMouse.total_x (VirtualMouse.move_iteration dx dy steps i)
  = VirtualMouse.step_of dx steps i
  /\ VirtualMouse.total_y (VirtualMouse.move_iteration dx dy steps i)
     = VirtualMouse.step_of dy steps i
  /\ VirtualMouse.reports (VirtualMouse.move_iteration dx dy steps i) = 1%nat
  /\ (forall held, VirtualMouse.left_held held
                     (VirtualMouse.move_iteration dx dy steps i) = held).
Proof.
  unfold VirtualMouse.move_iteration.
  destruct (Z.eqb_spec (VirtualMouse.step_of dx steps i) 0) as [Ex|Ex];
    destruct (Z.eqb_spec (VirtualMouse.step_of dy steps i) 0) as [Ey|Ey];
    cbn; rewrite ?Ex, ?Ey; repeat split; lia.
Qed.

(** The shares of the first [m] passes, all before the last, add up to [m]
    times the floor quotient. *)
Lemma sum_of_early_steps (d steps : Z) (m : nat) :
  (Z.of_nat m <= steps - 1)%Z ->
  sumZ (map (VirtualMouse.step_of d steps) (map Z.of_nat (seq 0 m)))
  = (Z.of_nat m * (d / steps))%Z.
Proof.
  induction m as [|m IH]; intro Hm; [reflexivity|].
  rewrite seq_S, !map_app. cbn [map Nat.add].
  unfold sumZ in *. rewrite fold_right_app. cbn [fold_right].
  assert (Hfold : forall (l : list Z) (a : Z),
            fold_right Z.add a l = (fold_right Z.add 0 l + a)%Z).
  { induction l as [|x l IHl]; intro a; cbn; [lia|rewrite IHl; lia]. }
  rewrite Hfold, IH by lia.
  unfold VirtualMouse.step_of.
  destruct (Z.ltb_spec (Z.of_nat m) (steps - 1)); lia.
Qed.

Lemma sum_of_steps (d steps : Z) :
  (1 <= steps)%Z ->
  sumZ (map (VirtualMouse.step_of d steps) (VirtualMouse.range steps)) = d.
Proof.
  intro Hs. unfold VirtualMouse.range.
  destruct (Z.to_nat steps) as [|m] eqn:Em; [lia|].
  assert (Hm : Z.of_nat m = (steps - 1)%Z) by lia.
  rewrite seq_S, !map_app. cbn [map Nat.add].
  assert (Hfold : forall (l : list Z) (a : Z),
            fold_right Z.add a l = (fold_right Z.add 0 l + a)%Z).
  { induction l as [|x l IHl]; intro a; cbn; [lia|rewrite IHl; lia]. }
  unfold sumZ. rewrite fold_right_app, Hfold. cbn [fold_right].
  fold (sumZ (map (VirtualMouse.step_of d steps) (map Z.of_nat (seq 0 m)))).
  rewrite sum_of_early_steps by lia.
  unfold VirtualMouse.step_of.
  destruct (Z.ltb_spec (Z.of_nat m) (steps - 1)); lia.
Qed.

Lemma total_x_flat_map (f : Z -> list VirtualMouse.event) (l : list Z) :
  VirtualMouse.total_x (flat_map f l)
  = sumZ (map (fun i => VirtualMouse.total_x (f i)) l).
Proof.
  induction l as [|i l IH]; [reflexivity|].
  cbn [flat_map map]. rewrite total_x_app, IH. reflexivity.
Qed.

Lemma total_y_flat_map (f : Z -> list VirtualMouse.event) (l : list Z) :
  VirtualMouse.total_y (flat_map f l)
  = sumZ (map (fun i => VirtualMouse.total_y (f i)) l).
Proof.
  induction l as [|i l IH]; [reflexivity|].
  cbn [flat_map map]. rewrite total_y_app, IH. reflexivity.
Qed.

Lemma move_sums (dx dy : Z) :
  VirtualMouse.total_x (VirtualMouse.move dx dy) = dx
  /\ VirtualMouse.total_y (VirtualMouse.move dx dy) = dy.
Proof.
  unfold VirtualMouse.move. rewrite total_x_flat_map, total_y_flat_map.
  pose proof (steps_of_pos dx dy) as Hs.
  split.
  - rewrite (map_ext _ (VirtualMouse.step_of dx (VirtualMouse.steps_of dx dy)))
      by (intro i; apply move_iteration_total).
    apply sum_of_steps, Hs.
  - rewrite (map_ext _ (VirtualMouse.step_of dy (VirtualMouse.steps_of dx dy)))
      by (intro i; apply move_iteration_total).
    apply sum_of_steps, Hs.
Qed.

(** X1: [move(dx, dy)] is exact. Whatever the signs and sizes, the relative
    displacements written to the device add up to [dx] along x and to [dy]
    along y. *)
Theorem move_total_displacement (dx dy : Z) :
  VirtualMouse.total_x (VirtualMouse.move dx dy) = dx
  /\ VirtualMouse.total_y (VirtualMouse.move dx dy) = dy.
Proof. exact (move_sums dx dy). Qed.

(** X2: [move(dx, dy)] sends [max(|dx|, |dy|) // 10 + 1] reports, at least
    one even for a null displacement, never writes a null displacement and
    never touches a button. *)
Theorem move_reports (dx dy : Z) :
  Z.of_nat (VirtualMouse.reports (VirtualMouse.move dx dy))
  = (Z.max (Z.abs dx) (Z.abs dy) / 10 + 1)%Z
  /\ ~ In (VirtualMouse.write_REL_X 0) (VirtualMouse.move dx dy)
  /\ ~ In (VirtualMouse.write_REL_Y 0) (VirtualMouse.move dx dy)
  /\ (forall b v, ~ In (VirtualMouse.write_KEY b v) (VirtualMouse.move dx dy)).
Proof.
  unfold VirtualMouse.move.
  pose proof (steps_of_pos dx dy) as Hs.
  set (steps := VirtualMouse.steps_of dx dy) in *.
  split.
  - assert (H : forall l : list Z,
              VirtualMouse.reports
                (flat_map (VirtualMouse.move_iteration dx dy steps) l)
              = List.length l).
    { induction l as [|i l IH]; [reflexivity|].
      cbn [flat_map List.length]. rewrite reports_app, IH.
      destruct (move_iteration_total dx dy steps i) as (_ & _ & -> & _).
      reflexivity. }
    rewrite H. unfold VirtualMouse.range. rewrite length_map, length_seq.
    fold (VirtualMouse.steps_of dx dy). fold steps. lia.
  - assert (H : forall e i, In e (VirtualMouse.move_iteration dx dy steps i) ->
                e <> VirtualMouse.write_REL_X 0 /\ e <> VirtualMouse.write_REL_Y 0
                /\ forall b v, e <> VirtualMouse.write_KEY b v).
    { intros e i. unfold VirtualMouse.move_iteration.
      destruct (Z.eqb_spec (VirtualMouse.step_of dx steps i) 0) as [Ex|Ex];
        destruct (Z.eqb_spec (VirtualMouse.step_of dy steps i) 0) as [Ey|Ey];
        cbn; intro Hin;
        repeat match goal with
               | H : _ \/ _ |- _ => destruct H as [H|H]
               | H : False |- _ => destruct H
               end; subst e; repeat split; try discriminate; congruence. }
    repeat split.
    + intro Hin. apply in_flat_map in Hin. destruct Hin as (i & _ & Hin).
      destruct (H _ _ Hin) as (Hx & _ & _). apply Hx. reflexivity.
    + intro Hin. apply in_flat_map in Hin. destruct Hin as (i & _ & Hin).
      destruct (H _ _ Hin) as (_ & Hy & _). apply Hy. reflexivity.
    + intros b v Hin. apply in_flat_map in Hin. destruct Hin as (i & _ & Hin).
      destruct (H _ _ Hin) as (_ & _ & Hk). apply (Hk b v). reflexivity.
Qed.

(** X3: in [move(dx, dy)] every pass before the last displaces the pointer
    by the floor quotient of the displacement by the number of passes, which
    lies between -10 and 9; the last pass adds the remainder of that division
    to it, so it is the one that can be large. *)
Theorem move_step_bounds (dx dy i : Z) :
  let steps := VirtualMouse.steps_of dx dy in
  ((0 <= i < steps - 1)%Z ->
     (-10 <= VirtualMouse.step_of dx steps i <= 9)%Z
     /\ (-10 <= VirtualMouse.step_of dy steps i <= 9)%Z)
  /\ VirtualMouse.step_of dx steps (steps - 1) = (dx / steps + dx mod steps)%Z
  /\ VirtualMouse.step_of dy steps (steps - 1) = (dy / steps + dy mod steps)%Z.
Proof.
  intro steps. pose proof (steps_of_pos dx dy) as Hs. fold steps in Hs.
  assert (Hmax : (Z.max (Z.abs dx) (Z.abs dy) < 10 * steps)%Z).
  { unfold steps, VirtualMouse.steps_of.
    pose proof (Z.div_mod (Z.max (Z.abs dx) (Z.abs dy)) 10 ltac:(lia)).
    pose proof (Z.mod_pos_bound (Z.max (Z.abs dx) (Z.abs dy)) 10 ltac:(lia)).
    lia. }
  assert (Hq : forall d, (Z.abs d <= Z.max (Z.abs dx) (Z.abs dy))%Z ->
                    (-10 <= d / steps <= 9)%Z).
  { intros d Hd. split.
    - apply Z.div_le_lower_bound; lia.
    - assert (d / steps < 10)%Z; [|lia].
      apply Z.div_lt_upper_bound; lia. }
  split; [|split].
  - intros Hi. unfold VirtualMouse.step_of.
    destruct (Z.ltb_spec i (steps - 1)); [|lia].
    split; apply Hq; lia.
  - unfold VirtualMouse.step_of. rewrite Z.ltb_irrefl.
    pose proof (Z.div_mod dx steps ltac:(lia)). lia.
  - unfold VirtualMouse.step_of. rewrite Z.ltb_irrefl.
    pose proof (Z.div_mod dy steps ltac:(lia)). lia.
Qed.

(** The theorem at [move(1000, 0)]: 101 passes; pass 5 moves by 9, the last
    by 100. *)
Lemma move_step_bounds_witness :
  (-10 <= VirtualMouse.step_of 1000 (VirtualMouse.steps_of 1000 0) 5 <= 9)%Z
  /\ VirtualMouse.step_of 1000 (VirtualMouse.steps_of 1000 0)
       (VirtualMouse.steps_of 1000 0 - 1) = 100%Z.
Proof.
  destruct (move_step_bounds 1000 0 5) as (Hearly & Hlast & _).
  split.
  - apply Hearly. vm_compute. split; [discriminate|reflexivity].
  - rewrite Hlast. reflexivity.
Defined.

(** * The mouse controller *)

Lemma on_device_app (a b : list MouseController.action) :
  MouseController.on_device (a ++ b)
  = MouseController.on_device a ++ MouseController.on_device b.
Proof. unfold MouseController.on_device. apply flat_map_app. Qed.

Lemma left_held_move (held : bool) (dx dy : Z) :
  VirtualMouse.left_held held (VirtualMouse.move dx dy) = held.
Proof.
  unfold VirtualMouse.move.
  induction (VirtualMouse.range (VirtualMouse.steps_of dx dy)) as [|i l IH];
    [reflexivity|].
  cbn [flat_map]. rewrite left_held_app.
  destruct (move_iteration_total dx dy (VirtualMouse.steps_of dx dy) i)
    as (_ & _ & _ & ->).
  exact IH.
Qed.

(** The device sees what the controller asked for. *)
Lemma on_device_asked (out : list MouseController.action) :
  VirtualMouse.total_x (MouseController.on_device out) = asked_dx out
  /\ VirtualMouse.total_y (MouseController.on_device out) = asked_dy out
  /\ (forall held,
        VirtualMouse.left_held held (MouseController.on_device out)
        = held_after held out).
Proof.
  induction out as [|a out (IHx & IHy & IHh)]; [repeat split|].
  change (MouseController.on_device (a :: out))
    with (MouseController.perform a ++ MouseController.on_device out).
  rewrite total_x_app, total_y_app, IHx, IHy.
  destruct a as [dx dy| | |seconds]; cbn [MouseController.perform asked_dx asked_dy held_after].
  - destruct (move_sums dx dy) as [-> ->].
    repeat split. intro held. rewrite left_held_app, left_held_move. apply IHh.
  - repeat split. intro held. rewrite left_held_app. cbn. apply IHh.
  - repeat split. intro held. rewrite left_held_app. cbn. apply IHh.
  - repeat split. intro held. rewrite left_held_app. cbn. apply IHh.
Qed.

Lemma asked_dx_app (a b : list MouseController.action) :
  asked_dx (a ++ b) = (asked_dx a + asked_dx b)%Z.
Proof.
  induction a as [|x a IH]; [reflexivity|].
  destruct x; cbn [app asked_dx]; rewrite IH; lia.
Qed.

Lemma asked_dy_app (a b : list MouseController.action) :
  asked_dy (a ++ b) = (asked_dy a + asked_dy b)%Z.
Proof.
  induction a as [|x a IH]; [reflexivity|].
  destruct x; cbn [app asked_dy]; rewrite IH; lia.
Qed.

Lemma held_after_app (held : bool) (a b : list MouseController.action) :
  held_after held (a ++ b) = held_after (held_after held a) b.
Proof.
  revert held. induction a as [|x a IH]; intro held; [reflexivity|].
  destruct x; cbn [app held_after]; apply IH.
Qed.

Lemma card_key_Some (v : MouseController.value) (key : Z) :
  MouseController.card_key v = Some key ->
  (key = 1 \/ key = 2 \/ key = 3 \/ key = 4)%Z
  /\ MouseController.equals_int v key = true.
Proof.
  unfold MouseController.card_key. intro H. apply find_some in H.
  destruct H as [Hin Heq]. split; [|exact Heq].
  cbn in Hin. intuition lia.
Qed.

Ltac controller_unfold :=
  unfold MouseController.select_card, MouseController.place_card,
    MouseController.reset, MouseController.move_up, MouseController.move_down,
    MouseController.move_left, MouseController.move_right,
    MouseController.start_dragging, MouseController.release_if_pressed,
    MouseController.move_back, MouseController.when, MouseController.andthen,
    MouseController.do, MouseController.set_state,
    MouseController.set_current_card, MouseController.set_mouse_pressed,
    MouseController.set_relative_x, MouseController.set_relative_y,
    MouseController.is_idle, MouseController.not_idle,
    MouseController.is_card_selected, MouseController.away_from_card_1,
    MouseController.MOVE_STEP in *.

Lemma select_card_selects
    (self : MouseController.t) (card_number : MouseController.value) (key : Z) :
  MouseController.card_key card_number = Some key ->
  let self' := fst (MouseController.select_card card_number self) in
  MouseController.state self' = MouseController.CARD_SELECTED
  /\ MouseController.current_card self' = Some card_number
  /\ MouseController.mouse_pressed self' = false
  /\ MouseController.lookup key MouseController.CARD_OFFSETS
     = Some (MouseController.relative_x self', MouseController.relative_y self').
Proof.
  intros Hkey self'. subst self'.
  destruct (card_key_Some _ _ Hkey) as [Hrange _].
  unfold MouseController.select_card. rewrite Hkey.
  destruct self as [st cc mp rx ry].
  destruct Hrange as [ -> | [ -> | [ -> | -> ] ] ];
    destruct st, mp; controller_unfold; cbn;
    destruct (Z.eqb_spec rx 0), (Z.eqb_spec ry 0); subst; cbn; repeat split.
Qed.

(** X4: [select_card] with a value equal to one of 1 to 4, from any state
    whatever: the controller ends with that card selected, the button
    recorded as released, and its recorded position at the card's offset. *)
Theorem select_card_valid
    (self : MouseController.t) (card_number : MouseController.value) (key : Z) :
  MouseController.card_key card_number = Some key ->
  let self' := fst (MouseController.select_card card_number self) in
  MouseController.state self' = MouseController.CARD_SELECTED
  /\ MouseController.current_card self' = Some card_number
  /\ MouseController.mouse_pressed self' = false
  /\ MouseController.lookup key MouseController.CARD_OFFSETS
     = Some (MouseController.relative_x self', MouseController.relative_y self').
Proof. intros Hkey self'. exact (select_card_selects self card_number key Hkey). Qed.

(** The theorem at card 3 selected while card 1 is being dragged. *)
Lemma select_card_valid_witness :
  let self := fst (invoke_all [call_select_card (MouseController.Int 1); call_move_up]
                     MouseController.init) in
  let self' := fst (MouseController.select_card (MouseController.Int 3) self) in
  MouseController.state self' = MouseController.CARD_SELECTED
  /\ Some (180, 0)%Z
     = Some (MouseController.relative_x self', MouseController.relative_y self').
Proof.
  intros self self'.
  destruct (select_card_valid self (MouseController.Int 3) 3 eq_refl)
    as (Hst & _ & _ & Hoff).
  split; [exact Hst|exact Hoff].
Defined.

Lemma invoke_all_app (a b : list controller_call) (self : MouseController.t) :
  invoke_all (a ++ b) self
  = (fst (invoke_all b (fst (invoke_all a self))),
     snd (invoke_all a self) ++ snd (invoke_all b (fst (invoke_all a self)))).
Proof.
  revert self. induction a as [|c a IH]; intro self.
  - cbn. destruct (invoke_all b self). reflexivity.
  - cbn [app invoke_all]. unfold MouseController.andthen.
    destruct (invoke c self) as [self1 out1]. rewrite IH.
    destruct (invoke_all a self1) as [self2 out2]. cbn [fst snd].
    destruct (invoke_all b self2). cbn [fst snd]. rewrite app_assoc. reflexivity.
Qed.

(** One call keeps the attributes consistent and the recorded button state
    true to the device. *)
Lemma invoke_consistent (c : controller_call) (self : MouseController.t) :
  consistent self ->
  consistent (fst (invoke c self))
  /\ held_after (MouseController.mouse_pressed self) (snd (invoke c self))
     = MouseController.mouse_pressed (fst (invoke c self)).
Proof.
  unfold consistent. destruct self as [st cc mp rx ry]. cbn [MouseController.state
    MouseController.current_card MouseController.mouse_pressed].
  intros [Hidle Hpress].
  destruct c as [v| | | | | |]; cbn [invoke].
  - unfold MouseController.select_card.
    destruct (MouseController.card_key v) as [key|] eqn:Hkey.
    + destruct (card_key_Some _ _ Hkey) as [Hrange _].
      destruct Hrange as [ -> | [ -> | [ -> | -> ] ] ];
        destruct st, mp; controller_unfold; cbn;
        destruct (Z.eqb_spec rx 0), (Z.eqb_spec ry 0); cbn;
        intuition (try congruence; try discriminate).
    + cbn. intuition.
  - destruct st, mp; controller_unfold; cbn; intuition (try congruence; try discriminate).
  - destruct st, mp; controller_unfold; cbn; intuition (try congruence; try discriminate).
  - destruct st, mp; controller_unfold; cbn; intuition (try congruence; try discriminate).
  - destruct st, mp; controller_unfold; cbn; intuition (try congruence; try discriminate).
  - destruct st, mp; controller_unfold; cbn; intuition (try congruence; try discriminate).
  - destruct st, mp; controller_unfold; cbn; intuition (try congruence; try discriminate).
Qed.

Lemma invoke_all_consistent (calls : list controller_call) :
  forall self : MouseController.t,
  consistent self ->
  consistent (fst (invoke_all calls self))
  /\ held_after (MouseController.mouse_pressed self) (snd (invoke_all calls self))
     = MouseController.mouse_pressed (fst (invoke_all calls self)).
Proof.
  induction calls as [|c calls IH]; intros self Hc.
  - cbn. auto.
  - cbn [invoke_all]. unfold MouseController.andthen.
    destruct (invoke_consistent c self Hc) as [Hc1 Hh1].
    destruct (invoke c self) as [self1 out1]. cbn [fst snd] in *.
    destruct (IH self1 Hc1) as [Hc2 Hh2].
    destruct (invoke_all calls self1) as [self2 out2]. cbn [fst snd] in *.
    split; [exact Hc2|]. rewrite held_after_app, Hh1. exact Hh2.
Qed.

Lemma init_consistent : consistent MouseController.init.
Proof. unfold consistent. cbn. intuition discriminate. Qed.

(** X5: whatever methods are called on a fresh controller, in whatever
    order, a card is recorded exactly when the controller is not idle, the
    button is recorded as pressed exactly while placing, and the record of the
    button is the state of the left button of the virtual device. *)
Theorem controller_invariants (calls : list controller_call) :
  let self' := fst (invoke_all calls MouseController.init) in
  let out := snd (invoke_all calls MouseController.init) in
  (MouseController.state self' = MouseController.IDLE
   <-> MouseController.current_card self' = None)
  /\ (MouseController.mouse_pressed self' = true
      <-> MouseController.state self' = MouseController.PLACING)
  /\ VirtualMouse.left_held false (MouseController.on_device out)
     = MouseController.mouse_pressed self'.
Proof.
  intros self' out.
  destruct (invoke_all_consistent calls MouseController.init init_consistent)
    as [[Hi Hp] Hh].
  split; [exact Hi|]. split; [exact Hp|].
  destruct (on_device_asked out) as (_ & _ & Hdev). rewrite Hdev. exact Hh.
Qed.

(** The theorem's invariants after card 2 is selected, dragged and the
    controller reset. *)
Lemma controller_invariants_witness :
  let calls := [ call_select_card (MouseController.Int 2); call_move_down;
                 call_reset ] in
  VirtualMouse.left_held false
    (MouseController.on_device (snd (invoke_all calls MouseController.init)))
  = MouseController.mouse_pressed (fst (invoke_all calls MouseController.init)).
Proof.
  intro calls. destruct (controller_invariants calls) as (_ & _ & H). exact H.
Defined.

(** One tracked call: the displacement asked of the mouse is the change of
    the recorded position. *)
Lemma invoke_tracked (c : controller_call) (self : MouseController.t) :
  tracked c self = true ->
  asked_dx (snd (invoke c self))
  = (MouseController.relative_x (fst (invoke c self))
     - MouseController.relative_x self)%Z
  /\ asked_dy (snd (invoke c self))
     = (MouseController.relative_y (fst (invoke c self))
        - MouseController.relative_y self)%Z.
Proof.
  destruct self as [st cc mp rx ry].
  destruct c as [v| | | | | |]; cbn [invoke tracked]; intro Ht; try discriminate.
  - unfold MouseController.select_card.
    destruct (MouseController.card_key v) as [key|] eqn:Hkey.
    + destruct (card_key_Some _ _ Hkey) as [Hrange _].
      destruct st; try discriminate Ht.
      destruct Hrange as [ -> | [ -> | [ -> | -> ] ] ];
        destruct mp; controller_unfold;
        with_strategy opaque [Z.add Z.sub Z.opp] cbn;
        destruct (Z.eqb_spec rx 0), (Z.eqb_spec ry 0);
        with_strategy opaque [Z.add Z.sub Z.opp] cbn; lia.
    + cbn. lia.
  - destruct st, mp; controller_unfold;
      with_strategy opaque [Z.add Z.sub Z.opp] cbn; lia.
  - destruct st, mp; controller_unfold;
      with_strategy opaque [Z.add Z.sub Z.opp] cbn; lia.
  - destruct st, mp; controller_unfold;
      with_strategy opaque [Z.add Z.sub Z.opp] cbn; lia.
  - destruct st, mp; controller_unfold;
      with_strategy opaque [Z.add Z.sub Z.opp] cbn; lia.
  - destruct st, mp; controller_unfold;
      with_strategy opaque [Z.add Z.sub Z.opp] cbn; lia.
Qed.

Lemma displacement_of_tracked
    (calls : list controller_call) (self : MouseController.t) :
  all_tracked calls self = true ->
  let self' := fst (invoke_all calls self) in
  let events := MouseController.on_device (snd (invoke_all calls self)) in
  VirtualMouse.total_x events
  = (MouseController.relative_x self' - MouseController.relative_x self)%Z
  /\ VirtualMouse.total_y events
     = (MouseController.relative_y self' - MouseController.relative_y self)%Z.
Proof.
  intros Hall self' events. subst self' events.
  destruct (on_device_asked (snd (invoke_all calls self))) as (-> & -> & _).
  revert self Hall. induction calls as [|c calls IH]; intros self Hall.
  - cbn. lia.
  - cbn [all_tracked] in Hall. apply andb_true_iff in Hall. destruct Hall as [Hc Hrest].
    cbn [invoke_all]. unfold MouseController.andthen.
    destruct (invoke_tracked c self Hc) as [Hx Hy].
    destruct (invoke c self) as [self1 out1]. cbn [fst snd] in *.
    destruct (IH self1 Hrest) as [IHx IHy].
    destruct (invoke_all calls self1) as [self2 out2]. cbn [fst snd] in *.
    rewrite asked_dx_app, asked_dy_app. lia.
Qed.

(** X6: dead reckoning. Along calls that involve no [reset] (and no
    selection while a card is selected or being placed, which resets first),
    the total displacement written to the device is exactly the change of the
    recorded position [(relative_x, relative_y)]. *)
Theorem tracked_displacement
    (calls : list controller_call) (self : MouseController.t) :
  all_tracked calls self = true ->
  let self' := fst (invoke_all calls self) in
  let events := MouseController.on_device (snd (invoke_all calls self)) in
  VirtualMouse.total_x events
  = (MouseController.relative_x self' - MouseController.relative_x self)%Z
  /\ VirtualMouse.total_y events
     = (MouseController.relative_y self' - MouseController.relative_y self)%Z.
Proof. intros Hall self' events. exact (displacement_of_tracked calls self Hall). Qed.

(** The theorem at card 2 selected and dragged up twice and left once. *)
Lemma tracked_displacement_witness :
  let calls := [ call_select_card (MouseController.Int 2);
                 call_move_up; call_move_up; call_move_left ] in
  VirtualMouse.total_x
    (MouseController.on_device (snd (invoke_all calls MouseController.init)))
  = (MouseController.relative_x (fst (invoke_all calls MouseController.init)) - 0)%Z.
Proof.
  intro calls.
  destruct (tracked_displacement calls MouseController.init) as [Hx _].
  - reflexivity.
  - exact Hx.
Defined.

Lemma moves_tracked (moves : list controller_call) :
  forallb is_move moves = true ->
  forall self : MouseController.t,
  all_tracked moves self = true
  /\ (MouseController.state self <> MouseController.IDLE ->
      MouseController.state (fst (invoke_all moves self)) <> MouseController.IDLE).
Proof.
  induction moves as [|c moves IH]; intros Hm self; [cbn; auto|].
  cbn [forallb] in Hm. apply andb_true_iff in Hm. destruct Hm as [Hc Hm].
  cbn [all_tracked invoke_all]. unfold MouseController.andthen.
  destruct (IH Hm (fst (invoke c self))) as [Hall Hst].
  destruct (invoke c self) as [self1 out1] eqn:E. cbn [fst snd] in *.
  destruct (invoke_all moves self1) as [self2 out2]. cbn [fst snd] in *.
  split.
  - rewrite Hall, andb_true_r. destruct c; try discriminate; reflexivity.
  - intro Hne. apply Hst.
    destruct self as [st cc mp rx ry]. cbn in Hne.
    destruct c; try discriminate; cbn [invoke] in E;
      destruct st; try congruence; controller_unfold; cbn in E;
      injection E as <- _; cbn; discriminate.
Qed.

Lemma all_tracked_then_place (calls : list controller_call) :
  forall self : MouseController.t,
  all_tracked calls self = true ->
  all_tracked (calls ++ [call_place_card]) self = true.
Proof.
  induction calls as [|c calls IH]; intros self Hall; [reflexivity|].
  cbn [app all_tracked] in *. apply andb_true_iff in Hall.
  destruct Hall as [Hc Hall]. rewrite Hc. cbn [andb]. apply IH, Hall.
Qed.

(** X7: select, drag, place. From the idle state, selecting a card, moving
    it by any number of the four moves and placing it sends the device a total
    displacement that is the opposite of the position recorded at the start:
    starting from Card 1 the pointer comes back exactly to Card 1, and the
    controller is idle again at the origin with the button released. *)
Theorem select_drag_place_returns
    (self : MouseController.t) (card_number : MouseController.value) (key : Z)
    (moves : list controller_call) :
  MouseController.state self = MouseController.IDLE ->
  MouseController.card_key card_number = Some key ->
  forallb is_move moves = true ->
  let calls := call_select_card card_number :: moves ++ [call_place_card] in
  let self' := fst (invoke_all calls self) in
  let events := MouseController.on_device (snd (invoke_all calls self)) in
  VirtualMouse.total_x events = (- MouseController.relative_x self)%Z
  /\ VirtualMouse.total_y events = (- MouseController.relative_y self)%Z
  /\ MouseController.state self' = MouseController.IDLE
  /\ MouseController.relative_x self' = 0%Z
  /\ MouseController.relative_y self' = 0%Z
  /\ MouseController.mouse_pressed self' = false.
Proof.
  intros Hidle Hkey Hmoves calls self' events.
  set (self1 := fst (invoke (call_select_card card_number) self)).
  destruct (select_card_selects self card_number key Hkey) as (Hsel & _ & _ & _).
  fold (invoke (call_select_card card_number) self) in Hsel. fold self1 in Hsel.
  destruct (moves_tracked moves Hmoves self1) as [Hall Hst].
  assert (Hne : MouseController.state (fst (invoke_all moves self1))
                <> MouseController.IDLE) by (apply Hst; congruence).
  set (self2 := fst (invoke_all moves self1)) in *.
  assert (Hfinal : self' = fst (MouseController.place_card self2)).
  { subst self' calls. cbn [invoke_all]. unfold MouseController.andthen.
    fold (invoke (call_select_card card_number) self).
    destruct (invoke (call_select_card card_number) self) as [s1 o1] eqn:E1.
    subst self1. cbn [fst] in *. rewrite invoke_all_app.
    destruct (invoke_all moves s1) as [s2 o2] eqn:E2. subst self2. cbn [fst snd] in *.
    cbn [invoke_all invoke]. unfold MouseController.andthen.
    destruct (MouseController.place_card s2) as [s3 o3]. reflexivity. }
  assert (Hplace : MouseController.state (fst (MouseController.place_card self2))
                   = MouseController.IDLE
                   /\ MouseController.relative_x (fst (MouseController.place_card self2)) = 0%Z
                   /\ MouseController.relative_y (fst (MouseController.place_card self2)) = 0%Z
                   /\ MouseController.mouse_pressed (fst (MouseController.place_card self2)) = false).
  { destruct self2 as [st cc mp rx ry]. cbn in Hne.
    destruct st; [congruence| |]; destruct mp; controller_unfold; cbn; auto. }
  assert (Htracked : all_tracked calls self = true).
  { subst calls. cbn [all_tracked tracked]. rewrite Hkey.
    unfold MouseController.is_idle. rewrite Hidle. cbn [MouseController.State_eqb andb].
    fold self1. apply all_tracked_then_place, Hall. }
  destruct (displacement_of_tracked calls self Htracked) as [Hx Hy].
  fold self' in Hx, Hy. fold events in Hx, Hy.
  destruct Hplace as (Hp1 & Hp2 & Hp3 & Hp4).
  rewrite Hfinal in *. rewrite Hx, Hy, Hp2, Hp3.
  repeat split; auto; lia.
Qed.

(** The theorem at card 4 dragged up, up and right from a fresh controller. *)
Lemma select_drag_place_returns_witness :
  let calls := call_select_card (MouseController.Int 4)
               :: [call_move_up; call_move_up; call_move_right]
               ++ [call_place_card] in
  VirtualMouse.total_x
    (MouseController.on_device (snd (invoke_all calls MouseController.init)))
  = (- 0)%Z
  /\ VirtualMouse.total_y
       (MouseController.on_device (snd (invoke_all calls MouseController.init)))
     = (- 0)%Z.
Proof.
  intro calls.
  destruct (select_drag_place_returns MouseController.init
              (MouseController.Int 4) 4
              [call_move_up; call_move_up; call_move_right])
    as (Hx & Hy & _).
  - reflexivity.
  - reflexivity.
  - reflexivity.
  - split; [exact Hx|exact Hy].
Defined.

Lemma reset_result (self : MouseController.t) :
  let self' := fst (MouseController.reset self) in
  let events := MouseController.on_device (snd (MouseController.reset self)) in
  self' = MouseController.init
  /\ VirtualMouse.total_x events = (-450)%Z
  /\ VirtualMouse.total_y events = 920%Z
  /\ VirtualMouse.left_held (MouseController.mouse_pressed self) events = false.
Proof.
  intros self' events. subst self' events.
  destruct (on_device_asked (snd (MouseController.reset self))) as (-> & -> & ->).
  destruct self as [st cc mp rx ry].
  destruct mp; controller_unfold; cbn; repeat split.
Qed.

(** X8: [reset], from any state whatever, leaves the controller idle with no
    card, the button recorded as released and the position recorded as Card 1,
    after sending the device a net displacement of (-450, +920); if the button
    was held as recorded, it is released on the device. *)
Theorem reset_postcondition (self : MouseController.t) :
  let self' := fst (MouseController.reset self) in
  let events := MouseController.on_device (snd (MouseController.reset self)) in
  self' = MouseController.init
  /\ VirtualMouse.total_x events = (-450)%Z
  /\ VirtualMouse.total_y events = 920%Z
  /\ VirtualMouse.left_held (MouseController.mouse_pressed self) events = false.
Proof. exact (reset_result self). Qed.

(** X9: without a selected card, the four moves and [place_card] do
    nothing: however many of them are called on an idle controller, its
    attributes stay as they are and nothing is sent to the device. *)
Theorem idle_ignores_moves_and_place
    (calls : list controller_call) (self : MouseController.t) :
  MouseController.state self = MouseController.IDLE ->
  forallb (fun c => is_move c
                    || match c with call_place_card => true | _ => false end)
    calls = true ->
  invoke_all calls self = (self, []).
Proof.
  intro Hidle. induction calls as [|c calls IH]; intro Hcalls; [reflexivity|].
  cbn [forallb] in Hcalls. apply andb_true_iff in Hcalls.
  destruct Hcalls as [Hc Hcalls].
  cbn [invoke_all]. unfold MouseController.andthen.
  assert (E : invoke c self = (self, [])).
  { destruct c; try discriminate; cbn [invoke];
      unfold MouseController.move_up, MouseController.move_down,
        MouseController.move_left, MouseController.move_right,
        MouseController.place_card, MouseController.is_idle;
      rewrite Hidle; reflexivity. }
  rewrite E, (IH Hcalls). reflexivity.
Qed.

(** The theorem at a fresh controller asked to move up, left and to place. *)
Lemma idle_ignores_moves_and_place_witness :
  invoke_all [call_move_up; call_move_left; call_place_card] MouseController.init
  = (MouseController.init, []).
Proof.
  apply idle_ignores_moves_and_place; reflexivity.
Defined.

(** * The control server *)

Lemma card_key_Int (n : Z) :
  (1 <= n <= 4)%Z -> MouseController.card_key (MouseController.Int n) = Some n.
Proof.
  intro H. assert (n = 1 \/ n = 2 \/ n = 3 \/ n = 4)%Z as [ -> | [ -> | [ -> | -> ] ] ] by lia;
    reflexivity.
Qed.

(** One [cycle_card_select]: the card it selects. *)
Lemma cycle_card_select_selects (self : ControlServer.t) :
  let cycle :=
    if ControlServer.last_action_was_card_select self
    then ((ControlServer.current_card_cycle self + 1) mod 4)%Z else 0%Z in
  let self' := fst (ControlServer.cycle_card_select self) in
  ControlServer.current_card_cycle self' = cycle
  /\ ControlServer.last_action_was_card_select self' = true
  /\ ControlServer.running self' = ControlServer.running self
  /\ (0 <= cycle <= 3)%Z
  /\ MouseController.state (ControlServer.controller self')
     = MouseController.CARD_SELECTED
  /\ MouseController.current_card (ControlServer.controller self')
     = Some (MouseController.Int (cycle + 1)).
Proof.
  intros cycle self'.
  assert (Hc : (0 <= cycle <= 3)%Z).
  { subst cycle. destruct (ControlServer.last_action_was_card_select self); [|lia].
    pose proof (Z.mod_pos_bound (ControlServer.current_card_cycle self + 1) 4 ltac:(lia)).
    lia. }
  pose proof (card_key_Int (cycle + 1) ltac:(lia)) as Hkey.
  subst self'. unfold ControlServer.cycle_card_select.
  set (self1 := ControlServer.set_last_action_was_card_select true _).
  assert (E1 : ControlServer.current_card_cycle self1 = cycle).
  { subst self1 cycle. destruct (ControlServer.last_action_was_card_select self);
      reflexivity. }
  rewrite E1. unfold ControlServer.call.
  pose proof (select_card_selects (ControlServer.controller self1)
                (MouseController.Int (cycle + 1)) (cycle + 1) Hkey)
    as (Hst & Hcard & _).
  destruct (MouseController.select_card (MouseController.Int (cycle + 1))
              (ControlServer.controller self1)) as [c out].
  cbn [fst snd ControlServer.current_card_cycle
       ControlServer.last_action_was_card_select ControlServer.running
       ControlServer.controller] in *.
  rewrite E1. repeat split; auto; try lia.
  subst self1. destruct (ControlServer.last_action_was_card_select self); reflexivity.
Qed.

Lemma handle_cycle_command (self : ControlServer.t) :
  ControlServer.handle_command self (action_command "cycle_card")
  = ControlServer.Returned (fst (ControlServer.cycle_card_select self))
      (snd (ControlServer.cycle_card_select self)).
Proof.
  cbn. destruct (ControlServer.cycle_card_select self). reflexivity.
Qed.

(** X10: the card cycle. After an action that is not a card cycle (or on a
    fresh server), [n + 1] consecutive [cycle_card] commands select the cards
    1, 2, 3, 4, 1, ... in turn: the run never raises and ends with card
    [n mod 4 + 1] selected. *)
Theorem cycle_card_sequence (self : ControlServer.t) (n : nat) :
  ControlServer.last_action_was_card_select self = false ->
  exists (self' : ControlServer.t) (out : list MouseController.action),
    server_run self (repeat (command (action_command "cycle_card")) (S n))
    = ControlServer.Returned self' out
    /\ MouseController.state (ControlServer.controller self')
       = MouseController.CARD_SELECTED
    /\ MouseController.current_card (ControlServer.controller self')
       = Some (MouseController.Int (nth_cycled_card n))
    /\ ControlServer.current_card_cycle self' = (Z.of_nat n mod 4)%Z
    /\ ControlServer.last_action_was_card_select self' = true.
Proof.
  intro Hflag.
  assert (Hnext : forall m self0,
            ControlServer.last_action_was_card_select self0 = true ->
            ControlServer.current_card_cycle self0 = (Z.of_nat m mod 4)%Z ->
            let self1 := fst (ControlServer.cycle_card_select self0) in
            ControlServer.last_action_was_card_select self1 = true
            /\ ControlServer.current_card_cycle self1 = (Z.of_nat (S m) mod 4)%Z
            /\ MouseController.state (ControlServer.controller self1)
               = MouseController.CARD_SELECTED
            /\ MouseController.current_card (ControlServer.controller self1)
               = Some (MouseController.Int (nth_cycled_card (S m)))).
  { intros m self0 Hf Hc self1.
    destruct (cycle_card_select_selects self0) as (H1 & H2 & _ & _ & H5 & H6).
    fold self1 in H1, H2, H5, H6. rewrite Hf, Hc in H1, H6.
    assert (E : ((Z.of_nat m mod 4 + 1) mod 4 = Z.of_nat (S m) mod 4)%Z).
    { rewrite Nat2Z.inj_succ. unfold Z.succ. apply Zplus_mod_idemp_l. }
    rewrite E in H1, H6. auto. }
  assert (Hrun : forall k m self0,
            ControlServer.last_action_was_card_select self0 = true ->
            ControlServer.current_card_cycle self0 = (Z.of_nat m mod 4)%Z ->
            MouseController.state (ControlServer.controller self0)
              = MouseController.CARD_SELECTED ->
            MouseController.current_card (ControlServer.controller self0)
              = Some (MouseController.Int (nth_cycled_card m)) ->
            exists self' out,
              server_run self0 (repeat (command (action_command "cycle_card")) k)
              = ControlServer.Returned self' out
              /\ MouseController.state (ControlServer.controller self')
                 = MouseController.CARD_SELECTED
              /\ MouseController.current_card (ControlServer.controller self')
                 = Some (MouseController.Int (nth_cycled_card (k + m)))
              /\ ControlServer.current_card_cycle self'
                 = (Z.of_nat (k + m) mod 4)%Z
              /\ ControlServer.last_action_was_card_select self' = true).
  { induction k as [|k IH]; intros m self0 Hf Hc Hst Hcard.
    - exists self0, []. cbn [repeat server_run Nat.add]. auto.
    - cbn [repeat server_run server_step]. rewrite handle_cycle_command.
      destruct (Hnext m self0 Hf Hc) as (Hf1 & Hc1 & Hst1 & Hcard1).
      destruct (IH (S m) _ Hf1 Hc1 Hst1 Hcard1) as (self' & out & Hr & H1 & H2 & H3 & H4).
      rewrite Hr. eexists. eexists. split; [reflexivity|].
      replace (S k + m)%nat with (k + S m)%nat by lia. auto. }
  cbn [repeat server_run server_step]. rewrite handle_cycle_command.
  destruct (cycle_card_select_selects self) as (H1 & H2 & _ & _ & H5 & H6).
  rewrite Hflag in H1, H6.
  destruct (Hrun n 0%nat (fst (ControlServer.cycle_card_select self)) H2 H1 H5 H6)
    as (self' & out & Hr & H7 & H8 & H9 & H10).
  rewrite Hr. eexists. eexists. split; [reflexivity|].
  rewrite Nat.add_0_r in H8, H9. auto.
Qed.

(** The theorem at six cycle commands on a fresh server: card 2. *)
Lemma cycle_card_sequence_witness :
  exists (self' : ControlServer.t) (out : list MouseController.action),
    server_run ControlServer.init
      (repeat (command (action_command "cycle_card")) 6)
    = ControlServer.Returned self' out
    /\ MouseController.current_card (ControlServer.controller self')
       = Some (MouseController.Int 2).
Proof.
  destruct (cycle_card_sequence ControlServer.init 5 eq_refl)
    as (self' & out & Hr & _ & Hcard & _).
  exists self', out. split; [exact Hr|exact Hcard].
Defined.

Lemma invoke_all_one (c : controller_call) (self : MouseController.t) :
  invoke_all [c] self = invoke c self.
Proof.
  cbn [invoke_all]. unfold MouseController.andthen, MouseController.skip.
  destruct (invoke c self). rewrite app_nil_r. reflexivity.
Qed.

Lemma call_as_invoke (c : controller_call) (self self1 : ControlServer.t)
    (out1 : list MouseController.action) :
  ControlServer.call (invoke c) self = (self1, out1) ->
  invoke_all [c] (ControlServer.controller self)
  = (ControlServer.controller self1, out1)
  /\ ControlServer.current_card_cycle self1 = ControlServer.current_card_cycle self.
Proof.
  unfold ControlServer.call. rewrite invoke_all_one.
  destruct (invoke c (ControlServer.controller self)) as [c1 o1].
  intro H. injection H as <- <-. split; reflexivity.
Qed.

Lemma call_and_clear_as_invoke (c : controller_call) (self self1 : ControlServer.t)
    (out1 : list MouseController.action) :
  ControlServer.call_and_clear (invoke c) self = ControlServer.Returned self1 out1 ->
  invoke_all [c] (ControlServer.controller self)
  = (ControlServer.controller self1, out1)
  /\ ControlServer.current_card_cycle self1 = ControlServer.current_card_cycle self.
Proof.
  unfold ControlServer.call_and_clear.
  destruct (ControlServer.call (invoke c) self) as [s o] eqn:E.
  intro H. injection H as <- <-.
  destruct (call_as_invoke c self s o E) as [H1 H2]. split; [exact H1|exact H2].
Qed.

Lemma cycle_card_select_as_invoke (self : ControlServer.t) :
  exists v : MouseController.value,
    invoke_all [call_select_card v] (ControlServer.controller self)
    = (ControlServer.controller (fst (ControlServer.cycle_card_select self)),
       snd (ControlServer.cycle_card_select self)).
Proof.
  unfold ControlServer.cycle_card_select.
  match goal with
  | |- context [ControlServer.call (MouseController.select_card ?v) ?s] =>
      exists v;
      destruct (ControlServer.call (MouseController.select_card v) s) as [s1 o1] eqn:E;
      change (MouseController.select_card v) with (invoke (call_select_card v)) in E;
      apply call_as_invoke in E; destruct E as [E _]
  end.
  cbn [fst snd]. rewrite <- E. f_equal.
  destruct (ControlServer.last_action_was_card_select self); reflexivity.
Qed.

(** Every step of the server is a sequence of calls of controller methods,
    and keeps the cycle index within 0 to 3. *)
Lemma server_step_calls (self self1 : ControlServer.t) (i : server_input)
    (out1 : list MouseController.action) :
  server_step self i = ControlServer.Returned self1 out1 ->
  (exists calls : list controller_call,
     invoke_all calls (ControlServer.controller self)
     = (ControlServer.controller self1, out1))
  /\ ((0 <= ControlServer.current_card_cycle self <= 3)%Z ->
      (0 <= ControlServer.current_card_cycle self1 <= 3)%Z).
Proof.
  assert (Hclear : forall c : controller_call,
            ControlServer.call_and_clear (invoke c) self
            = ControlServer.Returned self1 out1 ->
            (exists calls, invoke_all calls (ControlServer.controller self)
                           = (ControlServer.controller self1, out1))
            /\ ((0 <= ControlServer.current_card_cycle self <= 3)%Z ->
                (0 <= ControlServer.current_card_cycle self1 <= 3)%Z)).
  { intros c H. destruct (call_and_clear_as_invoke _ _ _ _ H) as [H1 H2].
    split; [exists [c]; exact H1|rewrite H2; auto]. }
  assert (Hcall : forall c : controller_call,
            ControlServer.call (invoke c) self = (self1, out1) ->
            (exists calls, invoke_all calls (ControlServer.controller self)
                           = (ControlServer.controller self1, out1))
            /\ ((0 <= ControlServer.current_card_cycle self <= 3)%Z ->
                (0 <= ControlServer.current_card_cycle self1 <= 3)%Z)).
  { intros c H. destruct (call_as_invoke _ _ _ _ H) as [H1 H2].
    split; [exists [c]; exact H1|rewrite H2; auto]. }
  assert (Hnone : forall s : ControlServer.t,
            ControlServer.controller s = ControlServer.controller self ->
            ControlServer.current_card_cycle s = ControlServer.current_card_cycle self ->
            ControlServer.Returned s [] = ControlServer.Returned self1 out1 ->
            (exists calls, invoke_all calls (ControlServer.controller self)
                           = (ControlServer.controller self1, out1))
            /\ ((0 <= ControlServer.current_card_cycle self <= 3)%Z ->
                (0 <= ControlServer.current_card_cycle self1 <= 3)%Z)).
  { intros s Hc Hy H. injection H as <- <-. rewrite Hc, Hy.
    split; [exists []; reflexivity|auto]. }
  destruct i as [cmd|k]; cbn [server_step].
  - destruct cmd as [| | | | | |members]; try discriminate.
    cbn [ControlServer.handle_command].
    destruct (Json.get members "action" Json.Null) as [| | | |action| |];
      try (apply Hnone; reflexivity).
    destruct (String.eqb action "select_card");
      [apply (Hclear (call_select_card _))|].
    destruct (String.eqb action "cycle_card").
    { destruct (cycle_card_select_as_invoke self) as (v & Hv).
      destruct (cycle_card_select_selects self) as (H1 & _ & _ & H4 & _).
      destruct (ControlServer.cycle_card_select self) as [s o].
      cbn [fst snd] in *. intro H. injection H as <- <-.
      split; [exists [call_select_card v]; exact Hv|].
      intros _. rewrite H1. exact H4. }
    destruct (String.eqb action "move_up"); [apply (Hclear call_move_up)|].
    destruct (String.eqb action "move_down"); [apply (Hclear call_move_down)|].
    destruct (String.eqb action "move_left"); [apply (Hclear call_move_left)|].
    destruct (String.eqb action "move_right"); [apply (Hclear call_move_right)|].
    destruct (String.eqb action "place_card"); [apply (Hclear call_place_card)|].
    destruct (String.eqb action "reset"); [apply (Hclear call_reset)|].
    destruct (String.eqb action "exit"); apply Hnone; reflexivity.
  - destruct (ControlServer.press k self) as [s o] eqn:E.
    intro H. injection H as <- <-.
    destruct k; cbn [ControlServer.press] in E;
      try (apply (Hcall (call_select_card _)) in E; exact E);
      try (apply (Hcall call_move_up) in E; exact E);
      try (apply (Hcall call_move_down) in E; exact E);
      try (apply (Hcall call_move_left) in E; exact E);
      try (apply (Hcall call_move_right) in E; exact E);
      try (apply (Hcall call_place_card) in E; exact E);
      try (apply (Hcall call_reset) in E; exact E).
    unfold ControlServer.on_exit in E.
    destruct (MouseController.mouse_pressed (ControlServer.controller self)).
    + destruct (ControlServer.call MouseController.reset self) as [s1 o1] eqn:E1.
      injection E as <- <-.
      change MouseController.reset with (invoke call_reset) in E1.
      destruct (call_as_invoke _ _ _ _ E1) as [H1 H2].
      split; [exists [call_reset]; exact H1|].
      cbn [ControlServer.set_running ControlServer.current_card_cycle].
      rewrite H2. auto.
    + injection E as <- <-. split; [exists []; reflexivity|auto].
Qed.

(** X11: whatever commands and hot keys reach a fresh server, as long as
    none raises: the cycle index stays within 0 to 3, the attributes of the
    controller stay consistent, and the button recorded as pressed is the
    state of the left button of the device. *)
Theorem server_invariants (inputs : list server_input)
    (self' : ControlServer.t) (out : list MouseController.action) :
  server_run ControlServer.init inputs = ControlServer.Returned self' out ->
  (0 <= ControlServer.current_card_cycle self' <= 3)%Z
  /\ consistent (ControlServer.controller self')
  /\ VirtualMouse.left_held false (MouseController.on_device out)
     = MouseController.mouse_pressed (ControlServer.controller self').
Proof.
  assert (H : forall inputs self self' out,
            server_run self inputs = ControlServer.Returned self' out ->
            (0 <= ControlServer.current_card_cycle self <= 3)%Z ->
            consistent (ControlServer.controller self) ->
            (0 <= ControlServer.current_card_cycle self' <= 3)%Z
            /\ consistent (ControlServer.controller self')
            /\ held_after (MouseController.mouse_pressed (ControlServer.controller self)) out
               = MouseController.mouse_pressed (ControlServer.controller self')).
  { clear. induction inputs as [|i inputs IH]; intros self self' out Hrun Hcyc Hcons.
    - cbn in Hrun. injection Hrun as <- <-. auto.
    - cbn [server_run] in Hrun.
      destruct (server_step self i) as [self1 out1|] eqn:E1; [|discriminate].
      destruct (server_run self1 inputs) as [self2 out2|] eqn:E2; [|discriminate].
      injection Hrun as <- <-.
      destruct (server_step_calls _ _ _ _ E1) as [(calls & Hcalls) Hb].
      destruct (invoke_all_consistent calls _ Hcons) as [Hc1 Hh1].
      rewrite Hcalls in Hc1, Hh1. cbn [fst snd] in Hc1, Hh1.
      destruct (IH _ _ _ E2 (Hb Hcyc) Hc1) as (Hb2 & Hc2 & Hh2).
      split; [exact Hb2|]. split; [exact Hc2|].
      rewrite held_after_app, Hh1. exact Hh2. }
  intro Hrun.
  destruct (H inputs ControlServer.init self' out Hrun) as (Hb & Hc & Hh).
  - cbn. lia.
  - exact init_consistent.
  - split; [exact Hb|]. split; [exact Hc|].
    destruct (on_device_asked out) as (_ & _ & Hdev). rewrite Hdev. exact Hh.
Qed.

(** The theorem at a cycle command, the up key, a select command carrying
    card 3 and the escape key. *)
Lemma server_invariants_witness :
  exists (self' : ControlServer.t) (out : list MouseController.action),
    server_run ControlServer.init
      [ command (action_command "cycle_card"); key ControlServer.key_up;
        command (Json.Object [("action"%string, Json.Str "select_card");
                              ("card"%string, Json.Int 3)]);
        key ControlServer.key_esc ]
    = ControlServer.Returned self' out
    /\ VirtualMouse.left_held false (MouseController.on_device out)
       = MouseController.mouse_pressed (ControlServer.controller self').
Proof.
  destruct (server_run ControlServer.init
              [ command (action_command "cycle_card"); key ControlServer.key_up;
                command (Json.Object [("action"%string, Json.Str "select_card");
                                      ("card"%string, Json.Int 3)]);
                key ControlServer.key_esc ]) as [self' out|] eqn:E;
    [|vm_compute in E; discriminate].
  exists self', out. split; [reflexivity|].
  exact (proj2 (proj2 (server_invariants _ self' out E))).
Defined.

(** X12: what restarts the card cycle. A select, a move, a place or a reset
    received as a command clears the cycle flag, so the next [cycle_card]
    selects card 1. The hot keys, which call the controller directly, leave
    the cycle index and the flag as they are: after a key the cycle goes on
    from where it was. *)
Theorem cycle_restart (self : ControlServer.t) :
  (forall action : string, In action cycle_breaking_actions ->
     exists (self1 : ControlServer.t) (out : list MouseController.action),
       ControlServer.handle_command self (action_command action)
       = ControlServer.Returned self1 out
       /\ ControlServer.last_action_was_card_select self1 = false
       /\ MouseController.current_card
            (ControlServer.controller (fst (ControlServer.cycle_card_select self1)))
          = Some (MouseController.Int 1))
  /\ (forall k : ControlServer.hotkey,
        ControlServer.current_card_cycle (fst (ControlServer.press k self))
        = ControlServer.current_card_cycle self
        /\ ControlServer.last_action_was_card_select (fst (ControlServer.press k self))
           = ControlServer.last_action_was_card_select self).
Proof.
  split.
  - assert (Hclear : forall m,
              exists self1 out,
                ControlServer.call_and_clear m self = ControlServer.Returned self1 out
                /\ ControlServer.last_action_was_card_select self1 = false
                /\ MouseController.current_card
                     (ControlServer.controller
                        (fst (ControlServer.cycle_card_select self1)))
                   = Some (MouseController.Int 1)).
    { intro m. unfold ControlServer.call_and_clear.
      destruct (ControlServer.call m self) as [s o].
      eexists. eexists. split; [reflexivity|]. split; [reflexivity|].
      destruct (cycle_card_select_selects
                  (ControlServer.set_last_action_was_card_select false s))
        as (_ & _ & _ & _ & _ & H).
      exact H. }
    intros action Hin. cbn in Hin.
    repeat match goal with
           | H : _ \/ _ |- _ => destruct H as [H|H]
           | H : False |- _ => destruct H
           end; subst action; apply Hclear.
  - intro k. unfold ControlServer.press, ControlServer.on_exit, ControlServer.call.
    destruct k;
      try match goal with
          | |- context [let '(_, _) := ?m ?c in _] => destruct (m c)
          end; try (split; reflexivity).
    destruct (MouseController.mouse_pressed (ControlServer.controller self));
      [destruct (MouseController.reset (ControlServer.controller self))|];
      split; reflexivity.
Qed.

(** The theorem at a server whose last action was a cycle to card 2: after
    the command [move_up] the next cycle selects card 1. *)
Lemma cycle_restart_witness :
  let self := fst (ControlServer.cycle_card_select
                     (fst (ControlServer.cycle_card_select ControlServer.init))) in
  exists (self1 : ControlServer.t) (out : list MouseController.action),
    ControlServer.handle_command self (action_command "move_up")
    = ControlServer.Returned self1 out
    /\ MouseController.current_card
         (ControlServer.controller (fst (ControlServer.cycle_card_select self1)))
       = Some (MouseController.Int 1).
Proof.
  intro self.
  destruct (cycle_restart self) as [Hcmd _].
  destruct (Hcmd "move_up"%string) as (self1 & out & Hr & _ & Hcard).
  - cbn. tauto.
  - exists self1, out. split; [exact Hr|exact Hcard].
Defined.

(** X13: what [handle_command] does with a command it cannot serve. A
    decoded value that is not an object makes [command.get] raise
    [AttributeError], which nothing in [run] catches; an object whose action
    is none of the nine known ones (or is missing, or is not a string)
    changes nothing and sends nothing to the controller. *)
Theorem handle_command_unserved (self : ControlServer.t) :
  (forall command : Json.t,
     ControlServer.handle_command self command = ControlServer.AttributeError
     <-> (forall members, command <> Json.Object members))
  /\ (forall members : list (string * Json.t),
        (forall action : string,
           Json.get members "action" Json.Null = Json.Str action ->
           ~ In action known_actions) ->
        ControlServer.handle_command self (Json.Object members)
        = ControlServer.Returned self []).
Proof.
  split.
  - intro cmd. split.
    + intros H members ->. cbn [ControlServer.handle_command] in H.
      unfold ControlServer.call_and_clear, ControlServer.call in H.
      repeat match type of H with
             | context [match ?x with _ => _ end] => destruct x
             end; discriminate.
    + intro H. destruct cmd; try reflexivity. exfalso. exact (H members eq_refl).
  - intros members Hunknown. cbn [ControlServer.handle_command].
    destruct (Json.get members "action" Json.Null) as [| | | |action| |];
      try reflexivity.
    specialize (Hunknown action eq_refl). cbn in Hunknown.
    repeat match goal with
           | |- context [String.eqb action ?s] =>
               let E := fresh "E" in
               destruct (String.eqb_spec action s) as [E|E];
               [exfalso; apply Hunknown; rewrite E; tauto|]
           end.
    reflexivity.
Qed.

(** The theorem at the action "jump" and at a command that is a list. *)
Lemma handle_command_unserved_witness :
  ControlServer.handle_command ControlServer.init (action_command "jump")
  = ControlServer.Returned ControlServer.init []
  /\ ControlServer.handle_command ControlServer.init (Json.Array [])
     = ControlServer.AttributeError.
Proof.
  destruct (handle_command_unserved ControlServer.init) as [Hraise Hunknown].
  split.
  - apply Hunknown. intros action H. injection H as <-. cbn.
    intuition discriminate.
  - apply Hraise. intros members. discriminate.
Defined.

(** X14: leaving. The escape key ([on_exit]) stops the server and never
    leaves the button held: if it was recorded as pressed, a [reset] releases
    it on the device. The [exit] command stops the server too, but touches
    neither the controller nor the device. *)
Theorem exit_releases_only_by_key (self : ControlServer.t) :
  (let self' := fst (ControlServer.on_exit self) in
   let events := MouseController.on_device (snd (ControlServer.on_exit self)) in
   ControlServer.running self' = false
   /\ MouseController.mouse_pressed (ControlServer.controller self') = false
   /\ VirtualMouse.left_held
        (MouseController.mouse_pressed (ControlServer.controller self)) events
      = false)
  /\ ControlServer.handle_command self (action_command "exit")
     = ControlServer.Returned (ControlServer.set_running false self) [].
Proof.
  split; [|reflexivity].
  unfold ControlServer.on_exit.
  destruct (MouseController.mouse_pressed (ControlServer.controller self)) eqn:Hp.
  - unfold ControlServer.call.
    destruct (reset_result (ControlServer.controller self)) as (Hinit & _ & _ & Hheld).
    rewrite Hp in Hheld.
    destruct (MouseController.reset (ControlServer.controller self)) as [c o].
    cbn [fst snd] in *. subst c. repeat split. exact Hheld.
  - cbn. rewrite Hp. repeat split.
Qed.

(** * From the recognizer to the controller *)

Lemma frequency_to_note_name (frequency : option Q) (note : string) :
  frequency_to_note frequency = Some note -> In note note_names.
Proof.
  destruct frequency as [f|]; [|discriminate]. cbn [frequency_to_note].
  intro H. destruct (first_match_In _ _ _ H) as (range & Hin & _).
  unfold note_names. apply in_map_iff. exists (note, range). split; [reflexivity|exact Hin].
Qed.

(** The note in progress after a tick is the one before it, none, or the one
    detected. *)
Lemma note_boundary_current_note
    (self : recognizer) (d : option string) (now now' : float) :
  current_note (fst (note_boundary self d now now')) = current_note self
  \/ current_note (fst (note_boundary self d now now')) = None
  \/ (current_note (fst (note_boundary self d now now')) = d /\ d <> None).
Proof.
  unfold note_boundary, note_detected, no_note_detected.
  destruct d as [s|]; [destruct (truthy (Some s))|];
    cbn [set_last_detection_time current_note];
    destruct (current_note self) eqn:E;
    repeat match goal with
           | |- context [if ?c then _ else _] => destruct c
           end;
    cbn; rewrite ?E;
    first [ left; reflexivity
          | right; left; reflexivity
          | right; right; split; [reflexivity|discriminate] ].
Qed.

(** X15: the callback is only ever invoked with the name of a note of
    [NOTE_RANGES]. Along any run of the loop from a fresh recognizer, whatever
    is read, every invocation has one argument, one of "C", "D", "E", "F",
    "G", "A", and the audio client has an action for it. *)
Theorem callbacks_are_known_notes
    (rfft_peak_index : list Z -> nat) (inputs : list iteration_input)
    (args : list pyval) :
  In args (callbacks (snd (process_audio rfft_peak_index init inputs))) ->
  exists note : string,
    args = [PyStr note]
    /\ In note note_names
    /\ AudioClient.lookup note AudioClient.note_actions <> None.
Proof.
  assert (Hact : forall note, In note note_names ->
            AudioClient.lookup note AudioClient.note_actions <> None).
  { intros note Hin. cbn in Hin.
    repeat match goal with
           | H : _ \/ _ |- _ => destruct H as [H|H]
           | H : False |- _ => destruct H
           end; subst note; discriminate. }
  assert (H : forall inputs self,
            (forall s, current_note self = Some s -> In s note_names) ->
            forall args,
            In args (callbacks (snd (process_audio rfft_peak_index self inputs))) ->
            exists note, args = [PyStr note] /\ In note note_names).
  { clear inputs args. induction inputs as [|inp rest IH]; intros self Hinv args Hin.
    - destruct Hin.
    - cbn [process_audio] in Hin.
      pose proof (process_audio_iteration_effects rfft_peak_index self inp) as Hstep.
      assert (Hnext : forall s,
                current_note (fst (process_audio_iteration rfft_peak_index self inp))
                = Some s -> In s note_names).
      { intros s. unfold process_audio_iteration.
        destruct (audio_data <- stream_read inp;; get_frequency rfft_peak_index audio_data)
          as [frequency|e]; [|apply Hinv].
        match goal with
        | |- current_note (fst (note_boundary ?st ?d ?t ?t')) = _ -> _ =>
            destruct (note_boundary_current_note st d t t') as [E|[E|[E _]]];
            rewrite E
        end.
        - apply Hinv.
        - discriminate.
        - apply frequency_to_note_name. }
      destruct (process_audio_iteration rfft_peak_index self inp) as [self1 out1].
      specialize (IH self1 Hnext).
      destruct (process_audio rfft_peak_index self1 rest) as [self2 out2].
      cbn [fst snd] in *. rewrite callbacks_app in Hin.
      apply in_app_or in Hin. destruct Hin as [Hin|Hin]; [|exact (IH args Hin)].
      inversion Hstep as [? ? Hcb _ | ? s d ? Hc _ _ Hcb _]; subst;
        rewrite Hcb in Hin.
      + destruct Hin.
      + destruct Hin as [<-|[]]. exists s. split; [reflexivity|apply Hinv, Hc]. }
  intro Hin.
  destruct (H inputs init ltac:(intros s Hs; discriminate) args Hin) as (note & -> & Hn).
  exists note. auto.
Qed.

(** The theorem at two tone blocks, 200 ms apart, followed by a silent block
    one second later: the callback is invoked with "A". *)
Lemma callbacks_are_known_notes_witness :
  let inputs :=
    [ {| stream_read := Ok tone_block; clock := 0%float; clock_silence := 0%float |};
      {| stream_read := Ok tone_block; clock := 0.2%float;
         clock_silence := 0.2%float |};
      {| stream_read := Ok silent_block; clock := 1.2%float;
         clock_silence := 1.2%float |} ] in
  In [PyStr "A"] (callbacks (snd (process_audio peak_at_bin_80 init inputs)))
  /\ exists note : string,
       [PyStr "A"] = [PyStr note]
       /\ In note note_names
       /\ AudioClient.lookup note AudioClient.note_actions <> None.
Proof.
  intro inputs.
  assert (Hin : In [PyStr "A"]
                  (callbacks (snd (process_audio peak_at_bin_80 init inputs)))).
  { vm_compute. left. reflexivity. }
  split; [exact Hin|].
  exact (callbacks_are_known_notes peak_at_bin_80 inputs [PyStr "A"] Hin).
Defined.

(** X16: from a note to the controller. With the client connected and the
    send successful, each note reported by the recognizer reaches the server
    as a command it knows: "C" cycles the cards, "D", "E", "F", "G" move up,
    down, left, right and "A" places the card. Without a socket nothing is
    sent, and a lost connection stops the client. *)
Theorem note_relay (client : AudioClient.t) (server : ControlServer.t) :
  (AudioClient.socket client = true ->
   relay "C" client server
   = ControlServer.Returned (fst (ControlServer.cycle_card_select server))
       (snd (ControlServer.cycle_card_select server))
   /\ relay "D" client server
      = ControlServer.call_and_clear MouseController.move_up server
   /\ relay "E" client server
      = ControlServer.call_and_clear MouseController.move_down server
   /\ relay "F" client server
      = ControlServer.call_and_clear MouseController.move_left server
   /\ relay "G" client server
      = ControlServer.call_and_clear MouseController.move_right server
   /\ relay "A" client server
      = ControlServer.call_and_clear MouseController.place_card server)
  /\ (forall note network,
        AudioClient.socket client = false ->
        AudioClient.on_note_detected note network client = (client, []))
  /\ (forall note,
        In note note_names ->
        AudioClient.socket client = true ->
        AudioClient.on_note_detected note AudioClient.connection_lost client
        = ({| AudioClient.socket := true; AudioClient.running := false |}, [])).
Proof.
  split; [|split].
  - intro Hs. unfold relay, AudioClient.on_note_detected, AudioClient.send_command.
    rewrite Hs. cbn.
    destruct (ControlServer.cycle_card_select server). repeat split.
  - intros note network Hs.
    unfold AudioClient.on_note_detected, AudioClient.send_command. rewrite Hs.
    destruct (AudioClient.lookup note AudioClient.note_actions); reflexivity.
  - intros note Hin Hs. cbn in Hin.
    repeat match goal with
           | H : _ \/ _ |- _ => destruct H as [H|H]
           | H : False |- _ => destruct H
           end; subst note;
      unfold AudioClient.on_note_detected, AudioClient.send_command;
      rewrite Hs; reflexivity.
Qed.

(** The theorem at a connected client and a fresh server: "D" moves up, which
    an idle controller ignores. *)
Lemma note_relay_witness :
  relay "D" {| AudioClient.socket := true; AudioClient.running := true |}
    ControlServer.init
  = ControlServer.call_and_clear MouseController.move_up ControlServer.init.
Proof.
  destruct (note_relay {| AudioClient.socket := true; AudioClient.running := true |}
              ControlServer.init) as [Hsent _].
  destruct (Hsent eq_refl) as (_ & Hd & _). exact Hd.
Defined.

(** * More on the recognizer *)

Lemma frombuffer_int16_outcome (audio_data : list byte) :
  (Nat.even (List.length audio_data) = true ->
   exists a, frombuffer_int16 audio_data = Ok a
             /\ (2 * List.length a = List.length audio_data)%nat)
  /\ (Nat.even (List.length audio_data) = false ->
      frombuffer_int16 audio_data = Raise ValueError).
Proof.
  assert (Hboth :
    ((Nat.even (List.length audio_data) = true ->
      exists a, frombuffer_int16 audio_data = Ok a
                /\ (2 * List.length a = List.length audio_data)%nat)
     /\ (Nat.even (List.length audio_data) = false ->
         frombuffer_int16 audio_data = Raise ValueError))
    /\ (forall b,
          (Nat.even (List.length (b :: audio_data)) = true ->
           exists a, frombuffer_int16 (b :: audio_data) = Ok a
                     /\ (2 * List.length a = List.length (b :: audio_data))%nat)
          /\ (Nat.even (List.length (b :: audio_data)) = false ->
              frombuffer_int16 (b :: audio_data) = Raise ValueError))).
  { induction audio_data as [|hi rest [IH0 IH1]].
    - split; [split|intro b; split].
      + intros _. exists []. split; reflexivity.
      + discriminate.
      + discriminate.
      + reflexivity.
    - split; [apply IH1|]. intro lo. destruct IH0 as [Heven Hodd].
      cbn [List.length Nat.even frombuffer_int16]. split; intro H.
      + destruct (Heven H) as (a & -> & Hlen).
        eexists. split; [reflexivity|]. cbn [List.length]. lia.
      + rewrite (Hodd H). reflexivity. }
  exact (proj1 Hboth).
Qed.

(** X17: a buffer with an odd number of bytes, or with no byte at all, makes
    [get_frequency] raise [ValueError]; every other buffer gives an estimate.
    The iteration that meets the exception leaves every attribute as it was,
    the frequency window included, prints the error and sleeps. *)
Theorem get_frequency_raises
    (rfft_peak_index : list Z -> nat) (audio_data : list byte) :
  (get_frequency rfft_peak_index audio_data = Raise ValueError
   <-> Nat.odd (List.length audio_data) = true \/ audio_data = [])
  /\ ((exists frequency, get_frequency rfft_peak_index audio_data = Ok frequency)
      <-> Nat.even (List.length audio_data) = true /\ audio_data <> [])
  /\ (forall (self : recognizer) (inp : iteration_input),
        stream_read inp = Ok audio_data ->
        Nat.odd (List.length audio_data) = true \/ audio_data = [] ->
        process_audio_iteration rfft_peak_index self inp
        = (self, [print_error ValueError; sleep])).
Proof.
  assert (Hraise : Nat.odd (List.length audio_data) = true \/ audio_data = [] ->
                   get_frequency rfft_peak_index audio_data = Raise ValueError).
  { intros [Hodd| ->]; [|reflexivity].
    destruct (frombuffer_int16_outcome audio_data) as [_ H].
    unfold get_frequency. rewrite H; [reflexivity|].
    unfold Nat.odd in Hodd. destruct (Nat.even (List.length audio_data));
      [discriminate|reflexivity]. }
  assert (Hok : Nat.even (List.length audio_data) = true -> audio_data <> [] ->
                exists frequency, get_frequency rfft_peak_index audio_data = Ok frequency).
  { intros Heven Hne.
    destruct (frombuffer_int16_outcome audio_data) as [H _].
    destruct (H Heven) as (a & Ha & Hlen).
    unfold get_frequency. rewrite Ha. cbn [bind].
    destruct a as [|x a].
    - destruct audio_data; [congruence|cbn in Hlen; lia].
    - destruct (Qltb _ 200); [eexists; reflexivity|].
      match goal with |- context [if ?c then _ else _] => destruct c end;
        eexists; reflexivity. }
  split; [|split].
  - split; [|exact Hraise]. intro H.
    destruct (Nat.even (List.length audio_data)) eqn:Heven.
    + destruct audio_data as [|b rest]; [right; reflexivity|].
      destruct (Hok eq_refl ltac:(discriminate)) as (f & Hf). congruence.
    + left. unfold Nat.odd. rewrite Heven. reflexivity.
  - split.
    + intros (f & Hf). split.
      * destruct (Nat.even (List.length audio_data)) eqn:Heven; [reflexivity|].
        rewrite Hraise in Hf; [discriminate|].
        left. unfold Nat.odd. rewrite Heven. reflexivity.
      * intros ->. discriminate.
    + intros [Heven Hne]. exact (Hok Heven Hne).
  - intros self inp Hread Hbad. unfold process_audio_iteration.
    rewrite Hread. cbn [bind]. rewrite (Hraise Hbad). reflexivity.
Qed.

(** The theorem at a buffer of three bytes. *)
Lemma get_frequency_raises_witness :
  get_frequency peak_at_bin_80 [x00; x01; x02] = Raise ValueError
  /\ process_audio_iteration peak_at_bin_80 init
       {| stream_read := Ok [x00; x01; x02]; clock := 0; clock_silence := 0 |}
     = (init, [print_error ValueError; sleep]).
Proof.
  destruct (get_frequency_raises peak_at_bin_80 [x00; x01; x02]) as (Hr & _ & Hit).
  split.
  - apply Hr. left. reflexivity.
  - apply Hit; [reflexivity|left; reflexivity].
Defined.

Lemma get_frequency_Some
    (rfft_peak_index : list Z -> nat) (audio_data : list byte) (f : Q) :
  get_frequency rfft_peak_index audio_data = Ok (Some f) ->
  exists audio_array : list Z,
    frombuffer_int16 audio_data = Ok audio_array
    /\ 200 <= mean_abs_magnitude audio_array
    /\ f = inject_Z (Z.of_nat (rfft_peak_index audio_array) * SAMPLE_RATE)
           / inject_Z (Z.of_nat (List.length audio_array))
    /\ in_band f.
Proof.
  unfold get_frequency.
  destruct (frombuffer_int16 audio_data) as [a|e] eqn:Ha; [|discriminate].
  cbn [bind]. destruct a as [|x a]; [discriminate|].
  destruct (Qltb (mean (map abs_int16 (x :: a))) 200) eqn:Hv; [discriminate|].
  cbv zeta.
  match goal with |- context [if ?c then _ else _] => destruct c eqn:Hb end;
    [discriminate|].
  intro H. injection H as <-. exists (x :: a). split; [reflexivity|].
  split; [|split; [reflexivity|]].
  - apply Qle_trans with (mean (map abs_int16 (x :: a))).
    + apply Qnot_lt_le. intro Hlt. apply Qltb_lt in Hlt. congruence.
    + apply mean_le; [rewrite !length_map; reflexivity|apply sumZ_abs_int16_le].
  - apply orb_false_iff in Hb. destruct Hb as [Hlo Hhi]. unfold in_band. split.
    + apply Qnot_lt_le. intro Hlt. apply Qltb_lt in Hlt.
      exact (eq_true_false_abs _ Hlt Hlo).
    + apply Qnot_lt_le. intro Hlt. unfold Qgtb in Hhi. apply Qltb_lt in Hlt.
      exact (eq_true_false_abs _ Hlt Hhi).
Qed.

(** X18: [get_frequency] reports no frequency it should not. Whenever it
    returns a frequency, the block decodes, its mean absolute magnitude is at
    least 200, the frequency is [peak_index * SAMPLE_RATE / len] and it lies
    within 500 and 3000 Hz. *)
Theorem get_frequency_sound
    (rfft_peak_index : list Z -> nat) (audio_data : list byte) (f : Q) :
  get_frequency rfft_peak_index audio_data = Ok (Some f) ->
  exists audio_array : list Z,
    frombuffer_int16 audio_data = Ok audio_array
    /\ 200 <= mean_abs_magnitude audio_array
    /\ f = inject_Z (Z.of_nat (rfft_peak_index audio_array) * SAMPLE_RATE)
           / inject_Z (Z.of_nat (List.length audio_array))
    /\ in_band f.
Proof. exact (get_frequency_Some rfft_peak_index audio_data f). Qed.

(** The theorem at the tone block with its peak at bin 80. *)
Lemma get_frequency_sound_witness :
  get_frequency peak_at_bin_80 tone_block = Ok (Some (3528000 # 4096))
  /\ in_band (3528000 # 4096).
Proof.
  assert (E : get_frequency peak_at_bin_80 tone_block = Ok (Some (3528000 # 4096)))
    by (vm_compute; reflexivity).
  split; [exact E|].
  destruct (get_frequency_sound peak_at_bin_80 tone_block _ E) as (a & _ & _ & _ & Hb).
  exact Hb.
Defined.

Lemma in_range_false (f : Q) (low high : Z) :
  in_range f (low, high) = false <-> f < inject_Z low \/ inject_Z high < f.
Proof.
  unfold in_range. rewrite andb_false_iff. fold (Qgeb f (inject_Z low)).
  fold (Qgeb (inject_Z high) f). rewrite !Qgeb_lt. reflexivity.
Qed.

(** X19: the frequencies of the accepted band that are no note. Within 500
    and 3000 Hz a frequency is classified as none exactly when it falls in
    one of the five gaps the table leaves: between 790 and 800, 881 and 900,
    1000 and 1001, 1200 and 1210, 1300 and 1310 Hz (bounds excluded). *)
Theorem unclassified_in_band (f : Q) :
  in_band f ->
  (frequency_to_note (Some f) = None
   <-> (790 < f < 800 \/ 881 < f < 900 \/ 1000 < f < 1001
        \/ 1200 < f < 1210 \/ 1300 < f < 1310)).
Proof.
  unfold in_band. intro Hb. cbn [frequency_to_note]. rewrite first_match_None.
  split.
  - intro H.
    pose proof (H "C"%string (500, 790)%Z ltac:(cbn; tauto)) as HC.
    pose proof (H "D"%string (900, 1000)%Z ltac:(cbn; tauto)) as HD.
    pose proof (H "E"%string (1001, 1200)%Z ltac:(cbn; tauto)) as HE.
    pose proof (H "F"%string (1210, 1300)%Z ltac:(cbn; tauto)) as HF.
    pose proof (H "G"%string (1310, 3000)%Z ltac:(cbn; tauto)) as HG.
    pose proof (H "A"%string (800, 881)%Z ltac:(cbn; tauto)) as HA.
    apply in_range_false in HC, HD, HE, HF, HG, HA.
    unfold inject_Z in *. lra.
  - intros Hgap note range Hin. cbn in Hin.
    repeat match goal with
           | H : _ \/ _ |- _ => destruct H as [H|H]
           | H : False |- _ => destruct H
           | H : (_, _) = (_, _) |- _ => injection H as <- <-
           end;
      apply in_range_false; unfold inject_Z; lra.
Qed.

(** The theorem at bin 74 of the spectrum of a 4096-sample block, 796.7 Hz:
    in the band, between "C" and "A", and no note. *)
Lemma unclassified_in_band_witness :
  in_band (inject_Z (74 * SAMPLE_RATE) / inject_Z 4096)
  /\ frequency_to_note (Some (inject_Z (74 * SAMPLE_RATE) / inject_Z 4096)) = None.
Proof.
  assert (Hb : in_band (inject_Z (74 * SAMPLE_RATE) / inject_Z 4096)).
  { unfold in_band. vm_compute. split; discriminate. }
  split; [exact Hb|].
  apply (unclassified_in_band _ Hb). left. vm_compute. split; reflexivity.
Defined.

Lemma insert_sorted_Forall (P : Q -> Prop) (x : Q) (l : list Q) :
  P x -> Forall P l -> Forall P (insert_sorted x l).
Proof.
  intros Hx Hl.
  apply (Permutation_Forall (Permutation_sym (insert_sorted_perm x l))).
  constructor; assumption.
Qed.

Lemma sort_floats_Forall (P : Q -> Prop) (l : list Q) :
  Forall P l -> Forall P (sort_floats l).
Proof.
  intro H. exact (Permutation_Forall (Permutation_sym (sort_floats_perm l)) H).
Qed.

Lemma sort_floats_length (l : list Q) : List.length (sort_floats l) = List.length l.
Proof. apply Permutation_length, sort_floats_perm. Qed.

Lemma nth_Forall (P : Q -> Prop) (l : list Q) (n : nat) (d : Q) :
  Forall P l -> (n < List.length l)%nat -> P (nth n l d).
Proof.
  intros H Hn. rewrite Forall_forall in H. apply H. apply nth_In. exact Hn.
Qed.

Lemma median_within (l : list Q) (lo hi : Q) :
  l <> [] ->
  Forall (fun x => lo <= x <= hi) l ->
  lo <= np_median l <= hi.
Proof.
  intros Hne Hl. unfold np_median.
  pose proof (sort_floats_Forall _ l Hl) as Hs.
  pose proof (sort_floats_length l) as Hlen.
  assert (Hpos : (0 < List.length l)%nat) by (destruct l; [congruence|cbn; lia]).
  assert (Hhalf : (List.length l / 2 < List.length l)%nat)
    by (apply Nat.div_lt; lia).
  destruct (Nat.even (List.length l)).
  - assert (H1 : lo <= nth (List.length l / 2 - 1) (sort_floats l) 0 <= hi).
    { apply (nth_Forall (fun x => lo <= x <= hi)); [exact Hs|lia]. }
    assert (H2 : lo <= nth (List.length l / 2) (sort_floats l) 0 <= hi).
    { apply (nth_Forall (fun x => lo <= x <= hi)); [exact Hs|lia]. }
    set (a := nth (List.length l / 2 - 1) (sort_floats l) 0) in *.
    set (b := nth (List.length l / 2) (sort_floats l) 0) in *.
    clearbody a b. split.
    + apply Qle_shift_div_l; [reflexivity|]. lra.
    + apply Qle_shift_div_r; [reflexivity|]. lra.
  - apply (nth_Forall (fun x => lo <= x <= hi)); [exact Hs|lia].
Qed.

(** X20: the median stays among the readings. For a non-empty list of
    values all within [lo] and [hi], [np_median] lies within [lo] and [hi]:
    the stabilizer never outputs a frequency outside the range of the present
    readings of its window. *)
Theorem np_median_bounds (l : list Q) (lo hi : Q) :
  l <> [] ->
  Forall (fun x => lo <= x <= hi) l ->
  lo <= np_median l <= hi.
Proof. exact (median_within l lo hi). Qed.

(** The theorem at a window holding 861, 990 and 870 Hz. *)
Lemma np_median_bounds_witness : 861 <= np_median [861; 990; 870] <= 990.
Proof.
  apply np_median_bounds.
  - discriminate.
  - repeat constructor; vm_compute; discriminate.
Defined.

Lemma non_none_tl_Forall (P : Q -> Prop) (l : list (option Q)) :
  Forall P (non_none l) -> Forall P (non_none (tl l)).
Proof.
  destruct l as [|[x|] l]; cbn; intro H; [exact H|inversion H; assumption|exact H].
Qed.

(** X21: what the classifier is given. Along any run of the loop from a
    fresh recognizer, every present reading kept in the frequency window lies
    within 500 and 3000 Hz, and so does the stabilized frequency computed
    from it: no iteration classifies a frequency outside the accepted band. *)
Theorem window_in_band
    (rfft_peak_index : list Z -> nat) (inputs : list iteration_input) :
  let self := fst (process_audio rfft_peak_index init inputs) in
  Forall in_band (non_none (freq_buffer self))
  /\ (forall (audio_data : list byte) (frequency : option Q) (stable : Q),
        get_frequency rfft_peak_index audio_data = Ok frequency ->
        stable_frequency_of
          (deque_append FREQ_BUFFER_MAXLEN (freq_buffer self) frequency) frequency
        = Some stable ->
        in_band stable).
Proof.
  assert (Happend : forall buffer frequency audio_data,
            Forall in_band (non_none buffer) ->
            get_frequency rfft_peak_index audio_data = Ok frequency ->
            Forall in_band
              (non_none (deque_append FREQ_BUFFER_MAXLEN buffer frequency))).
  { intros buffer frequency audio_data Hbuf Hf.
    assert (Hnew : Forall in_band (non_none [frequency])).
    { destruct frequency as [f|]; cbn; [|constructor].
      destruct (get_frequency_Some _ _ _ Hf) as (_ & _ & _ & _ & Hb).
      constructor; [exact Hb|constructor]. }
    unfold deque_append.
    destruct (FREQ_BUFFER_MAXLEN <=? List.length buffer)%nat;
      rewrite non_none_app; apply Forall_app; split; auto.
    apply non_none_tl_Forall, Hbuf. }
  assert (Hinv : forall inputs self,
            Forall in_band (non_none (freq_buffer self)) ->
            Forall in_band
              (non_none (freq_buffer (fst (process_audio rfft_peak_index self inputs))))).
  { clear inputs. induction inputs as [|inp rest IH]; intros self Hself; [exact Hself|].
    cbn [process_audio].
    assert (Hstep : Forall in_band
                      (non_none (freq_buffer
                         (fst (process_audio_iteration rfft_peak_index self inp))))).
    { unfold process_audio_iteration.
      destruct (stream_read inp) as [audio_data|e]; [|exact Hself]. cbn [bind].
      destruct (get_frequency rfft_peak_index audio_data) as [frequency|e] eqn:Hf;
        [|exact Hself].
      rewrite note_boundary_freq_buffer. cbn [freq_buffer set_freq_buffer].
      exact (Happend _ _ _ Hself Hf). }
    destruct (process_audio_iteration rfft_peak_index self inp) as [self1 out1].
    specialize (IH self1 Hstep).
    destruct (process_audio rfft_peak_index self1 rest) as [self2 out2].
    exact IH. }
  intro self.
  assert (Hself : Forall in_band (non_none (freq_buffer self)))
    by (apply Hinv; constructor).
  split; [exact Hself|].
  intros audio_data frequency stable Hf Hstable.
  pose proof (Happend _ _ _ Hself Hf) as Hwin.
  destruct frequency as [f|]; [|discriminate]. cbn [stable_frequency_of] in Hstable.
  destruct (get_frequency_Some _ _ _ Hf) as (_ & _ & _ & _ & Hb).
  destruct (2 <=? List.length _)%nat eqn:Hlen.
  - injection Hstable as <-. apply median_within; [|exact Hwin].
    intro Hnil. rewrite Hnil in Hlen. discriminate.
  - injection Hstable as <-. exact Hb.
Qed.

(** The theorem after two tone blocks: the stabilized frequency of a third
    one, 861.3 Hz, is in the band. *)
Lemma window_in_band_witness :
  let inputs :=
    [ {| stream_read := Ok tone_block; clock := 0%float; clock_silence := 0%float |};
      {| stream_read := Ok tone_block; clock := 0.2%float;
         clock_silence := 0.2%float |} ] in
  let self := fst (process_audio peak_at_bin_80 init inputs) in
  stable_frequency_of
    (deque_append FREQ_BUFFER_MAXLEN (freq_buffer self) (Some (3528000 # 4096)))
    (Some (3528000 # 4096)) = Some (3528000 # 4096)
  /\ in_band (3528000 # 4096).
Proof.
  intros inputs self.
  assert (Hstable :
    stable_frequency_of
      (deque_append FREQ_BUFFER_MAXLEN (freq_buffer self) (Some (3528000 # 4096)))
      (Some (3528000 # 4096)) = Some (3528000 # 4096))
    by (vm_compute; reflexivity).
  split; [exact Hstable|].
  destruct (window_in_band peak_at_bin_80 inputs) as [_ H].
  apply (H tone_block (Some (3528000 # 4096)) (3528000 # 4096)); [|exact Hstable].
  vm_compute. reflexivity.
Defined.

Ltac Qle_bool_cases :=
  repeat match goal with
         | |- context [Qle_bool ?a ?b] =>
             let E := fresh "E" in destruct (Qle_bool a b) eqn:E
         end.

Ltac Qle_bool_facts :=
  repeat match goal with
         | H : Qle_bool _ _ = true |- _ => apply Qle_bool_iff in H
         | H : Qle_bool ?a ?b = false |- _ =>
             change (Qgeb b a = false) in H; apply Qgeb_lt in H
         end.

(** X22: one wild reading is rejected. In a full window of five present
    readings of which four are [v], wherever the fifth stands and whatever it
    is, the median is [v]. *)
Theorem np_median_rejects_one_outlier (x v : Q) (k : nat) :
  (k <= 4)%nat ->
  np_median (repeat v k ++ x :: repeat v (4 - k)) == v.
Proof.
  intro Hk.
  assert (k = 0 \/ k = 1 \/ k = 2 \/ k = 3 \/ k = 4)%nat
    as [ -> | [ -> | [ -> | [ -> | -> ] ] ] ] by lia;
    unfold np_median;
    cbn [repeat app Nat.sub List.length Nat.even Nat.div Nat.divmod fst
         sort_floats fold_right insert_sorted];
    repeat (progress (cbn [insert_sorted]; Qle_bool_cases));
    cbn [nth]; Qle_bool_facts; lra.
Qed.

(** The theorem at four readings of 861 Hz around one of 2500 Hz. *)
Lemma np_median_rejects_one_outlier_witness :
  np_median (repeat 861 2 ++ 2500 :: repeat 861 (4 - 2)) == 861.
Proof. apply np_median_rejects_one_outlier. lia. Defined.

(** X23: the test against [DROPOUT_TOLERANCE] changes nothing. Since the
    tolerance is not above [SILENCE_THRESHOLD], the silence branch behaves as
    if it tested the silence threshold alone. *)
Theorem dropout_test_is_subsumed (self : recognizer) (current_time : float) :
  no_note_detected self current_time
  = no_note_detected_silence_only self current_time.
Proof.
  unfold no_note_detected, no_note_detected_silence_only.
  destruct (current_note self); [|reflexivity].
  destruct (Fgeb (current_time - last_detection_time self) DROPOUT_TOLERANCE) eqn:E;
    [reflexivity|].
  rewrite (Fgeb_silence_of_not_dropout _ E). reflexivity.
Qed.

Lemma step_flag_cleared (rfft_peak_index : list Z -> nat) (w : world) (m : move) :
  running w = false ->
  running (step rfft_peak_index w m) = false
  /\ (turns_left (loop (step rfft_peak_index w m))
      + match m with loop_moves _ => 1 | stop_moves => 0 end
      <= Nat.max 1 (turns_left (loop w)))%nat
  /\ (loop w = loop_returned -> loop (step rfft_peak_index w m) = loop_returned)
  /\ enters_iteration w m = false
  /\ ((if runs_body w m then 1 else 0)
       + iteration_in_flight (loop (step rfft_peak_index w m))
      <= iteration_in_flight (loop w))%nat.
Proof.
  intro Hr. unfold enters_iteration, runs_body. destruct m as [env|]; cbn [step].
  - unfold loop_step. destruct (loop w) as [| | |audio|] eqn:El.
    + destruct (open_succeeds env); cbn; repeat split; auto; try lia; discriminate.
    + rewrite Hr. cbn. repeat split; auto; lia.
    + cbn. repeat split; auto; try lia; discriminate.
    + destruct (process_audio_iteration _ _ _) as [self1 out]. cbn.
      repeat split; auto; try lia; discriminate.
    + rewrite El. cbn. repeat split; auto; lia.
  - unfold stop_step. destruct (stopper w) eqn:Es; try rewrite Hr; cbn;
      repeat split; auto; try lia; destruct (loop w); cbn; lia.
Qed.

(** X24: the loop ends with the iteration in flight. Once [self.running] is
    false, whatever [stop()] does meanwhile and whatever is read, the thread of
    [process_audio] enters no further iteration: it runs at most the body of
    the iteration in flight, none if it is not inside an iteration; it has
    returned once it has been given the turns to finish that iteration and to
    run the test of the [while]; and once returned it stays returned. *)
Theorem loop_returns_once_flag_cleared
    (rfft_peak_index : list Z -> nat) (w : world) (schedule : list move) :
  running w = false ->
  let w' := run rfft_peak_index w schedule in
  running w' = false
  /\ iterations_entered rfft_peak_index w schedule = 0%nat
  /\ (bodies_run rfft_peak_index w schedule <= iteration_in_flight (loop w))%nat
  /\ (loop w = loop_returned -> loop w' = loop_returned)
  /\ ((turns_left (loop w) <= loop_moves_in schedule)%nat -> loop w' = loop_returned).
Proof.
  revert w. induction schedule as [|m rest IH]; intros w Hr w'; subst w'.
  - cbn. repeat split; auto; try lia.
    destruct (loop w); cbn; intro; try lia. reflexivity.
  - rewrite run_cons. cbn [iterations_entered bodies_run].
    destruct (step_flag_cleared rfft_peak_index w m Hr)
      as (Hr1 & Hleft & Hdone & Henter & Hbody).
    destruct (IH _ Hr1) as (Hr2 & Hit & Hbd & Hstay & Hret).
    rewrite Henter, Hit.
    split; [exact Hr2|]. split; [reflexivity|]. split; [lia|]. split.
    + intro H. apply Hstay, Hdone, H.
    + intro Hn.
      destruct (Nat.eq_dec (turns_left (loop w)) 0) as [E|E].
      * apply Hstay, Hdone. destruct (loop w); cbn in E; congruence.
      * apply Hret. destruct m as [env|]; cbn [loop_moves_in] in *; [lia|].
        assert (El : loop (step rfft_peak_index w stop_moves) = loop w).
        { cbn [step]. unfold stop_step.
          destruct (stopper w); try destruct (running w); reflexivity. }
        rewrite El. exact Hn.
Qed.

(** The theorem at [stop()] run to its end during an iteration, after the
    warm-up, and followed by two turns of the loop: the body of the iteration
    in flight, then the test. *)
Lemma loop_returns_once_flag_cleared_witness :
  let env := {| open_succeeds := true; read_outcome := Ok silent_block;
                time_151 := 1%float; time_176 := 1%float |} in
  let w := run peak_at_bin_80 started
             (warm_up ++ firstn 8 stop_during_iteration) in
  let schedule := [loop_moves env; loop_moves env] in
  loop (run peak_at_bin_80 w schedule) = loop_returned
  /\ iterations_entered peak_at_bin_80 w schedule = 0%nat
  /\ (bodies_run peak_at_bin_80 w schedule <= 1)%nat.
Proof.
  intros env w schedule.
  destruct (loop_returns_once_flag_cleared peak_at_bin_80 w schedule)
    as (_ & Hit & Hbd & _ & Hret).
  - vm_compute. reflexivity.
  - split; [|split; [exact Hit|]].
    + apply Hret.
      assert (E : turns_left (loop w) = 2%nat) by (vm_compute; reflexivity).
      rewrite E. cbn. lia.
    + assert (E : iteration_in_flight (loop w) = 1%nat) by (vm_compute; reflexivity).
      rewrite E in Hbd. exact Hbd.
Defined.

(** X25: when the stream cannot be opened. If [self.audio.open] fails, the
    thread clears [self.running] and returns at once; whatever is scheduled
    afterwards, [stop()] included, the loop never runs an iteration: no
    effect, no callback, and no stream. *)
Theorem open_failure_disables_recognition
    (rfft_peak_index : list Z -> nat) (env : environment) (schedule : list move) :
  open_succeeds env = false ->
  let w := run rfft_peak_index started (loop_moves env :: schedule) in
  loop w = loop_returned
  /\ running w = false
  /\ stream w = no_stream
  /\ loop_effects (log w) = [].
Proof.
  intro Hopen.
  assert (H : forall schedule w,
            loop w = loop_returned -> running w = false ->
            stream w = no_stream -> loop_effects (log w) = [] ->
            (stopper w = stop_not_called \/ stopper w = stop_returned) ->
            let w' := run rfft_peak_index w schedule in
            loop w' = loop_returned /\ running w' = false
            /\ stream w' = no_stream /\ loop_effects (log w') = []).
  { clear. induction schedule as [|m rest IH]; intros w Hl Hr Hs He Hp; [cbn; auto|].
    rewrite run_cons.
    assert (Hstep : loop (step rfft_peak_index w m) = loop_returned
                    /\ running (step rfft_peak_index w m) = false
                    /\ stream (step rfft_peak_index w m) = no_stream
                    /\ loop_effects (log (step rfft_peak_index w m)) = []
                    /\ (stopper (step rfft_peak_index w m) = stop_not_called
                        \/ stopper (step rfft_peak_index w m) = stop_returned)).
    { destruct m; cbn [step].
      - unfold loop_step. rewrite Hl. auto.
      - unfold stop_step. destruct Hp as [Hp|Hp]; rewrite Hp.
        + rewrite Hr. cbn. rewrite loop_effects_app, He. repeat split; auto.
        + rewrite Hp. repeat split; auto. }
    destruct Hstep as (H1 & H2 & H3 & H4 & H5). apply IH; assumption. }
  intro w. subst w. rewrite run_cons. cbn [step]. unfold loop_step.
  cbn [loop started]. rewrite Hopen.
  apply H; cbn; auto.
Qed.

(** The theorem at a failed opening followed by [stop()] and more. *)
Lemma open_failure_disables_recognition_witness :
  let env := {| open_succeeds := false; read_outcome := Ok tone_block;
                time_151 := 0%float; time_176 := 0%float |} in
  loop_effects
    (log (run peak_at_bin_80 started
            (loop_moves env
             :: [stop_moves; loop_moves env; stop_moves; loop_moves env]))) = [].
Proof.
  intro env.
  destruct (open_failure_disables_recognition peak_at_bin_80 env
              [stop_moves; loop_moves env; stop_moves; loop_moves env] eq_refl)
    as (_ & _ & _ & H).
  exact H.
Defined.

(** * The calibration tool *)

(** X26: the recognizer's estimator is the calibration tool's with stricter
    filters. Whenever [NoteRecognizer.get_frequency] returns a frequency for a
    block, the calibration tool's [get_frequency] returns the same frequency
    for it, with a volume of at least 200; and whenever the tool raises, so
    does the recognizer. *)
Theorem calibrate_agrees_with_recognizer
    (rfft_peak_index : list Z -> nat) (audio_data : list byte) :
  (forall f : Q,
     get_frequency rfft_peak_index audio_data = Ok (Some f) ->
     exists volume : Q,
       Calibrate.get_frequency rfft_peak_index audio_data = Ok (Some f, volume)
       /\ 200 <= volume)
  /\ (forall e : exn,
        Calibrate.get_frequency rfft_peak_index audio_data = Raise e
        <-> get_frequency rfft_peak_index audio_data = Raise e).
Proof.
  unfold get_frequency, Calibrate.get_frequency.
  destruct (frombuffer_int16 audio_data) as [a|e0]; cbn [bind];
    [|split; [discriminate|intro e; split; intro H; injection H as <-; reflexivity]].
  destruct a as [|x a];
    [split; [discriminate|intro e; split; intro H; injection H as <-; reflexivity]|].
  cbv zeta. set (volume := mean (map abs_int16 (x :: a))).
  split.
  - destruct (Qltb volume 200) eqn:Hv; [discriminate|].
    match goal with |- context [if ?c then _ else _] => destruct c end;
      [discriminate|].
    intros f H. injection H as <-.
    assert (Hvol : 200 <= volume).
    { apply Qnot_lt_le. intro Hlt. apply Qltb_lt in Hlt. congruence. }
    assert (H100 : Qltb volume 100 = false).
    { destruct (Qltb volume 100) eqn:E; [|reflexivity].
      apply Qltb_lt in E. lra. }
    rewrite H100. exists volume. split; [reflexivity|exact Hvol].
  - intro e. destruct (Qltb volume 100), (Qltb volume 200);
      try match goal with |- context [if ?c then _ else _] => destruct c end;
      split; discriminate.
Qed.

(** The theorem at the tone block with its peak at bin 80. *)
Lemma calibrate_agrees_with_recognizer_witness :
  exists volume : Q,
    Calibrate.get_frequency peak_at_bin_80 tone_block
    = Ok (Some (3528000 # 4096), volume)
    /\ 200 <= volume.
Proof.
  destruct (calibrate_agrees_with_recognizer peak_at_bin_80 tone_block) as [H _].
  apply H. vm_compute. reflexivity.
Defined.

(** X27: what the calibration tool can show. The readings its main loop
    keeps lie strictly between 200 and 700 Hz; such a reading is classified as
    "C" when it is at least 500 Hz and as no note below: the tool never
    displays a frequency of "D", "E", "F", "G" or "A". *)
Theorem calibration_keeps_only_C (f : Q) :
  Calibrate.kept (Some f) = true ->
  200 < f < 700
  /\ (500 <= f -> frequency_to_note (Some f) = Some "C"%string)
  /\ (f < 500 -> frequency_to_note (Some f) = None).
Proof.
  unfold Calibrate.kept. intro H.
  apply andb_true_iff in H. destruct H as [_ H].
  apply andb_true_iff in H. destruct H as [Hlo Hhi].
  apply Qltb_lt in Hlo, Hhi.
  split; [split; assumption|]. split.
  - intro H500. cbn [frequency_to_note NOTE_RANGES first_match].
    assert (E : in_range f (500, 790)%Z = true).
    { apply in_range_iff. unfold inject_Z. split; lra. }
    rewrite E. reflexivity.
  - intro H500. cbn [frequency_to_note]. apply first_match_None.
    intros note range Hnote. cbn in Hnote.
    repeat match goal with
           | H : _ \/ _ |- _ => destruct H as [H|H]
           | H : False |- _ => destruct H
           | H : (_, _) = (_, _) |- _ => injection H as <- <-
           end;
      apply in_range_false; unfold inject_Z; lra.
Qed.

(** The theorem at 600 Hz. *)
Lemma calibration_keeps_only_C_witness :
  frequency_to_note (Some 600) = Some "C"%string.
Proof.
  destruct (calibration_keeps_only_C 600 eq_refl) as (_ & H & _).
  apply H. lra.
Defined.
